(* ===== verification/_CoqProject ===== *)
-Q . S2P
Prelude.v
Utf8.v
CsvRead.v
Md5.v
CsvRow.v
Dedup.v
Json.v
JsonParse.v
PhotoWalk.v
Console.v
DataJs.v
IndexMain.v
