(* ===== verification/Prelude.v ===== *)
(** * A verification development of the handball web-app data tools

    The repository holds two offline Python scripts feeding a static web page:

    - [src/generer-data-js.py] reads [Events.csv] with [csv.DictReader],
      drops blank rows ([ligne_est_vide]), drops rows whose MD5 fingerprint
      ([calculer_hash], over six fixed columns joined with ['|']) was already
      seen ([lire_csv]), writes [data.js] as a banner plus a JSON literal
      ([generer_data_js]) and reports the detected team columns ([main]).
    - [src/generer-index.py] walks each folder of [Effectifs/] with
      [os.walk], keeps the files whose lower-cased suffix is an image
      extension ([lister_photos]), writes one [index.json] per team folder
      and one global [photos-index.js] ([main]).

    The two scripts share nothing at run time; they share Python's string,
    JSON, UTF-8 and path conventions, which this development models once.

    ** Files, in dependency order, and what they model

    - [Prelude] (this file): Python strings as lists of code points
      ([pystr], notation [py:"..."]) with [str.strip], [str.lower] (the
      simple lower-case table of Unicode 14.0, as Python 3.11 has it,
      run-length encoded in [lower_table], and the special case of
      U+0130), [in],
      [str.replace], [str.join] and code-point ordering ([str_le], with its
      order instances); [sorted] as stdpp's stable merge sort ([py_sorted])
      and the fact that it commutes with an order-preserving map; the
      exceptions [pyexc], the result type [pyresult] and its monad, the
      outcome of a script run ([outcome]), the [platform] a script runs
      on (POSIX or Windows); the [py] hint database, the
      tactics [div_lia], [N_cond_simpl] and [py_simpl], and the list lemmas
      shared by the other files ([flat_map], [mapM], [forallb]).
    - [Utf8]: [str.encode('utf-8')] ([utf8_encode], raising on a lone
      surrogate), a strict decoder, the round trip, injectivity and the
      byte length of an encoding; the newline translation of a file
      opened in text mode ([traduire_nl] with [os_linesep]: a line feed
      is written as a carriage return and a line feed on Windows).
    - [CsvRead]: how [lire_csv] reads [Events.csv] (lines 48-52):
      [open(..., encoding='utf-8-sig')] ([decode_utf8_sig]: one byte-order
      mark skipped, strict decoding), universal newlines
      ([translate_newlines], since no [newline=''] is given), the lines of
      the file ([split_lines]) and the state machine of [csv.reader] for
      the [excel] dialect ([parser_state], the record [reader],
      [process_char], [process_line], [csv_lines]) with the field size
      limit ([field_limit]); [lire_records] gives the records read before
      the first error and that error.  The same machine character by
      character ([csv_text], proved equal to the line-based one) carries
      the proofs.
    - [Md5]: the [HexDigest] interface (a class whose law is that a digest
      has 32 hex digits) through which [Dedup] sees [hashlib.md5], and an
      MD5 instance ([Md5.md5_hexdigest], module [Md5]) checked on the
      RFC 1321 vectors by evaluation.
    - [CsvRow]: the rows [csv.DictReader] yields, as insertion-ordered
      dicts (association lists with [dict_set]/[dict_get]): [zip], the
      restkey [None] for surplus cells, the restval [None] for missing
      ones, skipped blank records ([dict_reader]).
    - [Dedup]: lines 24-66 of the converter.  [calculer_hash], [get_str]
      and [composants], [ligne_est_vide] ([all_blank]) and [lire_csv] as a
      fold ([lire_rows] of [lire_step]) on the record [lstate] (lignes,
      hashes_vus as a [gset], doublons), in [pyresult]; a reference
      specification ([dedup_spec], [dups_spec]: first occurrence of each
      fingerprint among non-blank rows) in a Section over an abstract
      blank test and fingerprint.
    - [Json]: [json.dumps(obj, indent=2, ensure_ascii=False)] ([dumps]) on
      [None], integers, strings, lists and dicts; the chunks [json.dump]
      writes one by one ([iterencode]); the string-literal decoder and its
      round trip; which texts encode in UTF-8; the same text with any line
      break ([dumps_nl]), which is what the newline translation of
      [dumps] gives, since no literal holds a raw line feed.
    - [JsonParse]: the reader of the generated files, a [JSON.parse] of
      the subset the scripts write ([parse_json]: white space, [null],
      integers without sign or leading zero, string literals, arrays and
      objects), with fuel; it is not code of the repository (the web page
      is outside it) and serves to state what a reader of the outputs
      gets back, whatever line break the text was written with.
    - [DataJs]: lines 42-141 of the converter: [lire_csv] on the bytes
      of the file ([lire_csv_fichier]: the rows of the records the reader
      yields, then the reader's error), the module text
      ([contenu_data_js]), [generer_data_js] on a [world] (the bytes of
      [Events.csv], the content of [data.js]), the team detection and
      [main_data_js], with the blocks of lines it prints in the order of
      its [print] calls ([entete_data_js], [introuvable], [chemins],
      [aucune_ligne], [rapport_lecture], [ligne_taille], [ligne_equipes],
      [fin_data_js]).
    - [PhotoWalk]: lines 21-37 of the indexer: directory trees ([fsnode]),
      [os.walk] top-down ([os_walk]), [Path.suffix] ([py_suffix]), the
      extension test, the relative path with the backslash replacement on
      POSIX and Windows, the exception of opening a directory for writing
      ([erreur_dossier]), and [lister_photos]; a reference
      enumeration without the walk ([photos_entry], [files_entry]).
    - [Console]: what the two mains print.  The console is a trace, the
      list of the lines printed ([print(x)] is one line, [print()] the
      empty one), which each main returns beside its outcome and its file
      system, so the order of the lines and of the writes is the order of
      the code, and a run that raises returns the lines printed before
      the exception.  The file holds the formats the lines use: the rule
      ([regle]), [str(Path(dir) / nom)] ([joinpath]), [str(n)]
      ([str_nat]), [:20s] ([pad20]) and [:.1f] of a size in kilobytes
      ([format_ko], by the rounding [dixiemes]).
    - [IndexMain]: lines 40-106 of the indexer: the script directory as a
      tree, the lookup of [Effectifs], [sorted(iterdir())] ([trier]), the
      loop ([boucle] of [traiter_entree]) on the record [istate]
      (counters, [all_indexes], current content of [Effectifs], the lines
      printed by the loop), the writes of [index.json] and
      [photos-index.js] in UTF-8 through text-mode files ([ecrire],
      [encode_chunks], with the newline translation of the platform) and
      [main_index], with its lines ([entete_index], [absent_index], the
      line of a team folder [ligne_equipe] with its [statut], and
      [fin_index]).

    ** How the parts interact

    Each script is one [main] that calls the others in sequence: the
    converter's [main_data_js] composes [lire_csv_fichier] (the decoder
    and [csv.reader] of [CsvRead], then [dict_reader] of [CsvRow], then
    [lire_csv] of [Dedup], which sees MD5 only through the [HexDigest]
    class of [Md5]), [generer_data_js] (which writes [dumps] of [Json]),
    the team detection and the console lines of [Console]; the indexer's
    [main_index] composes [trier], the loop of [traiter_entree] (which
    calls [lister_photos] of [PhotoWalk] and [json.dump] of [Json]) and
    the write of [photos-index.js], printing as it goes.  The theorems on
    the mains are proved from the lemmas of the parts they call.

    ** What the theorems show (claims C1-C35)

    Every theorem on a main or on a write holds on POSIX and on Windows
    (a [platform] argument): the files are written in text mode, so on
    Windows each line feed becomes a carriage return and a line feed, and
    opening a directory for writing raises [PermissionError] there, not
    [IsADirectoryError].

    - Deduplication ([Dedup], C1-C11): [lire_csv] refines the
      first-occurrence specification (C1); first occurrence wins (C2);
      kept rows plus duplicates are the non-blank rows (C3); digests are
      distinct and [hashes_vus] is their set (C4); exactly when the run
      raises (C5) and the two crashes of short rows and blank rows with a
      trailing cell (C6, C7); well-formed files never raise (C8); swapping
      non-colliding rows (C9), a second pass (C10); any two records that
      differ by where a ['|'] splits two adjacent fields collide, and the
      second is dropped (C11).
    - Converter ([DataJs], C12-C16): the success path writes the module
      of the specification's rows and prints their number, the number of
      duplicates and the detected teams (C12); the fatal paths write
      nothing and print their error lines (C13); a wide first row crashes
      the team detection after [data.js] is written (C14); the detected
      teams (C15); the reported size counts code points before the
      newline translation, not bytes, and is rounded to the nearest tenth
      of a kilobyte, a tie to even (C16).
    - Photo listing ([PhotoWalk], C17-C20, C22): [lister_photos] sorts the
      reference enumeration (C17), does not depend on the listing order
      (C18), lists exactly the image files (C19), normalizes separators
      (C20); on POSIX a file [a\b] and the file [b] of folder [a] are
      listed under one path (C22).
    - Indexer ([IndexMain], C21, C23-C27): the report a successful run
      prints, one line per team folder with its own photo count and a
      summary with the totals of [Effectifs] (C21); the outputs of a
      successful run, as their readers decode them (C23); the fatal paths
      and their messages (C24); a second run changes nothing and prints
      the same report (C25); a team folder whose name or photo path holds
      a lone surrogate (a file name that is not UTF-8) crashes the run
      mid-way, leaving a truncated [index.json] (C26); exactly when one
      team folder raises (C27).
    - Reading the outputs back ([JsonParse], [DataJs], [IndexMain],
      C28-C33): [JSON.parse] inverts [json.dumps] and [json.dump] (C28);
      the literal of [data.js] reads back as the kept rows (C29); every
      [index.json] has the schema of the specification (C30); the literal
      of [photos-index.js] reads back as the map of the sorted teams to
      their photos (C31); [json.dump] chunk by chunk writes the bytes of
      [json.dumps], or raises after a proper prefix of them (C32); a
      column named [null] and the surplus cells of any longer record give
      an object with a duplicate key (C33).
    - Reading [Events.csv] ([CsvRead], C34-C35): the bytes of a
      spreadsheet export, with or without byte-order mark, read back as
      its records, a carriage return inside a cell being read as a line
      feed (C34); a file that is not UTF-8 raises before any record, and a
      field above the size limit raises after the records before it
      (C35).

    ** Bounds and fuel

    No definition of the scripts uses fuel: every loop of the scripts runs
    over a finite list (rows, records, directory entries, chunks) or a
    finite tree, and is a structural [Fixpoint], so every run terminates
    by construction, and the mains are total functions that return an
    outcome on every input; this is why no theorem states termination on
    its own.  The reader of [JsonParse] recurses on nested values
    and is given one unit of fuel per character of its input plus one;
    running out of fuel is a result of its own ([PFuel]), distinct from a
    syntax error, and the round trip proves that this fuel is enough for
    every text [json.dumps] writes (a value of [json_size] [n] has a text
    of at least [n] characters).
    Integers are [N] (Python's unbounded integers); the only fixed-width
    arithmetic is MD5's, written modulo [2^32] in [Md5].  The one bound
    of the library code that the scripts can reach is [csv]'s field size
    limit, 131072 characters ([CsvRead.field_limit]), kept as the [N]
    counter [field_len] of the reader, as in [_csv.c].  The size
    [taille / 1024] that the converter prints is a float, but the
    quotient of an integer below 2^53 by a power of two is exact, and
    [format_ko] rounds the exact quotient as Python's [:.1f] does; a
    module of 2^53 code points is far beyond what the scripts write.

    ** Not modelled

    The timing of a decoding error: the model decodes the whole file
    before reading any record, whereas Python's io layer decodes it in
    chunks of 8 KiB, so a row of an earlier chunk that raises would be
    reported first; the states of [csv.reader] reached only through an
    escape character, which the [excel] dialect does not have; symbolic
    links and the case-insensitive name lookup of Windows file systems; [Events.csv] or
    [data.js] being directories; the encoding of the console: a line is
    kept as code points, whereas Python raises when [sys.stdout] cannot
    encode it (only the script directory can hold such a character: a
    team name is printed after an [index.json] holding it was encoded);
    the traceback an exception prints on [sys.stderr]; the Unicode
    version of [str.lower] is that of Python 3.11 (a later Python may
    lower a few more code points; no extension test depends on it, since
    the extensions are ASCII and only U+0130 (to [i] and a combining
    dot) and U+212A (to [k]) lower to ASCII letters); the web page that reads
    the outputs (only its [JSON.parse] of the subset the scripts write is
    modelled, and it keeps duplicate keys as a list, where a JavaScript
    object keeps the last one). *)

From Stdlib Require Import Ascii String NArith.
From stdpp Require Export base list sorting gmap.
Export String.StringSyntax.

(** Induction principles for types nested in lists and pairs (the JSON
    values and the directory trees) get hypotheses for the nested items. *)
Scheme All for list.
Scheme All for prod.

Declare Scope py_scope.
Delimit Scope py_scope with py.
Open Scope N_scope.

(** ** Python strings

    A Python [str] is a sequence of code points; it is modelled as a list
    of [N].  ASCII literals are written [py:"..."]. *)

Abbreviation pystr := (list N).

Definition of_ascii (s : string) : list N :=
  map N_of_ascii (list_ascii_of_string s).

Notation "'py:' s" := (of_ascii s%string) (at level 10, s at level 0) : py_scope.
Open Scope py_scope.

(** [str.isspace] of Python 3 on one code point: the Unicode white-space
    characters and the ASCII separators 0x1c-0x1f. *)
Definition py_isspace (c : N) : bool :=
  ((9 <=? c) && (c <=? 13)) || ((28 <=? c) && (c <=? 32)) ||
  (c =? 133) || (c =? 160) || (c =? 5760) ||
  ((8192 <=? c) && (c <=? 8202)) ||
  (c =? 8232) || (c =? 8233) || (c =? 8239) || (c =? 8287) || (c =? 12288).

Fixpoint py_lstrip (s : list N) : list N :=
  match s with
  | [] => []
  | c :: s' => if py_isspace c then py_lstrip s' else s
  end.

Definition py_rstrip (s : list N) : list N := rev (py_lstrip (rev s)).

(** [s.strip()] with no argument. *)
Definition py_strip (s : list N) : list N := py_rstrip (py_lstrip s).

(** The single-code-point lower-case mappings of the Unicode Character
    Database (version 14.0, the one of Python 3.11) that [str.lower]
    uses: an entry [(lo, hi, step, t)] maps the code points [lo],
    [lo + step], ... up to [hi] to [t], [t + step], ...  The table is the
    run-length form of [chr(c).lower()] over all code points. *)
Definition lower_table : list (N * N * N * N) :=
  [(65, 90, 1, 97); (192, 214, 1, 224); (216, 222, 1, 248); (256, 302, 2, 257);
   (306, 310, 2, 307); (313, 327, 2, 314); (330, 374, 2, 331); (376, 376, 1, 255);
   (377, 381, 2, 378); (385, 385, 1, 595); (386, 388, 2, 387); (390, 390, 1, 596);
   (391, 391, 1, 392); (393, 394, 1, 598); (395, 395, 1, 396); (398, 398, 1, 477);
   (399, 399, 1, 601); (400, 400, 1, 603); (401, 401, 1, 402); (403, 403, 1, 608);
   (404, 404, 1, 611); (406, 406, 1, 617); (407, 407, 1, 616); (408, 408, 1, 409);
   (412, 412, 1, 623); (413, 413, 1, 626); (415, 415, 1, 629); (416, 420, 2, 417);
   (422, 422, 1, 640); (423, 423, 1, 424); (425, 425, 1, 643); (428, 428, 1, 429);
   (430, 430, 1, 648); (431, 431, 1, 432); (433, 434, 1, 650); (435, 437, 2, 436);
   (439, 439, 1, 658); (440, 440, 1, 441); (444, 444, 1, 445); (452, 452, 1, 454);
   (453, 453, 1, 454); (455, 455, 1, 457); (456, 456, 1, 457); (458, 458, 1, 460);
   (459, 475, 2, 460); (478, 494, 2, 479); (497, 497, 1, 499); (498, 500, 2, 499);
   (502, 502, 1, 405); (503, 503, 1, 447); (504, 542, 2, 505); (544, 544, 1, 414);
   (546, 562, 2, 547); (570, 570, 1, 11365); (571, 571, 1, 572); (573, 573, 1, 410);
   (574, 574, 1, 11366); (577, 577, 1, 578); (579, 579, 1, 384); (580, 580, 1, 649);
   (581, 581, 1, 652); (582, 590, 2, 583); (880, 882, 2, 881); (886, 886, 1, 887);
   (895, 895, 1, 1011); (902, 902, 1, 940); (904, 906, 1, 941); (908, 908, 1, 972);
   (910, 911, 1, 973); (913, 929, 1, 945); (931, 939, 1, 963); (975, 975, 1, 983);
   (984, 1006, 2, 985); (1012, 1012, 1, 952); (1015, 1015, 1, 1016); (1017, 1017, 1, 1010);
   (1018, 1018, 1, 1019); (1021, 1023, 1, 891); (1024, 1039, 1, 1104); (1040, 1071, 1, 1072);
   (1120, 1152, 2, 1121); (1162, 1214, 2, 1163); (1216, 1216, 1, 1231); (1217, 1229, 2, 1218);
   (1232, 1326, 2, 1233); (1329, 1366, 1, 1377); (4256, 4293, 1, 11520);
   (4295, 4295, 1, 11559); (4301, 4301, 1, 11565); (5024, 5103, 1, 43888);
   (5104, 5109, 1, 5112); (7312, 7354, 1, 4304); (7357, 7359, 1, 4349); (7680, 7828, 2, 7681);
   (7838, 7838, 1, 223); (7840, 7934, 2, 7841); (7944, 7951, 1, 7936); (7960, 7965, 1, 7952);
   (7976, 7983, 1, 7968); (7992, 7999, 1, 7984); (8008, 8013, 1, 8000); (8025, 8031, 2, 8017);
   (8040, 8047, 1, 8032); (8072, 8079, 1, 8064); (8088, 8095, 1, 8080); (8104, 8111, 1, 8096);
   (8120, 8121, 1, 8112); (8122, 8123, 1, 8048); (8124, 8124, 1, 8115); (8136, 8139, 1, 8050);
   (8140, 8140, 1, 8131); (8152, 8153, 1, 8144); (8154, 8155, 1, 8054); (8168, 8169, 1, 8160);
   (8170, 8171, 1, 8058); (8172, 8172, 1, 8165); (8184, 8185, 1, 8056); (8186, 8187, 1, 8060);
   (8188, 8188, 1, 8179); (8486, 8486, 1, 969); (8490, 8490, 1, 107); (8491, 8491, 1, 229);
   (8498, 8498, 1, 8526); (8544, 8559, 1, 8560); (8579, 8579, 1, 8580); (9398, 9423, 1, 9424);
   (11264, 11311, 1, 11312); (11360, 11360, 1, 11361); (11362, 11362, 1, 619);
   (11363, 11363, 1, 7549); (11364, 11364, 1, 637); (11367, 11371, 2, 11368);
   (11373, 11373, 1, 593); (11374, 11374, 1, 625); (11375, 11375, 1, 592);
   (11376, 11376, 1, 594); (11378, 11378, 1, 11379); (11381, 11381, 1, 11382);
   (11390, 11391, 1, 575); (11392, 11490, 2, 11393); (11499, 11501, 2, 11500);
   (11506, 11506, 1, 11507); (42560, 42604, 2, 42561); (42624, 42650, 2, 42625);
   (42786, 42798, 2, 42787); (42802, 42862, 2, 42803); (42873, 42875, 2, 42874);
   (42877, 42877, 1, 7545); (42878, 42886, 2, 42879); (42891, 42891, 1, 42892);
   (42893, 42893, 1, 613); (42896, 42898, 2, 42897); (42902, 42920, 2, 42903);
   (42922, 42922, 1, 614); (42923, 42923, 1, 604); (42924, 42924, 1, 609);
   (42925, 42925, 1, 620); (42926, 42926, 1, 618); (42928, 42928, 1, 670);
   (42929, 42929, 1, 647); (42930, 42930, 1, 669); (42931, 42931, 1, 43859);
   (42932, 42946, 2, 42933); (42948, 42948, 1, 42900); (42949, 42949, 1, 642);
   (42950, 42950, 1, 7566); (42951, 42953, 2, 42952); (42960, 42960, 1, 42961);
   (42966, 42968, 2, 42967); (42997, 42997, 1, 42998); (65313, 65338, 1, 65345);
   (66560, 66599, 1, 66600); (66736, 66771, 1, 66776); (66928, 66938, 1, 66967);
   (66940, 66954, 1, 66979); (66956, 66962, 1, 66995); (66964, 66965, 1, 67003);
   (68736, 68786, 1, 68800); (71840, 71871, 1, 71872); (93760, 93791, 1, 93792);
   (125184, 125217, 1, 125218)].

(** [str.lower] on one code point: U+0130 lowers to two code points (the
    one unconditional rule of SpecialCasing.txt for lower case), the
    others through [lower_table]. *)
Definition py_lower_char (c : N) : list N :=
  if c =? 304 then [105; 775]
  else
    match find (λ '(lo, hi, step, _), (lo <=? c) && (c <=? hi) && ((c - lo) mod step =? 0)) lower_table with
    | Some (lo, _, _, t) => [t + (c - lo)]
    | None => [c]
    end.

Definition py_lower (s : list N) : list N := s ≫= py_lower_char.

Fixpoint prefixb (p s : list N) : bool :=
  match p, s with
  | [], _ => true
  | a :: p', b :: s' => (a =? b) && prefixb p' s'
  | _ :: _, [] => false
  end.

(** [needle in hay] for strings. *)
Fixpoint py_in (needle hay : list N) : bool :=
  prefixb needle hay ||
  match hay with [] => false | _ :: hay' => py_in needle hay' end.

(** [s.replace(old, new)]: non-overlapping occurrences, left to right;
    [skip] counts the code points of a match still to be dropped.  An
    empty [old] inserts [new] around every code point, as CPython does. *)
Fixpoint py_replace_go (old new : list N) (skip : nat) (s : list N) : list N :=
  match s with
  | [] => []
  | c :: s' =>
      match skip with
      | S k => py_replace_go old new k s'
      | O => if prefixb old s
             then new ++ py_replace_go old new (pred (length old)) s'
             else c :: py_replace_go old new O s'
      end
  end.

Definition py_replace (old new s : list N) : list N :=
  match old with
  | [] => (s ≫= (λ c, new ++ [c])) ++ new
  | _ => py_replace_go old new O s
  end.

(** [sep.join(parts)]. *)
Definition py_join (sep : list N) (parts : list (list N)) : list N :=
  match parts with
  | [] => []
  | p :: ps => p ++ (ps ≫= (λ q, sep ++ q))
  end.

(** Python orders [str] values by code points, lexicographically. *)
Fixpoint str_compare (a b : list N) : comparison :=
  match a, b with
  | [], [] => Eq
  | [], _ :: _ => Lt
  | _ :: _, [] => Gt
  | x :: a', y :: b' =>
      match N.compare x y with
      | Eq => str_compare a' b'
      | c => c
      end
  end.

Definition str_le (a b : list N) : Prop := str_compare a b ≠ Gt.

#[export] Instance str_le_dec : RelDecision str_le.
Proof. intros a b. unfold str_le. apply _. Defined.

(** [sorted(xs)] / [xs.sort()] on strings.  CPython's Timsort is a stable
    merge sort; on a total order every sort returns the same list (lemma
    [py_sorted_unique]), so stdpp's [merge_sort] is a faithful model. *)
Definition py_sorted (xs : list (list N)) : list (list N) := merge_sort str_le xs.

(** ** Code that may raise

    The exceptions the modelled code can raise, and the result of a
    computation that returns a value or raises. *)

Inductive pyexc :=
  | TypeError
  | AttributeError
  | NotADirectoryError
  | IsADirectoryError
  | PermissionError
  | UnicodeEncodeError
  | UnicodeDecodeError
  | CsvError.

#[export] Instance pyexc_eq_dec : EqDecision pyexc.
Proof. solve_decision. Defined.

(** The platform a script runs on, where Python's behaviour depends on
    it: path separators, the line separator of text files, the order of
    Windows paths and the error of opening a directory. *)
Inductive platform := Posix | Windows.

(** How a run of a script ends: [sys.exit(code)] or a normal return
    (code 0), or an uncaught exception. *)
Inductive outcome :=
  | Exit (code : nat)
  | Crash (e : pyexc).

#[export] Instance outcome_eq_dec : EqDecision outcome.
Proof. solve_decision. Defined.

Inductive pyresult (A : Type) :=
  | Ok (a : A)
  | Raise (e : pyexc).
Arguments Ok {A} a.
Arguments Raise {A} e.

#[export] Instance pyresult_ret : MRet pyresult := λ A a, Ok a.
#[export] Instance pyresult_bind : MBind pyresult :=
  λ A B f m, match m with Ok a => f a | Raise e => Raise e end.

(** ** Automation *)

Create HintDb py.
Create Rewrite HintDb py.

Ltac py_simpl := cbn [mbind pyresult_bind mret pyresult_ret] in *.

(** Arithmetic with division and remainder by constants. *)
Ltac div_lia := zify; Z.to_euclidean_division_equations; lia.

(** Evaluate the comparisons [a <? b], [a <=? b], [a =? b] of the goal that
    [div_lia] can decide. *)
Ltac N_cond_simpl :=
  repeat match goal with
  | |- context [?a <? ?b] =>
      first [ rewrite (proj2 (N.ltb_lt a b)) by div_lia
            | rewrite (proj2 (N.ltb_ge a b)) by div_lia ]
  | |- context [?a <=? ?b] =>
      first [ rewrite (proj2 (N.leb_le a b)) by div_lia
            | rewrite (proj2 (N.leb_gt a b)) by div_lia ]
  | |- context [?a =? ?b] =>
      first [ rewrite (proj2 (N.eqb_eq a b)) by div_lia
            | rewrite (proj2 (N.eqb_neq a b)) by div_lia ]
  end; cbn [andb orb negb].

(** ** Generic lemmas *)

Lemma str_compare_refl a : str_compare a a = Eq.
Proof. induction a as [|x a IH]; simpl; [done|]. by rewrite N.compare_refl. Qed.

Lemma str_compare_eq a b : str_compare a b = Eq → a = b.
Proof.
  revert b; induction a as [|x a IH]; intros [|y b]; simpl; try done.
  destruct (N.compare x y) eqn:E; try done.
  apply N.compare_eq in E as ->. intros H. by rewrite (IH b H).
Qed.

Lemma str_compare_antisym a b : str_compare b a = CompOpp (str_compare a b).
Proof.
  revert b; induction a as [|x a IH]; intros [|y b]; simpl; try done.
  rewrite (N.compare_antisym x y). destruct (N.compare x y); simpl; auto.
Qed.

Lemma str_compare_lt_trans a b c :
  str_compare a b = Lt → str_compare b c = Lt → str_compare a c = Lt.
Proof.
  revert b c; induction a as [|x a IH]; intros [|y b] [|z c]; simpl; try done.
  destruct (N.compare_spec x y) as [Exy|Hxy|Hxy]; try done;
    destruct (N.compare_spec y z) as [Eyz|Hyz|Hyz]; try done; intros H1 H2; subst.
  - rewrite N.compare_refl. eauto.
  - by rewrite (proj2 (N.compare_lt_iff _ _) Hyz).
  - by rewrite (proj2 (N.compare_lt_iff _ _) Hxy).
  - rewrite (proj2 (N.compare_lt_iff x z)); [done|lia].
Qed.

#[export] Instance str_le_total : Total str_le.
Proof.
  intros a b. unfold str_le. rewrite (str_compare_antisym a b).
  destruct (str_compare a b); simpl; [left|left|right]; done.
Qed.

#[export] Instance str_le_antisymm : AntiSymm (=) str_le.
Proof.
  intros a b H1 H2. unfold str_le in *. rewrite str_compare_antisym in H2.
  apply str_compare_eq. destruct (str_compare a b); simpl in *; done.
Qed.

#[export] Instance str_le_trans : Transitive str_le.
Proof.
  intros a b c H1 H2. unfold str_le in *.
  destruct (str_compare a b) eqn:Eab; [apply str_compare_eq in Eab as ->; done| |done].
  destruct (str_compare b c) eqn:Ebc; [apply str_compare_eq in Ebc as ->; by rewrite Eab| |done].
  by rewrite (str_compare_lt_trans a b c).
Qed.

Lemma py_sorted_Permutation xs : py_sorted xs ≡ₚ xs.
Proof. apply merge_sort_Permutation. Qed.

Lemma py_sorted_StronglySorted xs : StronglySorted str_le (py_sorted xs).
Proof. apply StronglySorted_merge_sort; apply _. Qed.

(** [sorted] depends only on the multiset of its inputs. *)
Lemma py_sorted_unique xs ys : xs ≡ₚ ys → py_sorted xs = py_sorted ys.
Proof.
  intros H.
  apply (StronglySorted_unique str_le _ _
           (py_sorted_StronglySorted xs) (py_sorted_StronglySorted ys)).
  by rewrite !py_sorted_Permutation.
Qed.

(** A sorted list is its own sort. *)
Lemma py_sorted_sorted xs : StronglySorted str_le xs → py_sorted xs = xs.
Proof.
  intros Hs. apply (StronglySorted_unique str_le); [apply py_sorted_StronglySorted|done|].
  apply py_sorted_Permutation.
Qed.

Lemma elem_of_py_sorted x xs : x ∈ py_sorted xs ↔ x ∈ xs.
Proof. by rewrite py_sorted_Permutation. Qed.

#[export] Hint Rewrite elem_of_py_sorted : py.
#[export] Hint Resolve py_sorted_StronglySorted py_sorted_Permutation : py.

Lemma length_bind_const {A B} (n : nat) (f : A → list B) (l : list A) :
  (∀ x, length (f x) = n) → length (l ≫= f) = (n * length l)%nat.
Proof.
  intros Hf. induction l as [|x l IH]; [simpl; lia|].
  rewrite bind_cons, length_app, Hf, IH. simpl. lia.
Qed.

(** ** [mapM] in [pyresult]: a list comprehension that may raise *)

Section MapM.
Context {A B : Type} (f : A → pyresult B).

Lemma mapM_Ok l ys : mapM f l = Ok ys → Forall2 (λ x y, f x = Ok y) l ys.
Proof.
  revert ys; induction l as [|x l IH]; intros ys; simpl; [by intros [= <-]|].
  destruct (f x) eqn:Hx; py_simpl; [|done].
  destruct (mapM f l) eqn:Hl; py_simpl; [|done]. intros [= <-]. constructor; auto.
Qed.

Lemma mapM_Ok_intro l : (∀ x, x ∈ l → ∃ y, f x = Ok y) → ∃ ys, mapM f l = Ok ys.
Proof.
  induction l as [|x l IH]; intros Hl; simpl; [by eexists|].
  destruct (Hl x) as [y ->]; [by left|]. destruct IH as [ys ->]; [set_solver|].
  by eexists.
Qed.

(** When [f] raises only [e], a comprehension with a raising item
    raises [e]. *)
Lemma mapM_Raise l e :
  (∀ x e', f x = Raise e' → e' = e) → (∃ x, x ∈ l ∧ ∃ e', f x = Raise e') →
  mapM f l = Raise e.
Proof.
  intros Hf. induction l as [|x l IH]; intros (x' & Hin & e' & Hx'); [set_solver|].
  simpl. destruct (f x) as [y|e''] eqn:Hx; py_simpl; [|by rewrite (Hf x e'')].
  apply elem_of_cons in Hin as [->|Hin]; [congruence|].
  rewrite IH; [done|]. eauto.
Qed.
End MapM.

(** ** [str.join] with a one-character separator *)

Lemma py_join_cons2 c x y l : py_join [c] (x :: y :: l) = x ++ c :: py_join [c] (y :: l).
Proof. unfold py_join. by rewrite bind_cons. Qed.

Lemma py_join_single sep x : py_join sep [x] = x.
Proof. unfold py_join. simpl. by rewrite app_nil_r. Qed.

Lemma Forall_py_join (P : N → Prop) sep parts :
  Forall P sep → Forall (Forall P) parts → Forall P (py_join sep parts).
Proof.
  intros Hs Hp. destruct Hp as [|p ps Hp Hps]; [constructor|]. unfold py_join.
  apply Forall_app; split; [done|]. induction Hps as [|q qs Hq _ IH]; [constructor|].
  rewrite bind_cons. apply Forall_app; split; [apply Forall_app|]; done.
Qed.

Lemma forallb_elem {A} (f : A → bool) (l : list A) x : forallb f l = true → x ∈ l → f x = true.
Proof. rewrite forallb_forall. intros Hl Hx. apply Hl, list_elem_of_In, Hx. Qed.

Lemma Forall_elem {A} (P : A → Prop) (l : list A) x : Forall P l → x ∈ l → P x.
Proof. rewrite Forall_forall. auto. Qed.

(** ** [str.strip] *)

Lemma py_lstrip_suffix s : ∃ p, s = p ++ py_lstrip s.
Proof.
  induction s as [|c s IH]; simpl; [by exists []|].
  destruct (py_isspace c); [|by exists []]. destruct IH as [p Hp].
  exists (c :: p). simpl. by rewrite <-Hp.
Qed.

Lemma py_lstrip_head s c t : py_lstrip s = c :: t → py_isspace c = false.
Proof.
  induction s as [|d s IH]; simpl; [done|].
  destruct (py_isspace d) eqn:Hd; [done|]. by intros [= <- _].
Qed.

Lemma py_lstrip_noop s :
  (∀ c t, s = c :: t → py_isspace c = false) → py_lstrip s = s.
Proof. destruct s as [|c s]; simpl; [done|]. intros H. by rewrite (H c s). Qed.

Lemma py_lstrip_idem s : py_lstrip (py_lstrip s) = py_lstrip s.
Proof. apply py_lstrip_noop. intros c t Hs. by apply (py_lstrip_head s c t). Qed.

Lemma py_rstrip_prefix u : ∃ k, u = py_rstrip u ++ k.
Proof.
  destruct (py_lstrip_suffix (rev u)) as [p Hp]. exists (rev p).
  unfold py_rstrip. rewrite <-rev_app_distr, <-Hp. by rewrite rev_involutive.
Qed.

Lemma py_rstrip_idem u : py_rstrip (py_rstrip u) = py_rstrip u.
Proof. unfold py_rstrip. by rewrite rev_involutive, py_lstrip_idem. Qed.

Lemma py_rstrip_noop_head u :
  (∀ c t, u = c :: t → py_isspace c = false) →
  ∀ c t, py_rstrip u = c :: t → py_isspace c = false.
Proof.
  intros Hu c t Hr. destruct (py_rstrip_prefix u) as [k Hk].
  rewrite Hr in Hk. by apply (Hu c (t ++ k)).
Qed.

(** [s.strip().strip() == s.strip()]: a stripped string has no white space
    at either end. *)
Lemma py_strip_idem s : py_strip (py_strip s) = py_strip s.
Proof.
  unfold py_strip. rewrite (py_lstrip_noop (py_rstrip (py_lstrip s))).
  - apply py_rstrip_idem.
  - apply py_rstrip_noop_head. intros c t. apply py_lstrip_head.
Qed.

(** A character that is not white space survives [strip]. *)
Lemma py_lstrip_keep s c : c ∈ s → py_isspace c = false → c ∈ py_lstrip s.
Proof.
  induction s as [|d s IH]; simpl; [set_solver|]. intros Hc Hs.
  destruct (py_isspace d) eqn:Hd; [|done].
  apply IH; [|done]. apply elem_of_cons in Hc as [->|]; [congruence|done].
Qed.

Lemma py_strip_keep s c : c ∈ s → py_isspace c = false → c ∈ py_strip s.
Proof.
  intros Hc Hs. unfold py_strip, py_rstrip.
  rewrite list_elem_of_In, <-in_rev, <-list_elem_of_In. apply py_lstrip_keep; [|done].
  rewrite list_elem_of_In, <-in_rev, <-list_elem_of_In. by apply py_lstrip_keep.
Qed.

(** ** Nested induction and [flat_map] *)

Lemma list_all_elem {A} (P : A → Prop) (l : list A) x : list_all A P l → x ∈ l → P x.
Proof. induction 1; [set_solver|]. rewrite elem_of_cons. naive_solver. Qed.

Lemma elem_of_flat_map {A B} (f : A → list B) (l : list A) y :
  y ∈ flat_map f l ↔ ∃ x, x ∈ l ∧ y ∈ f x.
Proof.
  induction l as [|x l IH]; simpl; [set_solver|].
  rewrite elem_of_app, IH. setoid_rewrite elem_of_cons. naive_solver.
Qed.

Lemma flat_map_perm {A B} (f g : A → list B) (l : list A) :
  (∀ x, x ∈ l → f x ≡ₚ g x) → flat_map f l ≡ₚ flat_map g l.
Proof.
  induction l as [|x l IH]; intros Hfg; simpl; [done|].
  rewrite (Hfg x) by set_solver. rewrite IH by set_solver. done.
Qed.

Lemma flat_map_app_split {A B} (f g : A → list B) (l : list A) :
  flat_map (λ x, f x ++ g x) l ≡ₚ flat_map f l ++ flat_map g l.
Proof.
  induction l as [|x l IH]; simpl; [done|]. rewrite IH.
  rewrite <-!app_assoc. apply Permutation_app_head.
  rewrite !app_assoc. apply Permutation_app_tail, Permutation_app_comm.
Qed.

Lemma flat_map_perm_arg {A B} (f : A → list B) (l1 l2 : list A) :
  l1 ≡ₚ l2 → flat_map f l1 ≡ₚ flat_map f l2.
Proof.
  induction 1 as [|x l1 l2 _ IH|x y l|l1 l2 l3 _ IH1 _ IH2]; simpl.
  - done.
  - by rewrite IH.
  - rewrite !app_assoc. apply Permutation_app_tail, Permutation_app_comm.
  - by rewrite IH1.
Qed.

(** ** [str.replace] of one character by one character *)

Lemma py_replace_go_char c d s :
  py_replace_go [c] [d] O s = map (λ x, if x =? c then d else x) s.
Proof.
  induction s as [|x s IH]; simpl; [done|]. rewrite IH.
  destruct (N.eqb_spec c x) as [->|Hne]; simpl.
  - by rewrite N.eqb_refl.
  - by rewrite (proj2 (N.eqb_neq x c)) by congruence.
Qed.

Lemma py_replace_char c d s :
  py_replace [c] [d] s = map (λ x, if x =? c then d else x) s.
Proof. apply py_replace_go_char. Qed.

Lemma map_py_join (f : N → N) sep parts :
  map f (py_join sep parts) = py_join (map f sep) (map (map f) parts).
Proof.
  destruct parts as [|p ps]; [done|]. unfold py_join. simpl. rewrite map_app. f_equal.
  induction ps as [|q ps IH]; [done|]. by rewrite !bind_cons, !map_app, IH.
Qed.

Lemma flat_map_Forall2 {A B C} (R : A → B → Prop) (f : A → list C) (g : B → list C) l1 l2 :
  Forall2 R l1 l2 → (∀ x y, x ∈ l1 → R x y → f x ≡ₚ g y) → flat_map f l1 ≡ₚ flat_map g l2.
Proof.
  induction 1 as [|x y l1 l2 Hxy _ IH]; intros Hfg; simpl; [done|].
  rewrite (Hfg x y) by set_solver. rewrite IH by set_solver. done.
Qed.

(** ** [merge_sort] commutes with a map that preserves the order *)

Section MergeSortMap.
Context {A B : Type} (R : relation A) (R' : relation B).
Context `{!RelDecision R} `{!RelDecision R'} (f : A → B).
Context (Hf : ∀ x y, R x y ↔ R' (f x) (f y)).

Lemma list_merge_map l1 l2 :
  list_merge R' (map f l1) (map f l2) = map f (list_merge R l1 l2).
Proof.
  revert l2; induction l1 as [|x1 l1 IH1]; intros l2.
  - cbn [map]. by rewrite !list_merge_nil_l.
  - induction l2 as [|x2 l2 IH2]; [cbn [map]; by rewrite !list_merge_nil_r|].
    cbn [map]. rewrite !list_merge_cons.
    destruct (decide (R x1 x2)) as [H|H].
    + rewrite decide_True by (by apply Hf). simpl. by rewrite <-IH1.
    + rewrite decide_False by (by rewrite <-Hf). simpl. by rewrite <-IH2.
Qed.

Lemma merge_list_to_stack_map st l :
  merge_list_to_stack R' (map (fmap (map f)) st) (map f l) =
    map (fmap (map f)) (merge_list_to_stack R st l).
Proof.
  revert l; induction st as [|[l'|] st IH]; intros l; simpl; [done| |done].
  by rewrite list_merge_map, IH.
Qed.

Lemma merge_stack_map st : merge_stack R' (map (fmap (map f)) st) = map f (merge_stack R st).
Proof.
  induction st as [|[l'|] st IH]; simpl; [done| |done]. by rewrite IH, list_merge_map.
Qed.

Lemma merge_sort_map l : merge_sort R' (map f l) = map f (merge_sort R l).
Proof.
  unfold merge_sort. change [] with (map (fmap (map f)) (@nil (option (list A)))) at 1.
  generalize (@nil (option (list A))) as st.
  induction l as [|x l IH]; intros st; simpl; [apply merge_stack_map|].
  rewrite <-IH. f_equal. apply (merge_list_to_stack_map st [x]).
Qed.
End MergeSortMap.
