(* ===== verification/Utf8.v ===== *)
(** * UTF-8: [str.encode('utf-8')]

    Both scripts turn strings into bytes: [calculer_hash] hashes
    [composants.encode('utf-8')], and the generated files are written with
    [encoding='utf-8'].  This file holds the encoder, a strict decoder, the
    round trip between them and the byte length of an encoding, and the
    newline translation a text-mode write applies before encoding.  Bytes are
    [N] values below 256, code points [N] values below 0x110000. *)

From S2P Require Import Prelude.

(** A Python [str] holds code points below 0x110000; one decoded from
    UTF-8 (as [Events.csv] is) holds no surrogate either. *)
Definition valid_char (c : N) : bool :=
  (c <? 0x110000) && negb ((0xD800 <=? c) && (c <=? 0xDFFF)).

(** The [k]-th continuation byte from the right: [10xxxxxx]. *)
Definition cont (c : N) (k : N) : N := 128 + (c / 64 ^ k) mod 64.

(** CPython's encoder: one to four bytes by range. *)
Definition utf8_encode_char (c : N) : list N :=
  if c <? 0x80 then [c]
  else if c <? 0x800 then [192 + c / 64; cont c 0]
  else if c <? 0x10000 then [224 + c / 4096; cont c 1; cont c 0]
  else [240 + c / 262144; cont c 2; cont c 1; cont c 0].

(** [s.encode('utf-8')]: CPython raises on a lone surrogate. *)
Definition utf8_encode (s : list N) : pyresult (list N) :=
  if forallb valid_char s then Ok (s ≫= utf8_encode_char) else Raise UnicodeEncodeError.

Definition is_cont (b : N) : bool := (128 <=? b) && (b <? 192).

(** The strict decoder of [bytes.decode('utf-8')]: continuation bytes are
    checked, and overlong forms, surrogates and values above 0x10FFFF are
    refused. *)
Fixpoint utf8_decode (bs : list N) : option (list N) :=
  match bs with
  | [] => Some []
  | b0 :: r0 =>
      if b0 <? 128 then cons b0 <$> utf8_decode r0
      else if (192 <=? b0) && (b0 <? 224) then
        match r0 with
        | b1 :: r1 =>
            let c := (b0 - 192) * 64 + (b1 - 128) in
            if is_cont b1 && (128 <=? c) then cons c <$> utf8_decode r1 else None
        | [] => None
        end
      else if (224 <=? b0) && (b0 <? 240) then
        match r0 with
        | b1 :: b2 :: r2 =>
            let c := (b0 - 224) * 4096 + (b1 - 128) * 64 + (b2 - 128) in
            if is_cont b1 && is_cont b2 && (2048 <=? c) && valid_char c
            then cons c <$> utf8_decode r2 else None
        | _ => None
        end
      else if (240 <=? b0) && (b0 <? 248) then
        match r0 with
        | b1 :: b2 :: b3 :: r3 =>
            let c := (b0 - 240) * 262144 + (b1 - 128) * 4096 + (b2 - 128) * 64 + (b3 - 128) in
            if is_cont b1 && is_cont b2 && is_cont b3 && (65536 <=? c) && valid_char c
            then cons c <$> utf8_decode r3 else None
        | _ => None
        end
      else None
  end.

(** Number of bytes of the encoding of one code point. *)
Definition utf8_width (c : N) : nat :=
  if c <? 0x80 then 1 else if c <? 0x800 then 2 else if c <? 0x10000 then 3 else 4.

(** ** Round trip *)

Lemma utf8_decode_encode_char c rest :
  valid_char c = true →
  utf8_decode (utf8_encode_char c ++ rest) = cons c <$> utf8_decode rest.
Proof.
  unfold valid_char. intros Hv. apply andb_prop in Hv as [Hlt Hs].
  apply N.ltb_lt in Hlt. rewrite negb_true_iff, andb_false_iff in Hs.
  unfold utf8_encode_char, cont. rewrite !N.pow_0_r, !N.pow_1_r.
  destruct (N.ltb_spec c 128); [simpl; by N_cond_simpl|].
  destruct (N.ltb_spec c 2048); [|destruct (N.ltb_spec c 65536)];
    destruct Hs as [Hs|Hs]; apply N.leb_gt in Hs; cbn [app utf8_decode];
    unfold is_cont, valid_char; N_cond_simpl; repeat f_equal; div_lia.
Qed.

(** Decoding undoes [str.encode('utf-8')]. *)
Lemma utf8_decode_encode s bs :
  utf8_encode s = Ok bs → utf8_decode bs = Some s.
Proof.
  unfold utf8_encode. destruct (forallb valid_char s) eqn:Hv; [|done].
  intros [= <-]. induction s as [|c s IH]; [done|].
  simpl in Hv. apply andb_prop in Hv as [Hc Hs].
  rewrite bind_cons, utf8_decode_encode_char by done. by rewrite IH.
Qed.

(** Hence the encoding is injective: distinct strings never give the same
    bytes to the hash function. *)
Lemma utf8_encode_inj s1 s2 bs :
  utf8_encode s1 = Ok bs → utf8_encode s2 = Ok bs → s1 = s2.
Proof.
  intros H1 H2. apply utf8_decode_encode in H1, H2. congruence.
Qed.

Lemma length_utf8_encode_char c : length (utf8_encode_char c) = utf8_width c.
Proof. unfold utf8_encode_char, utf8_width. by repeat case_match. Qed.

(** The byte length of an encoding is the sum of the widths of its code
    points. *)
Lemma length_utf8_encode s bs :
  utf8_encode s = Ok bs → length bs = sum_list_with utf8_width s.
Proof.
  unfold utf8_encode. destruct (forallb valid_char s); [|done]. intros [= <-].
  induction s as [|c s IH]; [done|].
  rewrite bind_cons, length_app, length_utf8_encode_char. simpl. by rewrite IH.
Qed.

Lemma utf8_width_ge1 c : (1 ≤ utf8_width c)%nat.
Proof. unfold utf8_width. repeat case_match; lia. Qed.

Lemma utf8_width_ascii c : utf8_width c = 1%nat ↔ c < 128.
Proof.
  unfold utf8_width. repeat case_match; rewrite ?N.ltb_lt, ?N.ltb_ge in *; split; lia.
Qed.

Lemma utf8_encode_valid s : forallb valid_char s = true → utf8_encode s = Ok (s ≫= utf8_encode_char).
Proof. unfold utf8_encode. by intros ->. Qed.

Lemma decode_valid s : forallb valid_char s = true → utf8_decode (s ≫= utf8_encode_char) = Some s.
Proof. intros Hs. apply utf8_decode_encode, utf8_encode_valid, Hs. Qed.

Lemma valid_py_join sep parts :
  forallb valid_char sep = true → Forall (λ p, forallb valid_char p = true) parts →
  forallb valid_char (py_join sep parts) = true.
Proof.
  intros Hs Hp. destruct parts as [|p ps]; [done|]. unfold py_join.
  apply Forall_cons in Hp as [Hp Hps]. rewrite forallb_app, Hp. simpl.
  induction Hps as [|q ps Hq _ IH]; [done|].
  by rewrite bind_cons, !forallb_app, Hs, Hq, IH.
Qed.

(** The encoding has at least one byte per code point, and exactly one
    per code point when all of them are ASCII, and only then. *)
Lemma length_utf8_encode_ge s bs :
  utf8_encode s = Ok bs →
  (length s ≤ length bs)%nat ∧ (length s = length bs ↔ Forall (λ c, c < 128) s).
Proof.
  intros Hs. rewrite (length_utf8_encode s bs Hs). clear Hs.
  induction s as [|c s [IH1 IH2]]; simpl; [split; [lia|split; [constructor|done]]|].
  pose proof (utf8_width_ge1 c). rewrite Forall_cons, <-IH2, <-utf8_width_ascii. lia.
Qed.

(** ** Text-mode writes

    A file opened with [open(path, 'w', encoding='utf-8')] has
    [newline=None], so [TextIOWrapper.write(s)] writes
    [s.replace('\n', os.linesep)] before encoding it: the text is kept on
    POSIX ([nl] is a line feed) and each line feed becomes a carriage
    return and a line feed on Windows. *)
Definition traduire_nl (nl : list N) (s : list N) : list N :=
  s ≫= λ c, if c =? 10 then nl else [c].

(** [os.linesep]: a line feed on POSIX, a carriage return and a line
    feed on Windows. *)
Definition os_linesep (p : platform) : list N := match p with Posix => [10] | Windows => [13; 10] end.

Lemma traduire_nl_app nl s t : traduire_nl nl (s ++ t) = traduire_nl nl s ++ traduire_nl nl t.
Proof. apply bind_app. Qed.

Lemma traduire_nl_cons nl c s :
  traduire_nl nl (c :: s) = (if c =? 10 then nl else [c]) ++ traduire_nl nl s.
Proof. apply bind_cons. Qed.

(** Text without a line feed is written as it is. *)
Lemma traduire_nl_no_lf nl s : Forall (λ c, c ≠ 10) s → traduire_nl nl s = s.
Proof.
  induction 1 as [|c s Hc _ IH]; [done|]. rewrite traduire_nl_cons, IH.
  by rewrite (proj2 (N.eqb_neq c 10)).
Qed.

Lemma traduire_nl_lf s : traduire_nl [10] s = s.
Proof.
  induction s as [|c s IH]; [done|]. rewrite traduire_nl_cons, IH.
  by destruct (N.eqb_spec c 10) as [->|].
Qed.

Lemma valid_traduire_nl nl s :
  forallb valid_char nl = true → forallb valid_char (traduire_nl nl s) = forallb valid_char s.
Proof.
  intros Hnl. induction s as [|c s IH]; [done|]. rewrite traduire_nl_cons, forallb_app, IH.
  destruct (N.eqb_spec c 10) as [->|]; [by rewrite Hnl|]. simpl. by rewrite andb_true_r.
Qed.

(** Each line feed is written as the [length nl] code points of [nl]. *)
Lemma length_traduire_nl nl s :
  let k := length (filter (λ c : N, c = 10%N) s) in
  (length (traduire_nl nl s) + k = length s + k * length nl)%nat.
Proof.
  induction s as [|c s IH]; [done|]. cbn zeta in *. rewrite traduire_nl_cons, length_app, filter_cons.
  destruct (N.eqb_spec c 10) as [->|Hc]; rewrite ?decide_True, ?decide_False by done; simpl; lia.
Qed.

Lemma traduire_nl_concat nl ss : concat (map (traduire_nl nl) ss) = traduire_nl nl (concat ss).
Proof. induction ss as [|s ss IH]; [done|]. simpl. by rewrite traduire_nl_app, IH. Qed.

Lemma valid_traduire_linesep p s :
  forallb valid_char (traduire_nl (os_linesep p) s) = forallb valid_char s.
Proof. apply valid_traduire_nl. by destruct p. Qed.
