(* ===== verification/CsvRead.v ===== *)
(** * Reading [Events.csv] into records: [open(..., encoding='utf-8-sig')] and [csv.reader]

    [lire_csv] (src/generer-data-js.py, lines 49-52) opens [Events.csv]
    in text mode with [encoding='utf-8-sig'] and no [newline] argument,
    and iterates a [csv.DictReader] over it, which iterates a
    [csv.reader] (dialect [excel]) over the lines of the file.  This file
    models that library code from its behaviour:

    - the decoder [utf-8-sig]: one leading byte-order mark is skipped,
      the rest is decoded strictly ([UnicodeDecodeError] otherwise);
    - universal newlines: ["\r\n"] and a lone ["\r"] become ["\n"]
      before any line is returned, and the lines end after each ["\n"];
    - the state machine of [_csv.c] ([parse_process_char]) with its
      states, the record it builds ([fields], the current [field] and
      [field_len]) and the limit on the size of a field
      ([field_size_limit()], 131072 characters), run line by line with an
      end-of-line event after each line ([Reader_iternext]).

    With the [excel] dialect the delimiter is the comma (44), the quote
    character the double quote (34) with [doublequote], there is no
    escape character and [strict] is off; the states that only an escape character reaches
    ([ESCAPED_CHAR], [ESCAPE_IN_QUOTED_FIELD], [AFTER_ESCAPED_CRNL]) are
    left out.  The reader yields records lazily: [csv_lines] returns the
    records read before the first error and that error, so that the rows
    before it are processed first, as in the script's loop. *)

From S2P Require Import Prelude Utf8.

(** ** The file as text *)

Definition bom : list N := [239; 187; 191].

(** [bytes.decode('utf-8-sig')]. *)
Definition decode_utf8_sig (bs : list N) : pyresult (list N) :=
  match utf8_decode (if prefixb bom bs then drop 3 bs else bs) with
  | Some s => Ok s
  | None => Raise UnicodeDecodeError
  end.

(** Universal newlines ([newline=None]): ["\r\n"] and ["\r"] are read as
    ["\n"]. *)
Fixpoint translate_newlines (s : list N) : list N :=
  match s with
  | [] => []
  | c :: s' =>
      if c =? 13 then
        match s' with
        | d :: s'' => if d =? 10 then 10 :: translate_newlines s'' else 10 :: translate_newlines s'
        | [] => [10]
        end
      else c :: translate_newlines s'
  end.

(** The lines [for line in f] yields: each ends after its ["\n"], the last
    one may have none. *)
Fixpoint split_lines_go (acc : list N) (s : list N) : list (list N) :=
  match s with
  | [] => match acc with [] => [] | _ => [rev acc] end
  | c :: s' => if c =? 10 then rev (c :: acc) :: split_lines_go [] s' else split_lines_go (c :: acc) s'
  end.

Definition split_lines (s : list N) : list (list N) := split_lines_go [] s.

(** ** The reader of [_csv.c] *)

Inductive parser_state :=
  | START_RECORD
  | START_FIELD
  | IN_FIELD
  | IN_QUOTED_FIELD
  | QUOTE_IN_QUOTED_FIELD
  | EAT_CRNL.

#[export] Instance parser_state_eq_dec : EqDecision parser_state.
Proof. solve_decision. Defined.

(** [ReaderObj]: the state, the fields of the record so far, the current
    field (kept reversed, as a buffer) and its length. *)
Record reader := {
  state : parser_state;
  fields : list (list N);
  field : list N;
  field_len : N
}.

(** [_csv.field_size_limit()], 128 KiB by default. *)
Definition field_limit : N := 131072.

(** [parse_reset]. *)
Definition reader_reset : reader := {| state := START_RECORD; fields := []; field := []; field_len := 0 |}.

Definition set_state (r : reader) (s : parser_state) : reader :=
  {| state := s; fields := fields r; field := field r; field_len := field_len r |}.

(** [parse_add_char]: a field may not grow beyond the limit. *)
Definition add_char (r : reader) (c : N) : pyresult reader :=
  if field_limit <=? field_len r then Raise CsvError
  else Ok {| state := state r; fields := fields r; field := c :: field r; field_len := field_len r + 1 |}.

(** [parse_save_field]. *)
Definition save_field (r : reader) : reader :=
  {| state := state r; fields := fields r ++ [rev (field r)]; field := []; field_len := 0 |}.

Definition is_nl (c : N) : bool := (c =? 10) || (c =? 13).

(** The end of a record: [EOL] goes back to [START_RECORD], a newline
    character to [EAT_CRNL]. *)
Definition end_record (r : reader) (c : option N) : reader :=
  set_state (save_field r) (if c is None then START_RECORD else EAT_CRNL).

(** The case [START_FIELD] of [parse_process_char]; [None] is [EOL]. *)
Definition start_field (r : reader) (c : option N) : pyresult reader :=
  match c with
  | None => Ok (end_record r None)
  | Some c' =>
      if is_nl c' then Ok (end_record r c)
      else if c' =? 34 then Ok (set_state r IN_QUOTED_FIELD)
      else if c' =? 44 then Ok (set_state (save_field r) START_FIELD)
      else r' ← add_char r c'; Ok (set_state r' IN_FIELD)
  end.

(** [parse_process_char]. *)
Definition process_char (r : reader) (c : option N) : pyresult reader :=
  match state r with
  | START_RECORD =>
      match c with
      | None => Ok r
      | Some c' => if is_nl c' then Ok (set_state r EAT_CRNL) else start_field (set_state r START_FIELD) c
      end
  | START_FIELD => start_field r c
  | IN_FIELD =>
      match c with
      | None => Ok (end_record r None)
      | Some c' =>
          if is_nl c' then Ok (end_record r c)
          else if c' =? 44 then Ok (set_state (save_field r) START_FIELD)
          else add_char r c'
      end
  | IN_QUOTED_FIELD =>
      match c with
      | None => Ok r
      | Some c' => if c' =? 34 then Ok (set_state r QUOTE_IN_QUOTED_FIELD) else add_char r c'
      end
  | QUOTE_IN_QUOTED_FIELD =>
      match c with
      | None => Ok (end_record r None)
      | Some c' =>
          if c' =? 34 then r' ← add_char r c'; Ok (set_state r' IN_QUOTED_FIELD)
          else if c' =? 44 then Ok (set_state (save_field r) START_FIELD)
          else if is_nl c' then Ok (end_record r c)
          else r' ← add_char r c'; Ok (set_state r' IN_FIELD)
      end
  | EAT_CRNL =>
      match c with
      | None => Ok (set_state r START_RECORD)
      | Some c' => if is_nl c' then Ok r else Raise CsvError
      end
  end.

(** The characters of one line, then [EOL]. *)
Fixpoint process_line (r : reader) (l : list N) : pyresult reader :=
  match l with
  | [] => process_char r None
  | c :: l' => r' ← process_char r (Some c); process_line r' l'
  end.

(** [list(reader)], lazily: the records read before the first error, and
    that error.  A record ends at a line after which the state is
    [START_RECORD]; at the end of the file a pending field (or an open
    quoted field) is saved and ends the last record. *)
Definition csv_eof (r : reader) : list (list (list N)) * option pyexc :=
  if bool_decide (field_len r ≠ 0) || bool_decide (state r = IN_QUOTED_FIELD)
  then ([fields (save_field r)], None) else ([], None).

Fixpoint csv_lines (r : reader) (ls : list (list N)) : list (list (list N)) * option pyexc :=
  match ls with
  | [] => csv_eof r
  | l :: ls' =>
      match process_line r l with
      | Raise e => ([], Some e)
      | Ok r' =>
          if bool_decide (state r' = START_RECORD) then
            let '(recs, e) := csv_lines reader_reset ls' in (fields r' :: recs, e)
          else csv_lines r' ls'
      end
  end.

(** The records of [Events.csv], from its bytes: the decoder raises
    before any record is read. *)
Definition lire_records (bs : list N) : list (list (list N)) * option pyexc :=
  match decode_utf8_sig bs with
  | Raise e => ([], Some e)
  | Ok t => csv_lines reader_reset (split_lines (translate_newlines t))
  end.

(** ** The reader character by character

    [csv_lines] works on lines; [csv_text] is the same machine on the text
    itself, with the end-of-line event after each line feed and at the
    end of a last line without one ([pending]). *)

Fixpoint pchars (r : reader) (l : list N) : pyresult reader :=
  match l with
  | [] => Ok r
  | c :: l' => r' ← process_char r (Some c); pchars r' l'
  end.

(** After an end-of-line event: a record is complete when the state is
    back to [START_RECORD]. *)
Definition after_eol (r : reader) (k : reader → list (list (list N)) * option pyexc)
  : list (list (list N)) * option pyexc :=
  if bool_decide (state r = START_RECORD) then let '(recs, e) := k reader_reset in (fields r :: recs, e)
  else k r.

Fixpoint csv_text (r : reader) (pending : bool) (s : list N) : list (list (list N)) * option pyexc :=
  match s with
  | [] =>
      if pending then
        match process_char r None with
        | Raise e => ([], Some e)
        | Ok r' => after_eol r' csv_eof
        end
      else csv_eof r
  | c :: s' =>
      match process_char r (Some c) with
      | Raise e => ([], Some e)
      | Ok r' =>
          if c =? 10 then
            match process_char r' None with
            | Raise e => ([], Some e)
            | Ok r'' => after_eol r'' (λ r0, csv_text r0 false s')
            end
          else csv_text r' true s'
      end
  end.

Lemma csv_eof_reset : csv_eof reader_reset = ([], None).
Proof. reflexivity. Qed.

Lemma process_line_pchars r l : process_line r l = r' ← pchars r l; process_char r' None.
Proof. revert r. induction l as [|c l IH]; intros r; simpl; [done|]. destruct (process_char r (Some c)); simpl; [apply IH|done]. Qed.

Lemma pchars_app r l1 l2 : pchars r (l1 ++ l2) = r' ← pchars r l1; pchars r' l2.
Proof. revert r. induction l1 as [|c l1 IH]; intros r; simpl; [done|]. destruct (process_char r (Some c)); simpl; [apply IH|done]. Qed.

(** The line-based reader is the character-based one. *)
Lemma csv_lines_text s : ∀ acc r,
  csv_lines r (split_lines_go acc s) =
    match pchars r (rev acc) with
    | Ok r' => csv_text r' (bool_decide (acc ≠ [])) s
    | Raise e => ([], Some e)
    end.
Proof.
  induction s as [|c s IH]; intros acc r.
  - destruct acc as [|a acc]; simpl; [done|]. rewrite process_line_pchars.
    destruct (pchars r (rev acc ++ [a])) as [r1|e]; simpl; [|done].
    destruct (process_char r1 None) as [r2|e]; simpl; [|done]. unfold after_eol.
    case_bool_decide; reflexivity.
  - cbn [split_lines_go]. destruct (c =? 10) eqn:Hc.
    + apply N.eqb_eq in Hc as ->. cbn [csv_lines rev]. rewrite process_line_pchars, pchars_app.
      destruct (pchars r (rev acc)) as [r'|e]; simpl; [|done].
      destruct (process_char r' (Some 10)) as [r1|e]; simpl; [|done].
      destruct (process_char r1 None) as [r2|e]; [|done]. unfold after_eol.
      case_bool_decide; rewrite IH; simpl; done.
    + rewrite IH. cbn [rev]. rewrite pchars_app.
      destruct (pchars r (rev acc)) as [r'|e]; simpl; [|done].
      destruct (process_char r' (Some c)) as [r1|e]; simpl; [|done]. rewrite Hc. done.
Qed.

Lemma lire_records_text bs :
  lire_records bs =
    match decode_utf8_sig bs with
    | Raise e => ([], Some e)
    | Ok t => csv_text reader_reset false (translate_newlines t)
    end.
Proof. unfold lire_records. destruct (decode_utf8_sig bs); [|done]. apply (csv_lines_text _ [] reader_reset). Qed.

(** ** Reading back a spreadsheet export

    The export the script expects: every field quoted, a quote doubled,
    fields separated by commas and records ended by ["\r\n"]. *)

Definition quote_char (c : N) : list N := if c =? 34 then [34; 34] else [c].
Definition quote_field (f : list N) : list N := 34 :: (f ≫= quote_char) ++ [34].
Definition export_record (rec : list (list N)) : list N := py_join [44] (map quote_field rec) ++ [13; 10].
Definition csv_export (records : list (list (list N))) : list N := records ≫= export_record.

(** What the reader needs of a field: at most [field_limit] characters. *)
Definition field_ok (f : list N) : Prop := (N.of_nat (length f) ≤ field_limit)%N.

(** ** Universal newlines on the export *)

Lemma translate_newlines_app_id t s : 13 ∉ t → translate_newlines (t ++ s) = t ++ translate_newlines s.
Proof.
  induction t as [|c t IH]; intros Ht; [done|]. rewrite not_elem_of_cons in Ht. destruct Ht as [Hc Ht].
  simpl. rewrite (proj2 (N.eqb_neq c 13)) by done. by rewrite IH.
Qed.

Lemma translate_newlines_no_cr t : 13 ∉ translate_newlines t.
Proof.
  induction t as [t IH] using (induction_ltof1 _ (@length N)); unfold ltof in IH.
  destruct t as [|c t]; [set_solver|]. simpl. destruct (c =? 13) eqn:Hc.
  - destruct t as [|d t]; [set_solver|]. destruct (d =? 10); rewrite not_elem_of_cons; split; try done;
      apply IH; simpl; lia.
  - rewrite not_elem_of_cons. split; [apply N.eqb_neq in Hc; congruence|]. apply IH. simpl. lia.
Qed.

Lemma quote_char_no_cr c : c ≠ 13 → 13 ∉ quote_char c.
Proof. intros Hc. unfold quote_char. destruct (c =? 34); set_solver. Qed.

Lemma translate_cr_lf t : translate_newlines (13 :: 10 :: t) = 10 :: translate_newlines t.
Proof. done. Qed.

Lemma translate_cr t : hd_error t ≠ Some 10 → translate_newlines (13 :: t) = 10 :: translate_newlines t.
Proof. destruct t as [|d t]; [done|]. simpl. intros Hd. by rewrite (proj2 (N.eqb_neq d 10)) by congruence. Qed.

Lemma translate_other c t : c ≠ 13 → translate_newlines (c :: t) = c :: translate_newlines t.
Proof. intros Hc. simpl. by rewrite (proj2 (N.eqb_neq c 13)). Qed.

Lemma hd_quote_body d f s : hd_error (((d :: f) ≫= quote_char) ++ s) = Some d.
Proof. rewrite bind_cons. unfold quote_char. by destruct (d =? 34) eqn:Hd; [apply N.eqb_eq in Hd as ->|]. Qed.

(** The translation goes through the body of a quoted field: a carriage
    return of the field is read as a line feed, and ["\r\n"] as one. *)
Lemma translate_quote_body f s :
  translate_newlines ((f ≫= quote_char) ++ 34 :: s) =
    (translate_newlines f ≫= quote_char) ++ 34 :: translate_newlines s.
Proof.
  induction f as [f IH] using (induction_ltof1 _ (@length N)); unfold ltof in IH.
  destruct f as [|c f]; [done|]. rewrite bind_cons, <-app_assoc.
  destruct (decide (c = 13)) as [->|Hc].
  - change (quote_char 13) with [13]. cbn [app].
    destruct f as [|d f]; [done|]. destruct (decide (d = 10)) as [->|Hd].
    + rewrite bind_cons, <-app_assoc. change (quote_char 10) with [10]. cbn [app].
      rewrite !translate_cr_lf, IH by (simpl; lia). by rewrite bind_cons.
    + rewrite translate_cr by (rewrite hd_quote_body; congruence).
      rewrite (translate_cr (d :: f)) by (simpl; congruence).
      rewrite IH by (simpl; lia). by rewrite bind_cons.
  - rewrite translate_newlines_app_id by (by apply quote_char_no_cr).
    rewrite translate_other, bind_cons, <-app_assoc, IH by (simpl; try lia; done). done.
Qed.

Lemma translate_quote_field f s :
  translate_newlines (quote_field f ++ s) = quote_field (translate_newlines f) ++ translate_newlines s.
Proof. unfold quote_field. cbn [app translate_newlines N.eqb Pos.eqb]. rewrite <-!app_assoc. cbn [app]. by rewrite translate_quote_body. Qed.

Lemma translate_export_record rec s :
  translate_newlines (export_record rec ++ s) =
    py_join [44] (map quote_field (map translate_newlines rec)) ++ 10 :: translate_newlines s.
Proof.
  unfold export_record. rewrite <-app_assoc. destruct rec as [|f rec]; [done|].
  revert f. induction rec as [|f2 rec IH]; intros f.
  - rewrite !map_cons, !py_join_single. by rewrite translate_quote_field.
  - rewrite !map_cons, !py_join_cons2, <-!app_assoc, translate_quote_field. cbn [app translate_newlines N.eqb Pos.eqb].
    rewrite <-!map_cons, IH. done.
Qed.

Lemma translate_csv_export records s :
  translate_newlines (csv_export records ++ s) =
    (map (map translate_newlines) records ≫= λ rec, py_join [44] (map quote_field rec) ++ [10]) ++
    translate_newlines s.
Proof.
  induction records as [|rec rs IH]; [done|]. unfold csv_export. rewrite !bind_cons, <-!app_assoc.
  rewrite translate_export_record. fold (csv_export rs). rewrite IH. cbn [map]. rewrite bind_cons.
  by rewrite <-!app_assoc.
Qed.

Lemma reader_eq r1 r2 :
  state r1 = state r2 → fields r1 = fields r2 → field r1 = field r2 → field_len r1 = field_len r2 → r1 = r2.
Proof. destruct r1, r2; simpl. intros -> -> -> ->. done. Qed.

Lemma add_char_ok r c :
  (field_len r < field_limit)%N →
  add_char r c = Ok {| state := state r; fields := fields r; field := c :: field r; field_len := field_len r + 1 |}.
Proof. intros H. unfold add_char. by rewrite (proj2 (N.leb_gt _ _)). Qed.

(** A quoted field: from [IN_QUOTED_FIELD], its body and the closing
    quote put its characters in the field buffer; the line feeds it holds
    end lines without ending the record. *)
Lemma csv_text_quoted f : ∀ r p s,
  state r = IN_QUOTED_FIELD → (field_len r + N.of_nat (length f) ≤ field_limit)%N →
  csv_text r p ((f ≫= quote_char) ++ 34 :: s) =
    csv_text {| state := QUOTE_IN_QUOTED_FIELD; fields := fields r; field := rev f ++ field r;
                field_len := field_len r + N.of_nat (length f) |} true s.
Proof.
  induction f as [|c f IH]; intros r p s Hs Hl.
  - cbn. unfold process_char. rewrite Hs. cbn. by rewrite N.add_0_r.
  - rewrite bind_cons, <-app_assoc. cbn [length] in Hl. unfold quote_char at 1.
    destruct (c =? 34) eqn:Hq.
    + apply N.eqb_eq in Hq as ->. cbn [app csv_text]. unfold process_char. rewrite Hs. cbn.
      rewrite add_char_ok by (simpl; lia). cbn.
      rewrite IH by (simpl; first [done|lia]). f_equal. apply reader_eq; cbn; [done|done|by rewrite <-app_assoc|lia].
    + cbn [app csv_text]. unfold process_char at 1. rewrite Hs, Hq, add_char_ok by lia. cbn.
      destruct (c =? 10); [unfold process_char, after_eol; cbn; rewrite !Hs; rewrite bool_decide_false by done|];
        (rewrite IH by (simpl; first [done|lia]); f_equal; apply reader_eq; cbn; [done|done|by rewrite <-app_assoc|lia]).
Qed.

Lemma process_char_open r :
  state r = START_RECORD ∨ state r = START_FIELD → process_char r (Some 34) = Ok (set_state r IN_QUOTED_FIELD).
Proof. unfold process_char. by intros [-> | ->]. Qed.

(** A quoted field at the start of a field is read into the buffer. *)
Lemma csv_text_open f r p s :
  state r = START_RECORD ∨ state r = START_FIELD → field r = [] → field_len r = 0 →
  (N.of_nat (length f) ≤ field_limit)%N →
  csv_text r p (quote_field f ++ s) =
    csv_text {| state := QUOTE_IN_QUOTED_FIELD; fields := fields r; field := rev f;
                field_len := N.of_nat (length f) |} true s.
Proof.
  intros Hst Hf Hl Hlen. unfold quote_field. cbn [app]. rewrite <-app_assoc. cbn [app csv_text].
  rewrite process_char_open by done. cbn [N.eqb Pos.eqb]. rewrite csv_text_quoted by (simpl; first [done|lia]).
  f_equal. apply reader_eq; cbn; [done|done|by rewrite Hf, app_nil_r|by rewrite Hl].
Qed.

(** The fields of a record, from its first character to its line feed. *)
Lemma csv_text_fields fs : ∀ f r p s,
  state r = START_RECORD ∨ state r = START_FIELD → field r = [] → field_len r = 0 →
  Forall field_ok (f :: fs) →
  csv_text r p (py_join [44] (map quote_field (f :: fs)) ++ 10 :: s) =
    let '(recs, e) := csv_text reader_reset false s in ((fields r ++ f :: fs) :: recs, e).
Proof.
  induction fs as [|f2 fs IH]; intros f r p s Hst Hf Hl Hok;
    apply Forall_cons in Hok as [Hlen Hok].
  - rewrite map_cons, py_join_single, csv_text_open by done. cbn.
    unfold after_eol, end_record, save_field, set_state. cbn.
    destruct (csv_text reader_reset false s). by rewrite rev_involutive.
  - rewrite !map_cons, py_join_cons2, <-!app_assoc. cbn [app]. rewrite csv_text_open by done.
    set (q := {| state := QUOTE_IN_QUOTED_FIELD; fields := fields r; field := rev f;
                 field_len := N.of_nat (length f) |}).
    transitivity (csv_text (set_state (save_field q) START_FIELD) true
                   (py_join [44] (map quote_field (f2 :: fs)) ++ 10 :: s)); [reflexivity|].
    rewrite IH by (simpl; auto). cbn. by rewrite rev_involutive, <-app_assoc.
Qed.

Lemma csv_text_record rec s :
  Forall field_ok rec →
  csv_text reader_reset false (py_join [44] (map quote_field rec) ++ 10 :: s) =
    let '(recs, e) := csv_text reader_reset false s in (rec :: recs, e).
Proof.
  destruct rec as [|f fs]; intros Hok.
  - cbn. unfold after_eol, set_state. cbn. by destruct (csv_text reader_reset false s).
  - rewrite csv_text_fields by (simpl; auto). done.
Qed.

Lemma csv_text_records records s :
  Forall (Forall field_ok) records →
  csv_text reader_reset false ((records ≫= λ rec, py_join [44] (map quote_field rec) ++ [10]) ++ s) =
    let '(recs, e) := csv_text reader_reset false s in (records ++ recs, e).
Proof.
  induction 1 as [|rec rs Hrec _ IH]; [simpl; by destruct (csv_text reader_reset false s)|].
  rewrite bind_cons, <-!app_assoc. cbn [app]. rewrite csv_text_record by done. rewrite IH.
  by destruct (csv_text reader_reset false s).
Qed.

Lemma quote_field_valid f : forallb valid_char f = true → forallb valid_char (quote_field f) = true.
Proof.
  intros Hf. unfold quote_field. cbn [forallb]. rewrite forallb_app. simpl. rewrite andb_true_r.
  induction f as [|c f IH]; [done|]. simpl in Hf. apply andb_prop in Hf as [Hc Hf].
  rewrite bind_cons, forallb_app, IH by done. unfold quote_char. by destruct (c =? 34); simpl; rewrite ?Hc.
Qed.

Lemma csv_export_valid records :
  Forall (Forall (λ f, forallb valid_char f = true)) records → forallb valid_char (csv_export records) = true.
Proof.
  induction 1 as [|rec rs Hrec _ IH]; [done|]. unfold csv_export. rewrite bind_cons, forallb_app.
  fold (csv_export rs). rewrite IH, andb_true_r. unfold export_record. rewrite forallb_app, andb_true_r.
  apply valid_py_join; [done|]. apply Forall_fmap. eapply Forall_impl; [exact Hrec|]. apply quote_field_valid.
Qed.

(** The export starts with a quote or a carriage return. *)
Lemma csv_export_head records c t : csv_export records = c :: t → c < 128.
Proof.
  destruct records as [|[|f fs] rs]; [done| |]; unfold csv_export; rewrite bind_cons; unfold export_record.
  - by intros [= <- _].
  - rewrite map_cons. destruct fs; [rewrite py_join_single|rewrite map_cons, py_join_cons2];
      unfold quote_field; by intros [= <- _].
Qed.

(** [utf-8-sig] on an encoded text that starts with an ASCII character,
    with or without the byte-order mark. *)
Lemma decode_utf8_sig_encode (b : bool) t :
  forallb valid_char t = true → (∀ c t', t = c :: t' → c < 128) →
  decode_utf8_sig ((if b then bom else []) ++ (t ≫= utf8_encode_char)) = Ok t.
Proof.
  intros Hv Ha. unfold decode_utf8_sig.
  assert (prefixb bom (t ≫= utf8_encode_char) = false) as Hp.
  { destruct t as [|c t']; [done|]. rewrite bind_cons. specialize (Ha c t' eq_refl).
    unfold utf8_encode_char at 1. rewrite (proj2 (N.ltb_lt c 128)) by done. cbn.
    destruct c as [|q]; [done|]. assert (q ≠ 239%positive) by (intros ->; lia).
    by rewrite (proj2 (Pos.eqb_neq _ _)). }
  destruct b; cbn [app].
  - change (prefixb bom (bom ++ (t ≫= utf8_encode_char))) with true.
    change (drop 3 (bom ++ (t ≫= utf8_encode_char))) with (t ≫= utf8_encode_char). cbv iota. by rewrite decode_valid.
  - rewrite Hp. by rewrite decode_valid.
Qed.

(** C34.  Round trip of the reader: the export of any records whose
    fields hold valid characters (every field quoted, quotes doubled,
    commas between fields, ["\r\n"] after each record), encoded in UTF-8
    with or without a byte-order mark, is read back by [open(...,
    encoding='utf-8-sig')] and [csv.reader] as these records, the
    quotes, commas and line feeds inside the fields kept, except that the
    file is opened without [newline=''], so a carriage return inside a
    field is read as a line feed ([translate_newlines]); this is the
    identity on fields without carriage return.  Each field, so read,
    must fit in [field_limit]. *)
Theorem lire_records_export records (b : bool) :
  Forall (Forall (λ f, forallb valid_char f = true ∧ field_ok (translate_newlines f))) records →
  lire_records ((if b then bom else []) ++ (csv_export records ≫= utf8_encode_char)) =
    (map (map translate_newlines) records, None).
Proof.
  intros Hok. rewrite lire_records_text, decode_utf8_sig_encode.
  - rewrite <-(app_nil_r (csv_export records)), translate_csv_export, csv_text_records.
    + cbn. rewrite csv_eof_reset. cbn. by rewrite app_nil_r.
    + apply Forall_fmap. eapply Forall_impl; [exact Hok|]. intros rec Hr.
      apply Forall_fmap. eapply Forall_impl; [exact Hr|]. naive_solver.
  - apply csv_export_valid. eapply Forall_impl; [exact Hok|]. intros rec Hr.
    eapply Forall_impl; [exact Hr|]. naive_solver.
  - intros c t E. by apply (csv_export_head records c t).
Qed.

(** ** Errors of the reader *)

(** The characters an unquoted field may hold without ending it. *)
Definition plain (c : N) : bool := negb (is_nl c) && negb (c =? 34) && negb (c =? 44).

Lemma csv_text_unquoted f : ∀ r p s,
  state r = IN_FIELD → forallb plain f = true → (field_len r + N.of_nat (length f) ≤ field_limit)%N →
  ∃ p', csv_text r p (f ++ s) =
    csv_text {| state := IN_FIELD; fields := fields r; field := rev f ++ field r;
                field_len := field_len r + N.of_nat (length f) |} p' s.
Proof.
  induction f as [|c f IH]; intros r p s Hs Hp Hl.
  - exists p. f_equal. apply reader_eq; cbn; [done|done|done|lia].
  - simpl in Hp. apply andb_prop in Hp as [Hc Hp]. unfold plain, is_nl in Hc.
    destruct (c =? 10) eqn:H10; [done|]. destruct (c =? 13) eqn:H13; [done|].
    destruct (c =? 34) eqn:H34; [done|]. destruct (c =? 44) eqn:H44; [done|].
    cbn [app csv_text]. unfold process_char. rewrite Hs. unfold is_nl. rewrite H10, H13, H44.
    cbn [orb]. rewrite add_char_ok by (simpl in Hl; lia). cbn iota.
    destruct (IH {| state := state r; fields := fields r; field := c :: field r; field_len := field_len r + 1 |}
                true s) as [p' Hp']; [done|done|simpl in *; lia|].
    exists p'. rewrite Hp'. f_equal. apply reader_eq; cbn; [done|done|by rewrite <-app_assoc|lia].
Qed.

(** A field longer than the limit raises [csv.Error] when its character
    of index [field_limit] is added. *)
Lemma csv_text_long_field f s :
  forallb plain f = true → (field_limit < N.of_nat (length f))%N →
  csv_text reader_reset false (f ++ s) = ([], Some CsvError).
Proof.
  intros Hp Hl. destruct f as [|c0 f]; [simpl in Hl; lia|].
  simpl in Hp. apply andb_prop in Hp as [Hc0 Hp]. unfold plain, is_nl in Hc0.
  destruct (c0 =? 10) eqn:H10; [done|]. destruct (c0 =? 13) eqn:H13; [done|].
  destruct (c0 =? 34) eqn:H34; [done|]. destruct (c0 =? 44) eqn:H44; [done|].
  cbn [app csv_text]. unfold process_char, start_field, is_nl. cbn [state reader_reset set_state].
  rewrite H10, H13, H34, H44. cbn [orb]. rewrite add_char_ok by done. cbn iota.
  remember (N.to_nat field_limit - 1)%nat as k eqn:Ek. cbn [length] in Hl.
  rewrite <-(take_drop k f) in Hp |- *. rewrite forallb_app in Hp. apply andb_prop in Hp as [Hp1 Hp2].
  assert (length (take k f) = k) as Hk by (rewrite length_take; unfold field_limit in *; lia).
  destruct (drop k f) as [|c f2] eqn:Hd.
  { pose proof (length_drop f k) as E. rewrite Hd in E. simpl in E. unfold field_limit in *. lia. }
  rewrite <-app_assoc. cbn.
  change (set_state _ IN_FIELD) with {| state := IN_FIELD; fields := []; field := [c0]; field_len := 1 |}.
  destruct (csv_text_unquoted (take k f)
              {| state := IN_FIELD; fields := []; field := [c0]; field_len := 1 |} true (c :: f2 ++ s))
    as [p' ->]; [done|done|simpl; rewrite Hk; unfold field_limit in *; lia|].
  simpl in Hp2. apply andb_prop in Hp2 as [Hc _]. unfold plain, is_nl in Hc.
  destruct (c =? 10) eqn:H10'; [done|]. destruct (c =? 13) eqn:H13'; [done|].
  destruct (c =? 34) eqn:H34'; [done|]. destruct (c =? 44) eqn:H44'; [done|].
  cbn [app csv_text]. unfold process_char. cbn [state]. unfold is_nl. rewrite H10', H13', H44'.
  cbn [orb]. unfold add_char. cbn [field_len]. rewrite Hk.
  rewrite (proj2 (N.leb_le _ _)) by (unfold field_limit in *; lia). done.
Qed.

Lemma utf8_decode_ascii_app pre rest :
  Forall (λ b, b < 128) pre → utf8_decode (pre ++ rest) = (λ t, pre ++ t) <$> utf8_decode rest.
Proof.
  induction 1 as [|b pre Hb _ IH]; simpl.
  - by destruct (utf8_decode rest).
  - rewrite (proj2 (N.ltb_lt b 128)) by done. rewrite IH. by destruct (utf8_decode rest).
Qed.

Lemma plain_no_cr f : forallb plain f = true → 13 ∉ f.
Proof.
  induction f as [|c f IH]; simpl; [set_solver|]. intros [Hc Hf]%andb_prop.
  rewrite not_elem_of_cons. split; [|by apply IH]. intros <-. done.
Qed.

Lemma csv_export_cons records : records ≠ [] → ∃ c t, csv_export records = c :: t.
Proof.
  destruct records as [|r rs]; [done|]. intros _. unfold csv_export. rewrite bind_cons.
  unfold export_record. destruct (py_join [44] (map quote_field r)); simpl; eauto.
Qed.

(** C35.  The two ways reading [Events.csv] fails: a file that is not
    UTF-8, as a Windows-1252 export whose [é] (of [#08 résultat]) is the
    single byte 0xE9, raises [UnicodeDecodeError] before any record is
    read; an unquoted field longer than [field_limit] (131072 characters)
    raises [csv.Error] when its character of that index is read, after
    the records before it have been yielded. *)
Theorem lire_records_errors :
  (∀ pre c post, Forall (λ b, b < 128) pre → c < 128 →
     lire_records (pre ++ 233 :: c :: post) = ([], Some UnicodeDecodeError)) ∧
  (∀ records f rest (b : bool), records ≠ [] →
     Forall (Forall (λ g, forallb valid_char g = true ∧ field_ok (translate_newlines g))) records →
     forallb valid_char (f ++ rest) = true → forallb plain f = true → (field_limit < N.of_nat (length f))%N →
     lire_records ((if b then bom else []) ++ ((csv_export records ++ f ++ rest) ≫= utf8_encode_char)) =
       (map (map translate_newlines) records, Some CsvError)).
Proof.
  split.
  - intros pre c post Hpre Hc. unfold lire_records, decode_utf8_sig.
    replace (prefixb bom (pre ++ 233 :: c :: post)) with false.
    2:{ destruct pre as [|b pre]; [done|]. apply Forall_cons in Hpre as [Hb _].
        unfold bom. cbn [app prefixb]. by rewrite (proj2 (N.eqb_neq 239 b)) by lia. }
    rewrite utf8_decode_ascii_app by done.
    destruct post as [|d post]; simpl; [done|]. unfold is_cont.
    by rewrite (proj2 (N.leb_gt 128 c)) by lia.
  - intros records f rest b Hne Hok Hv Hp Hl.
    assert (Hok' : Forall (Forall field_ok) (map (map translate_newlines) records)).
    { apply Forall_fmap. eapply Forall_impl; [exact Hok|]. intros rec Hr.
      apply Forall_fmap. eapply Forall_impl; [exact Hr|]. naive_solver. }
    rewrite lire_records_text, decode_utf8_sig_encode.
    + rewrite translate_csv_export, translate_newlines_app_id by (by apply plain_no_cr).
      rewrite csv_text_records, csv_text_long_field by done. cbn. by rewrite app_nil_r.
    + rewrite forallb_app, Hv, andb_true_r. apply csv_export_valid.
      eapply Forall_impl; [exact Hok|]. intros rec Hr. eapply Forall_impl; [exact Hr|]. naive_solver.
    + destruct (csv_export_cons records Hne) as (c0 & t0 & E). rewrite E.
      intros c t [= <- _]. by apply (csv_export_head records c0 t0).
Qed.

(** ** Witnesses *)

(** A header, a row with a comma and a quote in its fields, a blank
    record and a row whose first cell holds a ["\r\n"]. *)
Definition records_exemple : list (list (list N)) :=
  [[py:"Nom"; py:"Note"]; [py:"a,b"; [120; 34; 121]]; []; [[108; 13; 10; 109]; []]].

Lemma lire_records_export_witness :
  lire_records (bom ++ (csv_export records_exemple ≫= utf8_encode_char)) =
    (map (map translate_newlines) records_exemple, None) ∧
  map (map translate_newlines) records_exemple =
    [[py:"Nom"; py:"Note"]; [py:"a,b"; [120; 34; 121]]; []; [[108; 10; 109]; []]].
Proof.
  split; [|reflexivity]. apply (lire_records_export records_exemple true).
  repeat constructor; apply N.leb_le; reflexivity.
Defined.

(** A field of 131073 letters after the header. *)
Definition champ_long : list N := repeat 120 (N.to_nat 131073).

Lemma lire_records_errors_witness :
  lire_records (py:"Position,#08 r" ++ 233 :: py:"sultat") = ([], Some UnicodeDecodeError) ∧
  lire_records ((if false then bom else []) ++ ((csv_export [[py:"Nom"]] ++ champ_long ++ []) ≫= utf8_encode_char)) =
    (map (map translate_newlines) [[py:"Nom"]], Some CsvError).
Proof.
  split.
  - apply (proj1 lire_records_errors (py:"Position,#08 r") 115 (py:"ultat")); [repeat constructor; lia|lia].
  - apply (proj2 lire_records_errors [[py:"Nom"]] champ_long [] false); [done| |vm_compute; reflexivity
      |vm_compute; reflexivity|vm_compute; reflexivity].
    repeat constructor; apply N.leb_le; reflexivity.
Defined.
