(* ===== verification/Md5.v ===== *)
(** * MD5: [hashlib.md5(data).hexdigest()]

    [calculer_hash] fingerprints a row with MD5 (RFC 1321).  What the
    deduplication needs of the hash is stated as the class [HexDigest]: a
    function from bytes to a hex string of fixed length.  The theorems of
    [Dedup] are proved against that interface; this file gives the MD5
    instance, with 32-bit words kept as [Z] values below 2^32 and the
    wrap-around of the additions written out. *)

From S2P Require Import Prelude.
From Stdlib Require Import ZArith.

(** The interface [calculer_hash] relies on: a digest is a string of
    32 lower-case hexadecimal digits. *)
Class HexDigest := {
  hexdigest : list N → list N;
  hexdigest_length bs : length (hexdigest bs) = 32%nat
}.

Module Md5.
Local Open Scope Z_scope.

Definition mask32 : Z := 4294967295.
Definition add32 (x y : Z) : Z := Z.land (x + y) mask32.
Definition not32 (x : Z) : Z := Z.lxor x mask32.
Definition rotl32 (x s : Z) : Z :=
  Z.land (Z.lor (Z.shiftl x s) (Z.shiftr x (32 - s))) mask32.

(** [K[i] = floor(2^32 * |sin(i + 1)|)]. *)
Definition K : list Z := [
   3614090360; 3905402710; 606105819; 3250441966;
   4118548399; 1200080426; 2821735955; 4249261313;
   1770035416; 2336552879; 4294925233; 2304563134;
   1804603682; 4254626195; 2792965006; 1236535329;
   4129170786; 3225465664; 643717713; 3921069994;
   3593408605; 38016083; 3634488961; 3889429448;
   568446438; 3275163606; 4107603335; 1163531501;
   2850285829; 4243563512; 1735328473; 2368359562;
   4294588738; 2272392833; 1839030562; 4259657740;
   2763975236; 1272893353; 4139469664; 3200236656;
   681279174; 3936430074; 3572445317; 76029189;
   3654602809; 3873151461; 530742520; 3299628645;
   4096336452; 1126891415; 2878612391; 4237533241;
   1700485571; 2399980690; 4293915773; 2240044497;
   1873313359; 4264355552; 2734768916; 1309151649;
   4149444226; 3174756917; 718787259; 3951481745].

Definition S : list Z :=
  [7; 12; 17; 22; 7; 12; 17; 22; 7; 12; 17; 22; 7; 12; 17; 22;
   5; 9; 14; 20; 5; 9; 14; 20; 5; 9; 14; 20; 5; 9; 14; 20;
   4; 11; 16; 23; 4; 11; 16; 23; 4; 11; 16; 23; 4; 11; 16; 23;
   6; 10; 15; 21; 6; 10; 15; 21; 6; 10; 15; 21; 6; 10; 15; 21].

Definition state : Type := (Z * Z * Z * Z)%type.

Definition init : state := (1732584193, 4023233417, 2562383102, 271733878).

(** One of the 64 steps of the compression function on the block [M]
    (sixteen little-endian words). *)
Definition step (M : list Z) (st : state) (i : nat) : state :=
  let '(a, b, c, d) := st in
  let '(f, g) :=
    if (i <? 16)%nat then (Z.lor (Z.land b c) (Z.land (not32 b) d), i)
    else if (i <? 32)%nat then (Z.lor (Z.land d b) (Z.land (not32 d) c), (5 * i + 1) mod 16)%nat
    else if (i <? 48)%nat then (Z.lxor b (Z.lxor c d), (3 * i + 5) mod 16)%nat
    else (Z.lxor c (Z.lor b (not32 d)), (7 * i) mod 16)%nat in
  let f' := add32 (add32 (add32 f a) (nth i K 0)) (nth g M 0) in
  (d, add32 b (rotl32 f' (nth i S 0)), b, c).

Definition word_le (b0 b1 b2 b3 : Z) : Z :=
  Z.lor b0 (Z.lor (Z.shiftl b1 8) (Z.lor (Z.shiftl b2 16) (Z.shiftl b3 24))).

Fixpoint words (bs : list Z) : list Z :=
  match bs with
  | b0 :: b1 :: b2 :: b3 :: rest => word_le b0 b1 b2 b3 :: words rest
  | _ => []
  end.

Definition compress (st : state) (block : list Z) : state :=
  let M := words block in
  let '(a, b, c, d) := st in
  let '(a', b', c', d') := fold_left (step M) (seq 0 64) st in
  (add32 a a', add32 b b', add32 c c', add32 d d').

(** [n] little-endian bytes of [x]. *)
Definition le_bytes (n : nat) (x : Z) : list Z :=
  map (λ i, Z.land (Z.shiftr x (8 * Z.of_nat i)) 255) (seq 0 n).

(** Padding: a 0x80 byte, zeros up to 56 mod 64, the bit length on 64
    bits. *)
Definition pad (msg : list Z) : list Z :=
  let len := Z.of_nat (length msg) in
  msg ++ [128] ++ repeat 0 (Z.to_nat ((55 - len) mod 64)) ++ le_bytes 8 (8 * len).

Fixpoint blocks (n : nat) (st : state) (msg : list Z) : state :=
  match n with
  | O => st
  | Datatypes.S n' => blocks n' (compress st (take 64 msg)) (drop 64 msg)
  end.

Definition digest (msg : list Z) : list Z :=
  let p := pad msg in
  let '(a, b, c, d) := blocks (length p / 64) init p in
  le_bytes 4 a ++ le_bytes 4 b ++ le_bytes 4 c ++ le_bytes 4 d.

Definition hex_digit (d : Z) : N := Z.to_N (if d <? 10 then 48 + d else 87 + d).

Definition hex_byte (b : Z) : list N := [hex_digit (Z.shiftr b 4); hex_digit (Z.land b 15)].

(** [hashlib.md5(bs).hexdigest()]. *)
Definition md5_hexdigest (bs : list N) : list N :=
  digest (map Z.of_N bs) ≫= hex_byte.

Lemma length_le_bytes n x : length (le_bytes n x) = n.
Proof. unfold le_bytes. by rewrite length_map, length_seq. Qed.

Lemma length_md5_hexdigest bs : length (md5_hexdigest bs) = 32%nat.
Proof.
  unfold md5_hexdigest, digest.
  destruct (blocks _ _ _) as [[[a b] c] d].
  rewrite (length_bind_const 2); [by rewrite !length_app, !length_le_bytes|done].
Qed.

End Md5.

#[export] Instance md5 : HexDigest := {|
  hexdigest := Md5.md5_hexdigest;
  hexdigest_length := Md5.length_md5_hexdigest
|}.

(** RFC 1321 test vectors. *)
Example md5_empty : hexdigest [] = py:"d41d8cd98f00b204e9800998ecf8427e".
Proof. vm_compute. reflexivity. Qed.

Example md5_abc : hexdigest (py:"abc") = py:"900150983cd24fb0d6963f7d28e17f72".
Proof. vm_compute. reflexivity. Qed.
