(* ===== verification/CsvRow.v ===== *)
(** * Row dictionaries of [csv.DictReader]

    [lire_csv] (src/generer-data-js.py, lines 49-52) iterates a
    [csv.DictReader] over [Events.csv].  Each row it yields is a Python
    [dict] built from the header ([fieldnames]) and one parsed record:
    [dict(zip(fieldnames, row))], then either the surplus cells under the
    key [None] (restkey) or [None] values (restval) for the missing
    trailing columns; records that parse to [[]] (blank lines) are skipped.
    A dict is an insertion-ordered association list here: [row.values()]
    follows that order and [ligne_est_vide] depends on it.

    The input of this file is the list of records [csv.reader] returns;
    the reading of the text into records is in [CsvRead]. *)

From S2P Require Import Prelude.

(** A key of a row: a header field, or [None] (DictReader's restkey). *)
Inductive key :=
  | KStr (s : list N)
  | KNone.

(** A value of a row: a cell, [None] (restval) or the list of surplus
    cells. *)
Inductive cell :=
  | CStr (s : list N)
  | CNone
  | CList (l : list (list N)).

#[export] Instance key_eq_dec : EqDecision key.
Proof. solve_decision. Defined.
#[export] Instance cell_eq_dec : EqDecision cell.
Proof. solve_decision. Defined.

Abbreviation row := (list (key * cell)).

Section Dict.
Context {K V : Type} `{EqDecision K}.

(** [d[k] = v]: an existing key keeps its position. *)
Fixpoint dict_set (d : list (K * V)) (k : K) (v : V) : list (K * V) :=
  match d with
  | [] => [(k, v)]
  | (k', v') :: d' =>
      if decide (k = k') then (k', v) :: d' else (k', v') :: dict_set d' k v
  end.

Fixpoint dict_get (d : list (K * V)) (k : K) : option V :=
  match d with
  | [] => None
  | (k', v') :: d' => if decide (k = k') then Some v' else dict_get d' k
  end.

Lemma dict_get_set_eq d k v : dict_get (dict_set d k v) k = Some v.
Proof.
  induction d as [|[k' v'] d IH]; simpl; repeat (case_decide; simplify_eq/=); done.
Qed.

Lemma dict_get_set_ne d k k' v :
  k ≠ k' → dict_get (dict_set d k v) k' = dict_get d k'.
Proof.
  intros Hne. induction d as [|[k0 v0] d IH]; simpl;
    repeat (case_decide; simplify_eq/=); done.
Qed.

Lemma dict_keys_set d k v :
  map fst (dict_set d k v) =
    if decide (k ∈ map fst d) then map fst d else map fst d ++ [k].
Proof.
  induction d as [|[k' v'] d IH]; simpl; [done|].
  destruct (decide (k = k')) as [->|Hne]; simpl.
  - rewrite decide_True; [done|]. rewrite elem_of_cons. by left.
  - rewrite IH. destruct (decide (k ∈ map fst d)) as [Hin|Hin].
    + rewrite decide_True; [done|]. rewrite elem_of_cons. by right.
    + rewrite decide_False; [done|]. rewrite elem_of_cons. naive_solver.
Qed.

(** The keys of a dict stay distinct under [d[k] = v]. *)
Lemma dict_set_NoDup d k v : NoDup (map fst d) → NoDup (map fst (dict_set d k v)).
Proof.
  intros Hd. rewrite dict_keys_set. case_decide; [done|].
  apply NoDup_app; split_and!; [done| |apply NoDup_singleton]. set_solver.
Qed.

(** A new key goes at the end. *)
Lemma dict_set_new d k v : k ∉ map fst d → dict_set d k v = d ++ [(k, v)].
Proof.
  induction d as [|[k' v'] d IH]; simpl; [done|].
  rewrite not_elem_of_cons. intros [Hne Hk]. rewrite decide_False by done. by rewrite IH.
Qed.

Lemma dict_set_values d k v x :
  x ∈ map snd (dict_set d k v) → x = v ∨ x ∈ map snd d.
Proof.
  induction d as [|[k' v'] d IH]; simpl; [set_solver|].
  case_decide; simpl; rewrite ?elem_of_cons; naive_solver.
Qed.
End Dict.

(** [dict(zip(fieldnames, row))]. *)
Definition zip_dict (fieldnames r : list (list N)) : row :=
  foldl (λ d p, dict_set d (KStr p.1) (CStr p.2)) [] (zip fieldnames r).

(** [for key in keys: d[key] = None] (restval). *)
Definition fill_none (d : row) (ks : list (list N)) : row :=
  foldl (λ d k, dict_set d (KStr k) CNone) d ks.

(** [DictReader.__next__] for one non-empty record [r] under the header
    [fieldnames] (restkey [None], restval [None]). *)
Definition dict_row (fieldnames r : list (list N)) : row :=
  let d := zip_dict fieldnames r in
  let lf := length fieldnames in
  let lr := length r in
  if (lf <? lr)%nat then dict_set d KNone (CList (drop lf r))
  else if (lr <? lf)%nat then fill_none d (drop lr fieldnames)
  else d.

(** [list(csv.DictReader(f))] from the records of [csv.reader(f)]: the
    first record is the header; blank records are skipped. *)
Definition dict_reader (records : list (list (list N))) : list row :=
  match records with
  | [] => []
  | fieldnames :: rs => map (dict_row fieldnames) (filter (λ r, r ≠ []) rs)
  end.

(** ** Lemmas on the rows of the reader *)

Lemma foldl_dict_set_NoDup {A} (f : A → key * cell) (d : row) (xs : list A) :
  NoDup (map fst d) →
  NoDup (map fst (foldl (λ d x, dict_set d (f x).1 (f x).2) d xs)).
Proof.
  revert d; induction xs as [|x xs IH]; intros d Hd; simpl; [done|].
  apply IH, dict_set_NoDup, Hd.
Qed.

(** Every row the reader yields is a dict: its keys are distinct,
    whether the record is shorter than, as long as or longer than the
    header, and even when the header repeats a column name. *)
Theorem dict_row_NoDup fieldnames r : NoDup (map fst (dict_row fieldnames r)).
Proof.
  assert (Hz : NoDup (map fst (zip_dict fieldnames r))).
  { apply (foldl_dict_set_NoDup (λ p, (KStr p.1, CStr p.2))). constructor. }
  unfold dict_row. simpl. repeat case_match.
  - by apply dict_set_NoDup.
  - by apply (foldl_dict_set_NoDup (λ k, (KStr k, CNone))).
  - done.
Qed.

Section DictFacts.
Context {K V : Type} `{EqDecision K}.

Lemma dict_get_elem (d : list (K * V)) k v : dict_get d k = Some v → v ∈ map snd d.
Proof.
  induction d as [|[k' v'] d IH]; simpl; [done|].
  case_decide; [intros [= ->]; by left|]. intros ?%IH. by right.
Qed.

Lemma dict_keys_set_new (d : list (K * V)) k v :
  k ∉ map fst d → map snd (dict_set d k v) = map snd d ++ [v].
Proof.
  induction d as [|[k' v'] d IH]; simpl; [done|].
  rewrite not_elem_of_cons. intros [Hne Hk]. rewrite decide_False by done. simpl.
  by rewrite IH.
Qed.
End DictFacts.

Lemma fill_none_get_notin d ks k :
  k ∉ ks → dict_get (fill_none d ks) (KStr k) = dict_get d (KStr k).
Proof.
  unfold fill_none. revert d; induction ks as [|k' ks IH]; intros d Hk; simpl; [done|].
  rewrite not_elem_of_cons in Hk. rewrite IH by naive_solver.
  apply dict_get_set_ne. naive_solver.
Qed.

(** The missing trailing columns of a short record hold [None]. *)
Lemma fill_none_get_in d ks k :
  k ∈ ks → dict_get (fill_none d ks) (KStr k) = Some CNone.
Proof.
  unfold fill_none. revert d; induction ks as [|k' ks IH]; intros d Hk; simpl;
    [by apply not_elem_of_nil in Hk|].
  destruct (decide (k ∈ ks)) as [Hin|Hnin]; [by apply IH|].
  apply elem_of_cons in Hk as [->|]; [|done].
  change (foldl _ _ ks) with (fill_none (dict_set d (KStr k') CNone) ks).
  rewrite fill_none_get_notin by done. apply dict_get_set_eq.
Qed.

Lemma zip_dict_values fieldnames r x :
  x ∈ map snd (zip_dict fieldnames r) → ∃ s, x = CStr s ∧ s ∈ r.
Proof.
  unfold zip_dict.
  assert (Hgen : ∀ (d : row) (ps : list (list N * list N)),
    (∀ y, y ∈ map snd d → ∃ s, y = CStr s ∧ s ∈ r) → (∀ p, p ∈ ps → p.2 ∈ r) →
    ∀ y, y ∈ map snd (foldl (λ d p, dict_set d (KStr p.1) (CStr p.2)) d ps) →
         ∃ s, y = CStr s ∧ s ∈ r).
  { intros d ps. revert d; induction ps as [|p ps IH]; intros d Hd Hps; simpl; [done|].
    apply IH; [|set_solver]. intros y [->|]%dict_set_values; [|by apply Hd].
    exists p.2. split; [done|]. apply Hps. set_solver. }
  apply Hgen; [set_solver|]. intros [k v] Hp. simpl.
  apply list_elem_of_In in Hp. apply list_elem_of_In. by apply in_combine_r in Hp.
Qed.

Lemma zip_dict_no_restkey fieldnames r : KNone ∉ map fst (zip_dict fieldnames r).
Proof.
  unfold zip_dict.
  assert (Hgen : ∀ (d : row) (ps : list (list N * list N)), KNone ∉ map fst d →
    KNone ∉ map fst (foldl (λ d p, dict_set d (KStr p.1) (CStr p.2)) d ps)).
  { intros d ps. revert d; induction ps as [|p ps IH]; intros d Hd; simpl; [done|].
    apply IH. rewrite dict_keys_set. case_decide; set_solver. }
  apply Hgen. set_solver.
Qed.

(** A record with as many cells as the header gives a row of strings. *)
Lemma dict_row_full fieldnames r x :
  length r = length fieldnames → x ∈ map snd (dict_row fieldnames r) → ∃ s, x = CStr s ∧ s ∈ r.
Proof.
  intros Hl. unfold dict_row. simpl. rewrite Hl, Nat.ltb_irrefl. apply zip_dict_values.
Qed.

(** A record longer than the header ends with the list of its surplus
    cells under the key [None]. *)
Lemma dict_row_long fieldnames r :
  (length fieldnames < length r)%nat →
  map snd (dict_row fieldnames r) =
    map snd (zip_dict fieldnames r) ++ [CList (drop (length fieldnames) r)].
Proof.
  intros Hl. unfold dict_row. simpl. rewrite (proj2 (Nat.ltb_lt _ _) Hl).
  apply dict_keys_set_new, zip_dict_no_restkey.
Qed.

(** A record shorter than the header has [None] under each missing
    column. *)
Lemma dict_row_short fieldnames r k :
  (length r < length fieldnames)%nat → k ∈ drop (length r) fieldnames →
  dict_get (dict_row fieldnames r) (KStr k) = Some CNone.
Proof.
  intros Hl Hk. unfold dict_row. simpl.
  rewrite (proj2 (Nat.ltb_ge _ _)) by lia. rewrite (proj2 (Nat.ltb_lt _ _) Hl).
  by apply fill_none_get_in.
Qed.

Lemma dict_reader_app fieldnames pre r post :
  r ≠ [] →
  dict_reader (fieldnames :: pre ++ r :: post) =
    dict_reader (fieldnames :: pre) ++ dict_row fieldnames r :: dict_reader (fieldnames :: post).
Proof.
  intros Hr. simpl. rewrite filter_app, filter_cons, decide_True by done.
  by rewrite map_app.
Qed.

(** Every column of the header is a key of the row of a record at least
    as long as the header. *)
Lemma zip_dict_keys fieldnames r k :
  (length fieldnames ≤ length r)%nat → k ∈ fieldnames → KStr k ∈ map fst (zip_dict fieldnames r).
Proof.
  intros Hl Hk. unfold zip_dict.
  assert (Hgen : ∀ (d : row) (ps : list (list N * list N)),
    KStr k ∈ map fst d ∨ k ∈ ps.*1 →
    KStr k ∈ map fst (foldl (λ d p, dict_set d (KStr p.1) (CStr p.2)) d ps)).
  { intros d ps. revert d; induction ps as [|[k' v'] ps IH]; intros d Hd; simpl in *; [set_solver|].
    apply IH. rewrite dict_keys_set. case_decide; set_solver. }
  apply Hgen. right. by rewrite fst_zip.
Qed.
