(* ===== verification/Dedup.v ===== *)
(** * Deduplication of the rows of [Events.csv]

    src/generer-data-js.py, [calculer_hash] (lines 24-34),
    [ligne_est_vide] (lines 37-39) and [lire_csv] (lines 42-66).

    [lire_csv] is a fold over the rows of the [DictReader] with an explicit
    state [lstate] (the list [lignes], the set [hashes_vus], the counter
    [doublons]); every step may raise, so a step returns a [pyresult].
    The digest function is the interface [HexDigest] of [Md5]: the
    theorems hold for any digest function, MD5 included.

    - Section [Spec] states what the pass promises, without sets or
      counters: [dedup_spec] keeps a row when it is not blank and no
      earlier non-blank row has its fingerprint; [dups_spec] counts the
      non-blank rows that have such an earlier row.
    - Section [Impl] models the code and proves that it refines the
      specification whenever no row raises ([lire_rows_abs]), and that
      the loop raises exactly when a row is not [row_safe]
      ([lire_rows_ok]).
    - Section [Theorems] states the claims, among them the ambiguity of
      the fingerprint: ['|'] is not escaped, so records whose fields
      differ only by where a ['|'] splits them collide. *)

From S2P Require Import Prelude Utf8 Md5 CsvRow.

(** ** The specification *)

(** [select g rows] keeps each row [r] for which [g] holds of the rows
    before it and [r]. *)
Fixpoint select_go (g : list row → row → bool) (pre rows : list row) : list row :=
  match rows with
  | [] => []
  | r :: rs => (if g pre r then [r] else []) ++ select_go g (pre ++ [r]) rs
  end.

Definition select (g : list row → row → bool) (rows : list row) : list row :=
  select_go g [] rows.

Lemma select_go_snoc g pre rows r :
  select_go g pre (rows ++ [r]) =
    select_go g pre rows ++ (if g (pre ++ rows) r then [r] else []).
Proof.
  revert pre; induction rows as [|r' rows IH]; intros pre; simpl.
  - by rewrite !app_nil_r.
  - by rewrite IH, <-app_assoc, <-app_assoc.
Qed.

Lemma select_snoc g rows r :
  select g (rows ++ [r]) = select g rows ++ (if g rows r then [r] else []).
Proof. apply select_go_snoc. Qed.

Lemma select_nil g : select g [] = [].
Proof. done. Qed.

Lemma select_sublist g rows : sublist (select g rows) rows.
Proof.
  induction rows as [|r rows IH] using rev_ind; [done|].
  rewrite select_snoc. apply sublist_app; [done|]. case_match; by constructor.
Qed.

Lemma select_go_app g pre rows1 rows2 :
  select_go g pre (rows1 ++ rows2) =
    select_go g pre rows1 ++ select_go g (pre ++ rows1) rows2.
Proof.
  revert pre; induction rows1 as [|r rows1 IH]; intros pre; simpl.
  - by rewrite app_nil_r.
  - by rewrite IH, <-app_assoc, <-app_assoc.
Qed.

(** Two prefixes that [g] cannot tell apart, whatever follows them, give
    the same selection. *)
Lemma select_go_ext g pre1 pre2 rows :
  (∀ ext r, g (pre1 ++ ext) r = g (pre2 ++ ext) r) →
  select_go g pre1 rows = select_go g pre2 rows.
Proof.
  revert pre1 pre2; induction rows as [|r rows IH]; intros pre1 pre2 Hg; simpl; [done|].
  rewrite <-(app_nil_r pre1), <-(app_nil_r pre2), Hg, !app_nil_r. f_equal.
  apply IH. intros ext r'. by rewrite <-!app_assoc.
Qed.

Section Spec.
Context (blank : row → bool) (fp : row → list N).

(** Some non-blank row of [prev] has the fingerprint of [r]. *)
Definition has_earlier (prev : list row) (r : row) : bool :=
  existsb (λ r', negb (blank r') && bool_decide (fp r' = fp r)) prev.

(** The rows the pass must keep: first occurrences of non-blank rows. *)
Definition dedup_spec (rows : list row) : list row :=
  select (λ prev r, negb (blank r) && negb (has_earlier prev r)) rows.

(** The number of rows the pass must count as duplicates. *)
Definition dups_spec (rows : list row) : nat :=
  length (select (λ prev r, negb (blank r) && has_earlier prev r) rows).

Lemma has_earlier_snoc prev r' r :
  has_earlier (prev ++ [r']) r =
    has_earlier prev r || (negb (blank r') && bool_decide (fp r' = fp r)).
Proof. unfold has_earlier. by rewrite existsb_app; simpl; rewrite orb_false_r. Qed.

Lemma dedup_spec_snoc rows r :
  dedup_spec (rows ++ [r]) =
    dedup_spec rows ++ (if negb (blank r) && negb (has_earlier rows r) then [r] else []).
Proof. apply select_snoc. Qed.

Lemma dups_spec_snoc rows r :
  dups_spec (rows ++ [r]) =
    (dups_spec rows + if negb (blank r) && has_earlier rows r then 1 else 0)%nat.
Proof. unfold dups_spec. rewrite select_snoc, length_app. by case_match. Qed.

(** An earlier duplicate exists exactly when the fingerprint is among
    those of the rows kept so far: the set of seen digests is enough. *)
Lemma has_earlier_kept prev r :
  has_earlier prev r = bool_decide (fp r ∈ map fp (dedup_spec prev)).
Proof.
  revert r. induction prev as [|r' prev IH] using rev_ind; intros r; [done|].
  rewrite has_earlier_snoc, dedup_spec_snoc, IH.
  destruct (blank r') eqn:Hb; simpl; [by rewrite app_nil_r, orb_false_r|].
  destruct (has_earlier prev r') eqn:He; simpl.
  - rewrite app_nil_r. rewrite IH in He. apply bool_decide_eq_true in He.
    repeat case_bool_decide; simpl; try done. exfalso. congruence.
  - rewrite map_app. repeat case_bool_decide; simpl; try done; exfalso;
      cbn [map] in *; set_solver.
Qed.

Lemma dedup_spec_nonblank rows r : r ∈ dedup_spec rows → blank r = false.
Proof.
  induction rows as [|r' rows IH] using rev_ind; [set_solver|].
  rewrite dedup_spec_snoc, elem_of_app. intros [Hr|Hr]; [by apply IH|].
  destruct (blank r') eqn:Hb; simpl in Hr; [set_solver|].
  case_match; set_solver.
Qed.

Lemma dedup_spec_NoDup rows : NoDup (map fp (dedup_spec rows)).
Proof.
  induction rows as [|r rows IH] using rev_ind; [constructor|].
  rewrite dedup_spec_snoc, has_earlier_kept.
  destruct (blank r), (bool_decide _) eqn:Hd; simpl; rewrite ?app_nil_r; try done.
  rewrite map_app. apply NoDup_app. split_and!; [done| |apply NoDup_singleton].
  apply bool_decide_eq_false in Hd. set_solver.
Qed.

Lemma dedup_spec_complete rows r :
  r ∈ rows → blank r = false → fp r ∈ map fp (dedup_spec rows).
Proof.
  induction rows as [|r' rows IH] using rev_ind; [set_solver|].
  rewrite elem_of_app, list_elem_of_singleton, dedup_spec_snoc, map_app, elem_of_app.
  intros [Hr| ->] Hb; [left; by apply IH|].
  rewrite Hb, has_earlier_kept. case_bool_decide; simpl; [by left|set_solver].
Qed.

(** Every non-blank row is either kept or counted, never both; blank rows
    are neither. *)
Lemma dedup_dups_count rows :
  (length (dedup_spec rows) + dups_spec rows)%nat =
    length (filter (λ r, blank r = false) rows).
Proof.
  induction rows as [|r rows IH] using rev_ind; [done|].
  rewrite dedup_spec_snoc, dups_spec_snoc, filter_app, !length_app, <-IH.
  rewrite filter_cons, filter_nil.
  destruct (blank r), (has_earlier rows r); simpl; lia.
Qed.

Lemma has_earlier_app prev1 prev2 r :
  has_earlier (prev1 ++ prev2) r = has_earlier prev1 r || has_earlier prev2 r.
Proof. apply existsb_app. Qed.

Lemma has_earlier_perm prev1 prev2 r :
  prev1 ≡ₚ prev2 → has_earlier prev1 r = has_earlier prev2 r.
Proof.
  intros Hp. apply eq_bool_prop_intro. unfold has_earlier.
  rewrite !Is_true_true, !existsb_exists. setoid_rewrite <-list_elem_of_In.
  split; intros (x & Hx & Hf); exists x; (split; [|done]); [by rewrite <-Hp|by rewrite Hp].
Qed.

(** A list of non-blank rows with distinct fingerprints is its own
    deduplication, with no duplicate counted. *)
Lemma dedup_spec_id rows :
  Forall (λ r, blank r = false) rows → NoDup (map fp rows) →
  dedup_spec rows = rows ∧ dups_spec rows = 0%nat.
Proof.
  induction rows as [|r rows IH] using rev_ind; [done|].
  rewrite Forall_app, Forall_singleton, map_app, NoDup_app. simpl.
  intros [Hb Hr] (Hnd & Hdisj & _). destruct (IH Hb Hnd) as [IH1 IH2].
  rewrite dedup_spec_snoc, dups_spec_snoc, has_earlier_kept, IH1, IH2, Hr.
  rewrite bool_decide_eq_false_2; [done|]. intros Hin. apply (Hdisj _ Hin). by apply list_elem_of_singleton.
Qed.

(** [has_earlier] only sees the multiset of the previous rows. *)
Lemma select_go_swap (g : list row → row → bool) pre r1 r2 rows :
  (∀ prev1 prev2 r, prev1 ≡ₚ prev2 → g prev1 r = g prev2 r) →
  select_go g (pre ++ [r1; r2]) rows = select_go g (pre ++ [r2; r1]) rows.
Proof.
  intros Hg. apply select_go_ext. intros ext r. apply Hg.
  apply Permutation_app_tail, Permutation_app_head. constructor.
Qed.

(** Swapping two adjacent rows that do not collide only swaps them in
    the output, and does not change the number of duplicates. *)
Lemma dedup_spec_swap pre r1 r2 post :
  ¬ (blank r1 = false ∧ blank r2 = false ∧ fp r1 = fp r2) →
  dedup_spec (pre ++ r1 :: r2 :: post) ≡ₚ dedup_spec (pre ++ r2 :: r1 :: post) ∧
  dups_spec (pre ++ r1 :: r2 :: post) = dups_spec (pre ++ r2 :: r1 :: post).
Proof.
  intros Hnc. unfold dedup_spec, dups_spec, select.
  change (r1 :: r2 :: post) with ([r1; r2] ++ post).
  change (r2 :: r1 :: post) with ([r2; r1] ++ post).
  rewrite !select_go_app, !app_nil_l.
  rewrite !(select_go_swap _ pre r1 r2 post)
    by (intros ???; by intros ->%(has_earlier_perm _ _ r)).
  cbn [select_go]. rewrite !has_earlier_snoc.
  destruct (blank r1) eqn:B1, (blank r2) eqn:B2, (has_earlier pre r1), (has_earlier pre r2);
    repeat case_bool_decide; simpl; rewrite ?app_nil_r, ?length_app;
    try (exfalso; apply Hnc; split_and!; congruence); try (exfalso; congruence);
    split; (solve_Permutation || (simpl; lia)).
Qed.

Lemma has_earlier_elem prev r' r :
  r' ∈ prev → blank r' = false → fp r' = fp r → has_earlier prev r = true.
Proof.
  intros Hin Hb Hf. apply existsb_exists. exists r'.
  rewrite <-list_elem_of_In, Hb, Hf, bool_decide_eq_true_2; done.
Qed.

(** A row with an earlier duplicate adds nothing to what later rows see. *)
Lemma has_earlier_absorb prev x ext r :
  has_earlier prev x = true →
  has_earlier (prev ++ x :: ext) r = has_earlier (prev ++ ext) r.
Proof.
  intros Hx. rewrite !has_earlier_app. cbn [has_earlier existsb].
  destruct (has_earlier prev r) eqn:Hr; [done|]. simpl.
  destruct (blank x), (bool_decide (fp x = fp r)) eqn:Hf; try done. exfalso.
  apply bool_decide_eq_true in Hf.
  apply existsb_exists in Hx as (r' & Hin%list_elem_of_In & Hb).
  apply andb_prop in Hb as [Hb Hf'%bool_decide_eq_true].
  rewrite (has_earlier_elem prev r' r) in Hr; [done|done|by destruct (blank r')|congruence].
Qed.

(** First occurrence wins: a later row with the fingerprint of an
    earlier non-blank row is dropped, and counted once. *)
Lemma dedup_spec_later_dup pre r1 mid r2 post :
  blank r1 = false → blank r2 = false → fp r1 = fp r2 →
  dedup_spec (pre ++ r1 :: mid ++ r2 :: post) = dedup_spec (pre ++ r1 :: mid ++ post) ∧
  dups_spec (pre ++ r1 :: mid ++ r2 :: post) = S (dups_spec (pre ++ r1 :: mid ++ post)).
Proof.
  intros B1 B2 E.
  assert (∀ l, pre ++ r1 :: mid ++ l = (pre ++ r1 :: mid) ++ l) as Hl
    by (intros l; by rewrite <-app_assoc).
  rewrite !Hl. set (P := pre ++ r1 :: mid).
  assert (HP : has_earlier P r2 = true)
    by (apply (has_earlier_elem _ r1); [subst P; set_solver|done|done]).
  unfold dedup_spec, dups_spec, select. rewrite !select_go_app, !app_nil_l. cbn [select_go].
  rewrite HP, B2. simpl.
  rewrite !(select_go_ext _ (P ++ [r2]) P); [split; [done|rewrite !length_app; simpl; lia]| |];
    intros ext r; rewrite <-app_assoc; change ([r2] ++ ext) with (r2 :: ext);
    by rewrite has_earlier_absorb.
Qed.
End Spec.

(** ** The code *)

(** The six fingerprint columns, in the order of lines 27-32;
    ['#08 résultat'] has the code point 233. *)
Definition fingerprint_keys : list (list N) :=
  [py:"Position"; py:"[M] rencontre"; py:"#14 joueurs"; py:"#15 gardiens";
   py:"#08 r" ++ [233] ++ py:"sultat"; py:"Nom"].

(** [row.get(k, '')] as an item of ['|'.join(...)]: a missing key gives
    [''], a [None] value (restval) makes [join] raise [TypeError]. *)
Definition get_str (r : row) (k : list N) : pyresult (list N) :=
  match dict_get r (KStr k) with
  | None => Ok []
  | Some (CStr s) => Ok s
  | Some _ => Raise TypeError
  end.

(** [composants] of [calculer_hash], lines 26-33. *)
Definition composants (r : row) : pyresult (list N) :=
  parts ← mapM (get_str r) fingerprint_keys;
  Ok (py_join (py:"|") parts).

Section Impl.
Context `{HexDigest}.

(** [calculer_hash(row)], lines 24-34. *)
Definition calculer_hash (r : row) : pyresult (list N) :=
  c ← composants r;
  bs ← utf8_encode c;
  Ok (hexdigest bs).

(** [all(not v or v.strip() == '' for v in values)]: [all] stops at the
    first [False]; [v.strip] on a non-empty list raises
    [AttributeError]. *)
Fixpoint all_blank (vs : list cell) : pyresult bool :=
  match vs with
  | [] => Ok true
  | CNone :: vs' => all_blank vs'
  | CStr s :: vs' =>
      if decide (s = []) then all_blank vs'
      else if decide (py_strip s = []) then all_blank vs'
      else Ok false
  | CList l :: vs' =>
      if decide (l = []) then all_blank vs' else Raise AttributeError
  end.

(** [ligne_est_vide(row)], lines 37-39. *)
Definition ligne_est_vide (r : row) : pyresult bool := all_blank (map snd r).

(** The local state of [lire_csv], lines 44-46. *)
Record lstate := {
  lignes : list row;
  hashes_vus : gset (list N);
  doublons : nat
}.

Definition lstate0 : lstate := {| lignes := []; hashes_vus := ∅; doublons := 0 |}.

(** The body of the loop, lines 53-64. *)
Definition lire_step (st : lstate) (r : row) : pyresult lstate :=
  vide ← ligne_est_vide r;
  if (vide : bool) then Ok st else
  h ← calculer_hash r;
  if decide ((h : list N) ∈ hashes_vus st)
  then Ok {| lignes := lignes st; hashes_vus := hashes_vus st;
             doublons := S (doublons st) |}
  else Ok {| lignes := lignes st ++ [r]; hashes_vus := {[h]} ∪ hashes_vus st;
             doublons := doublons st |}.

(** The loop, line 52. *)
Fixpoint lire_rows (st : lstate) (rows : list row) : pyresult lstate :=
  match rows with
  | [] => Ok st
  | r :: rs => st' ← lire_step st r; lire_rows st' rs
  end.

(** [lire_csv(chemin_csv)], lines 42-66, on the records of the file. *)
Definition lire_csv (records : list (list (list N))) : pyresult (list row * nat) :=
  st ← lire_rows lstate0 (dict_reader records);
  Ok (lignes st, doublons st).

(** ** The link with the specification *)

Definition row_blank (r : row) : bool :=
  match ligne_est_vide r with Ok b => b | Raise _ => false end.

Definition row_fp (r : row) : list N :=
  match calculer_hash r with Ok h => h | Raise _ => [] end.

(** A row on which neither the blank test nor (for a non-blank row) the
    hash raises. *)
Definition row_safe (r : row) : bool :=
  match ligne_est_vide r with
  | Ok true => true
  | Ok false => match calculer_hash r with Ok _ => true | Raise _ => false end
  | Raise _ => false
  end.

(** The state the loop must have reached after the rows [pre]. *)
Definition abs_state (pre : list row) : lstate :=
  {| lignes := dedup_spec row_blank row_fp pre;
     hashes_vus := list_to_set (map row_fp (dedup_spec row_blank row_fp pre));
     doublons := dups_spec row_blank row_fp pre |}.

Lemma abs_state_nil : abs_state [] = lstate0.
Proof. done. Qed.

(** One step of the loop from the abstract state of [pre] reaches the
    abstract state of [pre ++ [r]]. *)
Lemma lire_step_abs pre r :
  row_safe r = true → lire_step (abs_state pre) r = Ok (abs_state (pre ++ [r])).
Proof.
  unfold row_safe, lire_step, abs_state.
  rewrite dedup_spec_snoc, dups_spec_snoc, has_earlier_kept.
  destruct (ligne_est_vide r) as [b|e] eqn:Hv; [|done].
  assert (row_blank r = b) as -> by (unfold row_blank; by rewrite Hv).
  destruct b; py_simpl; intros Hs.
  - simpl. by rewrite app_nil_r, Nat.add_0_r.
  - destruct (calculer_hash r) as [h|e] eqn:Hh; [|done].
    assert (row_fp r = h) as Hf by (unfold row_fp; by rewrite Hh). rewrite Hf.
    py_simpl. simpl.
    case_decide as Hin; rewrite elem_of_list_to_set in Hin; case_bool_decide; try done.
    + by rewrite app_nil_r, Nat.add_1_r.
    + rewrite Nat.add_0_r, map_app, list_to_set_app_L. simpl.
      rewrite Hf. f_equal. f_equal. set_solver.
Qed.

Lemma lire_rows_abs pre rows :
  forallb row_safe rows = true →
  lire_rows (abs_state pre) rows = Ok (abs_state (pre ++ rows)).
Proof.
  revert pre; induction rows as [|r rows IH]; intros pre Hs; simpl.
  - by rewrite app_nil_r.
  - apply andb_prop in Hs as [Hr Hs]. rewrite lire_step_abs by done. py_simpl.
    rewrite IH by done. by rewrite <-app_assoc.
Qed.

Lemma lire_step_ok st r : (∃ st', lire_step st r = Ok st') ↔ row_safe r = true.
Proof.
  unfold lire_step, row_safe.
  destruct (ligne_est_vide r) as [[]|e]; py_simpl; [naive_solver| |naive_solver].
  destruct (calculer_hash r); py_simpl; [|naive_solver]. case_decide; naive_solver.
Qed.

Lemma lire_rows_abs_nil rows :
  forallb row_safe rows = true → lire_rows lstate0 rows = Ok (abs_state rows).
Proof. intros Hs. rewrite <-abs_state_nil. by apply lire_rows_abs. Qed.

Lemma lire_rows_ok st rows :
  (∃ st', lire_rows st rows = Ok st') ↔ forallb row_safe rows = true.
Proof.
  revert st; induction rows as [|r rows IH]; intros st; simpl; [naive_solver|].
  rewrite andb_true_iff, <-(lire_step_ok st r).
  destruct (lire_step st r) as [st1|e]; py_simpl; rewrite ?IH; naive_solver.
Qed.

Lemma lire_rows_Ok rows st :
  lire_rows lstate0 rows = Ok st → forallb row_safe rows = true ∧ st = abs_state rows.
Proof.
  intros Hl. assert (Hs : forallb row_safe rows = true) by (apply (lire_rows_ok lstate0); eauto).
  split; [done|]. rewrite <-abs_state_nil, lire_rows_abs in Hl by done.
  by injection Hl as <-.
Qed.

Lemma row_fp_composants r1 r2 :
  composants r1 = composants r2 → row_fp r1 = row_fp r2.
Proof. unfold row_fp, calculer_hash. by intros ->. Qed.

Lemma get_str_raise r k e : get_str r k = Raise e → e = TypeError.
Proof. unfold get_str. by repeat case_match; intros [=]. Qed.

Lemma all_blank_app vs1 vs2 :
  all_blank vs1 = Ok true → all_blank (vs1 ++ vs2) = all_blank vs2.
Proof.
  induction vs1 as [|[s| |l] vs1 IH]; simpl; [done| |done|]; repeat case_decide; auto; done.
Qed.

Lemma all_blank_strs vs : (∀ x, x ∈ vs → ∃ s, x = CStr s) → ∃ b, all_blank vs = Ok b.
Proof.
  induction vs as [|x vs IH]; intros Hvs; simpl; [by eexists|].
  destruct (Hvs x) as [s ->]; [by left|].
  repeat case_decide; try (by eexists); apply IH; set_solver.
Qed.

Lemma all_blank_blank vs :
  (∀ x, x ∈ vs → ∃ s, x = CStr s ∧ py_strip s = []) → all_blank vs = Ok true.
Proof.
  induction vs as [|x vs IH]; intros Hvs; simpl; [done|].
  destruct (Hvs x) as (s & -> & Hs); [by left|].
  repeat case_decide; try done; apply IH; set_solver.
Qed.

Lemma lire_rows_app st rows1 rows2 :
  lire_rows st (rows1 ++ rows2) = (st' ← lire_rows st rows1; lire_rows st' rows2).
Proof.
  revert st; induction rows1 as [|r rows1 IH]; intros st; simpl; [done|].
  destruct (lire_step st r); py_simpl; [apply IH|done].
Qed.

Lemma lire_rows_safe_prefix rows1 rows2 :
  forallb row_safe rows1 = true →
  lire_rows lstate0 (rows1 ++ rows2) = lire_rows (abs_state rows1) rows2.
Proof. intros Hs. by rewrite lire_rows_app, lire_rows_abs_nil by done. Qed.

Lemma get_str_full fieldnames r k :
  length r = length fieldnames →
  ∃ s, get_str (dict_row fieldnames r) k = Ok s ∧ (s = [] ∨ s ∈ r).
Proof.
  intros Hl. unfold get_str. destruct (dict_get _ _) as [x|] eqn:Hx; [|by eexists; eauto].
  apply dict_get_elem, (dict_row_full _ _ _ Hl) in Hx as (s & -> & Hs). eauto.
Qed.

(** A record with as many cells as the header, of valid code points,
    never raises. *)
Lemma row_safe_full fieldnames r :
  length r = length fieldnames → Forall (λ s, forallb valid_char s = true) r →
  row_safe (dict_row fieldnames r) = true.
Proof.
  intros Hl Hv. unfold row_safe, ligne_est_vide.
  destruct (all_blank_strs (map snd (dict_row fieldnames r))) as [[] ->];
    [intros x (s & -> & _)%dict_row_full; eauto|done|].
  unfold calculer_hash, composants.
  destruct (mapM_Ok_intro (get_str (dict_row fieldnames r)) fingerprint_keys) as [parts Hp];
    [intros k _; destruct (get_str_full fieldnames r k Hl) as (s & -> & _); eauto|].
  rewrite Hp. py_simpl. rewrite utf8_encode_valid; [done|].
  apply valid_py_join; [done|].
  apply mapM_Ok in Hp. eapply Forall2_Forall_r; [exact Hp|].
  apply Forall_forall. intros k _ s Hk.
  destruct (get_str_full fieldnames r k Hl) as (s' & Hk' & [->| Hin]); rewrite Hk' in Hk;
    simplify_eq; [done|]. exact (Forall_elem _ _ _ Hv Hin).
Qed.

Lemma lire_csv_Ok records lignes d :
  lire_csv records = Ok (lignes, d) →
  forallb row_safe (dict_reader records) = true ∧
  lignes = dedup_spec row_blank row_fp (dict_reader records) ∧
  d = dups_spec row_blank row_fp (dict_reader records).
Proof.
  unfold lire_csv. destruct (lire_rows lstate0 _) as [st|e] eqn:Hl; py_simpl; [|done].
  intros [= <- <-]. apply lire_rows_Ok in Hl as [Hs ->]. done.
Qed.
End Impl.

(** ** Theorems *)

(** A header with the six fingerprint columns. *)
Definition header_example : list (list N) := fingerprint_keys.

Lemma composants_header_example a b c d e f :
  composants (dict_row header_example [a; b; c; d; e; f]) = Ok (py_join (py:"|") [a; b; c; d; e; f]).
Proof. reflexivity. Qed.

Lemma ligne_est_vide_header_example a b c d e f :
  ligne_est_vide (dict_row header_example [a; b; c; d; e; f]) = all_blank (map CStr [a; b; c; d; e; f]).
Proof. reflexivity. Qed.

Lemma all_blank_str s vs :
  all_blank (CStr s :: vs) = if decide (py_strip s = []) then all_blank vs else Ok false.
Proof. simpl. case_decide as Hs; [subst; by rewrite decide_True|done]. Qed.

Lemma py_strip_sep x y : py_strip (x ++ 124 :: y) ≠ [].
Proof.
  intros Hs. assert (Hk : 124%N ∈ py_strip (x ++ 124 :: y)) by (apply py_strip_keep; [set_solver|done]).
  rewrite Hs in Hk. set_solver.
Qed.

Lemma valid_sep x y :
  forallb valid_char x = true → forallb valid_char y = true → forallb valid_char (x ++ 124 :: y) = true.
Proof. intros Hx Hy. rewrite forallb_app. simpl. by rewrite Hx, Hy. Qed.


Section Theorems.
Context `{HexDigest}.

(** C1.  Refinement: when no row of the file raises, [lire_csv] returns
    exactly the rows of the specification (the first occurrence of each
    fingerprint among the non-blank rows, in input order) and the number
    of non-blank rows that have an earlier row with their fingerprint. *)
Theorem lire_csv_refines records :
  forallb row_safe (dict_reader records) = true →
  lire_csv records =
    Ok (dedup_spec row_blank row_fp (dict_reader records),
        dups_spec row_blank row_fp (dict_reader records)).
Proof. intros Hs. unfold lire_csv. by rewrite lire_rows_abs_nil. Qed.

(** C2.  First occurrence wins: when a non-blank row [r2] has the same
    fingerprint string as an earlier non-blank row [r1], whatever its
    other columns, the result is the one of the input without [r2], with
    one more duplicate counted. *)
Theorem lire_rows_first_wins pre r1 mid r2 post st :
  lire_rows lstate0 (pre ++ r1 :: mid ++ r2 :: post) = Ok st →
  row_blank r1 = false → row_blank r2 = false → composants r1 = composants r2 →
  ∃ st', lire_rows lstate0 (pre ++ r1 :: mid ++ post) = Ok st' ∧
         lignes st = lignes st' ∧ doublons st = S (doublons st').
Proof.
  intros (Hs & ->)%lire_rows_Ok B1 B2 Hc.
  destruct (dedup_spec_later_dup row_blank row_fp pre r1 mid r2 post) as [E1 E2];
    [done|done|by apply row_fp_composants|].
  exists (abs_state (pre ++ r1 :: mid ++ post)). split; [|done].
  apply lire_rows_abs_nil.
  revert Hs. rewrite !forallb_app. simpl. rewrite !forallb_app. simpl.
  rewrite !andb_true_iff. naive_solver.
Qed.

(** C3.  The kept rows are non-blank input rows in input order, and each
    non-blank row is either kept or counted in [doublons]: a blank row is
    never kept and never counted as a duplicate. *)
Theorem lire_rows_count rows st :
  lire_rows lstate0 rows = Ok st →
  sublist (lignes st) rows ∧ (∀ r, r ∈ lignes st → row_blank r = false) ∧
  (length (lignes st) + doublons st)%nat = length (filter (λ r, row_blank r = false) rows).
Proof.
  intros (Hs & ->)%lire_rows_Ok. simpl. split_and!.
  - apply select_sublist.
  - intros r. apply dedup_spec_nonblank.
  - apply dedup_dups_count.
Qed.

(** C4.  The kept rows have pairwise distinct digests, [hashes_vus] is
    exactly their set of digests, and every non-blank input row has its
    digest among them. *)
Theorem lire_rows_digests rows st :
  lire_rows lstate0 rows = Ok st →
  NoDup (map row_fp (lignes st)) ∧
  hashes_vus st = list_to_set (map row_fp (lignes st)) ∧
  (∀ r, r ∈ rows → row_blank r = false → row_fp r ∈ map row_fp (lignes st)).
Proof.
  intros (Hs & ->)%lire_rows_Ok. simpl. split_and!; [apply dedup_spec_NoDup|done|].
  intros r. apply dedup_spec_complete.
Qed.

(** C5.  Error paths: [lire_csv] returns normally exactly when every row
    of the reader is [row_safe]; otherwise it raises (and [main] writes
    nothing). *)
Theorem lire_csv_ok_iff records :
  (∃ res, lire_csv records = Ok res) ↔ forallb row_safe (dict_reader records) = true.
Proof.
  rewrite <-(lire_rows_ok lstate0). unfold lire_csv.
  destruct (lire_rows lstate0 _); py_simpl; naive_solver.
Qed.

(** C6.  A non-blank record shorter than the header that lacks one of
    the six fingerprint columns makes [lire_csv] raise [TypeError]: the
    [None] that [DictReader] puts there reaches ['|'.join].  The
    specification says that missing fields count as empty strings. *)
Theorem lire_csv_short_row fieldnames pre r post k :
  forallb row_safe (dict_reader (fieldnames :: pre)) = true →
  r ≠ [] → (length r < length fieldnames)%nat →
  k ∈ fingerprint_keys → k ∈ drop (length r) fieldnames →
  ligne_est_vide (dict_row fieldnames r) = Ok false →
  lire_csv (fieldnames :: pre ++ r :: post) = Raise TypeError.
Proof.
  intros Hs Hr Hl Hk Hkd Hv. unfold lire_csv.
  rewrite dict_reader_app, lire_rows_safe_prefix by done. simpl.
  unfold lire_step. rewrite Hv. py_simpl. unfold calculer_hash, composants.
  rewrite (mapM_Raise _ _ TypeError); [done|apply get_str_raise|].
  exists k. split; [done|]. exists TypeError. unfold get_str. by rewrite dict_row_short.
Qed.

(** C7.  A blank record with more cells than the header (a trailing
    comma) makes [ligne_est_vide] call [strip] on the list of surplus
    cells, so [lire_csv] raises [AttributeError] instead of skipping the
    blank row. *)
Theorem lire_csv_surplus_blank fieldnames pre r post :
  forallb row_safe (dict_reader (fieldnames :: pre)) = true →
  (length fieldnames < length r)%nat → Forall (λ s, py_strip s = []) r →
  lire_csv (fieldnames :: pre ++ r :: post) = Raise AttributeError.
Proof.
  intros Hs Hl Hb. assert (r ≠ []) by (intros ->; simpl in Hl; lia).
  unfold lire_csv. rewrite dict_reader_app, lire_rows_safe_prefix by done. simpl.
  unfold lire_step, ligne_est_vide. rewrite dict_row_long by done.
  rewrite all_blank_app.
  - simpl. rewrite decide_False; [done|]. intros Hd.
    apply (f_equal length) in Hd. rewrite length_drop in Hd. simpl in Hd. lia.
  - apply all_blank_blank. intros x (s & -> & Hin)%zip_dict_values.
    exists s. split; [done|]. exact (Forall_elem _ _ _ Hb Hin).
Qed.

(** C8.  A file whose records all have as many cells as the header (and
    hold valid code points, as any UTF-8 text does) never makes
    [lire_csv] raise. *)
Theorem lire_csv_wellformed fieldnames records :
  Forall (λ r, length r = length fieldnames) records →
  Forall (λ r, Forall (λ s, forallb valid_char s = true) r) records →
  ∃ res, lire_csv (fieldnames :: records) = Ok res.
Proof.
  intros Hl Hv. unfold lire_csv.
  destruct (proj2 (lire_rows_ok lstate0 (dict_reader (fieldnames :: records)))) as [st ->];
    [|by eexists].
  apply forallb_forall. intros row (r & -> & Hr)%list_elem_of_In%list_elem_of_fmap_1.
  apply list_elem_of_filter in Hr as [_ Hr].
  apply row_safe_full; [exact (Forall_elem _ _ _ Hl Hr)|exact (Forall_elem _ _ _ Hv Hr)].
Qed.

(** C9.  Swapping two adjacent rows that do not collide (one is blank,
    or their digests differ) only permutes the kept rows; the set of
    digests and the duplicate count are unchanged. *)
Theorem lire_rows_swap pre r1 r2 post st :
  lire_rows lstate0 (pre ++ r1 :: r2 :: post) = Ok st →
  ¬ (row_blank r1 = false ∧ row_blank r2 = false ∧ row_fp r1 = row_fp r2) →
  ∃ st', lire_rows lstate0 (pre ++ r2 :: r1 :: post) = Ok st' ∧
         lignes st' ≡ₚ lignes st ∧ hashes_vus st' = hashes_vus st ∧
         doublons st' = doublons st.
Proof.
  intros (Hs & ->)%lire_rows_Ok Hnc.
  destruct (dedup_spec_swap row_blank row_fp pre r1 r2 post Hnc) as [E1 E2].
  exists (abs_state (pre ++ r2 :: r1 :: post)). split_and!.
  - apply lire_rows_abs_nil. revert Hs. rewrite !forallb_app. simpl.
    rewrite !andb_true_iff. naive_solver.
  - simpl. by rewrite E1.
  - simpl. apply set_eq. intros x. rewrite !elem_of_list_to_set. by rewrite E1.
  - simpl. by rewrite E2.
Qed.

(** C10.  Deduplication is idempotent: running the loop again on the
    kept rows keeps them all, with the same digests, and counts no
    duplicate. *)
Theorem lire_rows_idempotent rows st :
  lire_rows lstate0 rows = Ok st →
  lire_rows lstate0 (lignes st) =
    Ok {| lignes := lignes st; hashes_vus := hashes_vus st; doublons := 0 |}.
Proof.
  intros (Hs & ->)%lire_rows_Ok. simpl. rewrite lire_rows_abs_nil.
  - unfold abs_state.
    destruct (dedup_spec_id row_blank row_fp (dedup_spec row_blank row_fp rows))
      as [-> ->]; [|apply dedup_spec_NoDup|done].
    apply Forall_forall. intros r. apply dedup_spec_nonblank.
  - apply forallb_forall. intros r Hr%list_elem_of_In.
    rewrite forallb_forall in Hs. apply Hs, list_elem_of_In.
    eapply elem_of_sublist; [exact Hr|apply select_sublist].
Qed.

(** C11.  The fingerprint separator is ambiguous.  Take any strings
    [x], [y], [z], [f3] ... [f6] of valid code points.  The records
    [x|y, z, f3, ..., f6] and [x, y|z, f3, ..., f6] are different rows
    with the same [composants], so [lire_csv] keeps the first and counts
    the second as a duplicate.  The specification says that two rows
    collide when their six fields are identical. *)
Theorem composants_collision x y z f3 f4 f5 f6 :
  Forall (λ s, forallb valid_char s = true) [x; y; z; f3; f4; f5; f6] →
  [x ++ 124 :: y; z; f3; f4; f5; f6] ≠ [x; y ++ 124 :: z; f3; f4; f5; f6] ∧
  composants (dict_row header_example [x ++ 124 :: y; z; f3; f4; f5; f6]) =
    composants (dict_row header_example [x; y ++ 124 :: z; f3; f4; f5; f6]) ∧
  lire_csv [header_example; [x ++ 124 :: y; z; f3; f4; f5; f6]; [x; y ++ 124 :: z; f3; f4; f5; f6]] =
    Ok ([dict_row header_example [x ++ 124 :: y; z; f3; f4; f5; f6]], 1%nat).
Proof.
  rewrite !Forall_cons. intros (Vx & Vy & Vz & V3 & V4 & V5 & V6 & _).
  set (ra := [x ++ 124 :: y; z; f3; f4; f5; f6]). set (rb := [x; y ++ 124 :: z; f3; f4; f5; f6]).
  assert (Hc : composants (dict_row header_example ra) = composants (dict_row header_example rb)).
  { subst ra rb. rewrite !composants_header_example. change (py:"|") with [124%N].
    rewrite !py_join_cons2, <-!app_assoc. reflexivity. }
  split; [|split; [done|]].
  { intros [= Hx]. apply (f_equal length) in Hx. rewrite length_app in Hx. simpl in Hx. lia. }
  assert (Ba : row_blank (dict_row header_example ra) = false).
  { unfold row_blank. subst ra. rewrite ligne_est_vide_header_example. cbn [map].
    by rewrite all_blank_str, decide_False by apply py_strip_sep. }
  assert (Bb : row_blank (dict_row header_example rb) = false).
  { unfold row_blank. subst rb. rewrite ligne_est_vide_header_example. cbn [map].
    rewrite all_blank_str. case_decide; [|done].
    by rewrite all_blank_str, decide_False by apply py_strip_sep. }
  destruct (dedup_spec_later_dup row_blank row_fp [] (dict_row header_example ra) []
              (dict_row header_example rb) [] Ba Bb (row_fp_composants _ _ Hc)) as [Hd Hn].
  unfold lire_csv. change (dict_reader _) with [dict_row header_example ra; dict_row header_example rb].
  rewrite lire_rows_abs_nil.
  - py_simpl. unfold abs_state; cbn [lignes doublons]. cbn [app] in Hd, Hn. rewrite Hd, Hn.
    unfold dedup_spec, dups_spec, select. simpl. by rewrite Ba.
  - simpl. rewrite (row_safe_full _ ra), (row_safe_full _ rb); [done|..]; try done;
      subst ra rb; repeat apply Forall_cons_2; auto using valid_sep.
Qed.
End Theorems.

(** ** Witnesses: the theorems applied to concrete files *)

(** A header with one more column than the fingerprint. *)
Definition header_dated : list (list N) := fingerprint_keys ++ [py:"#01 Date"].

Definition rec_m1 : list (list N) :=
  [py:"GK"; py:"M1"; py:"A,B"; py:"C"; py:"10-8"; py:"Team1"; py:"2024-01-06"].
Definition rec_m1_later : list (list N) :=
  [py:"GK"; py:"M1"; py:"A,B"; py:"C"; py:"10-8"; py:"Team1"; py:"2024-02-11"].
Definition rec_m2 : list (list N) :=
  [py:"LW"; py:"M2"; py:"D"; py:"E"; py:"9-9"; py:"Team2"; py:"2024-01-13"].
Definition rec_blank : list (list N) := [[]; py:"  "; []; []; []; []; []].

Definition rows_example : list row :=
  dict_reader [header_dated; rec_m1; rec_blank; rec_m1_later; rec_m2].

Lemma lire_csv_refines_witness :
  forallb row_safe (dict_reader [header_dated; rec_m1; rec_blank; rec_m1_later; rec_m2]) = true ∧
  lire_csv [header_dated; rec_m1; rec_blank; rec_m1_later; rec_m2] =
    Ok (dedup_spec row_blank row_fp rows_example, dups_spec row_blank row_fp rows_example).
Proof. split; [vm_compute; reflexivity|apply lire_csv_refines; vm_compute; reflexivity]. Defined.

Lemma lire_rows_first_wins_witness :
  ∃ st', lire_rows lstate0 ([] ++ dict_row header_dated rec_m1 :: [dict_row header_dated rec_blank] ++ [dict_row header_dated rec_m2]) = Ok st' ∧
    lignes (abs_state rows_example) = lignes st' ∧ doublons (abs_state rows_example) = S (doublons st').
Proof.
  apply (lire_rows_first_wins [] (dict_row header_dated rec_m1) [dict_row header_dated rec_blank]
           (dict_row header_dated rec_m1_later) [dict_row header_dated rec_m2]);
    vm_compute; reflexivity.
Defined.

Lemma lire_rows_count_witness :
  sublist (lignes (abs_state rows_example)) rows_example ∧
  (∀ r, r ∈ lignes (abs_state rows_example) → row_blank r = false) ∧
  (length (lignes (abs_state rows_example)) + doublons (abs_state rows_example))%nat =
    length (filter (λ r, row_blank r = false) rows_example).
Proof. apply lire_rows_count. vm_compute. reflexivity. Defined.

Lemma lire_rows_digests_witness :
  NoDup (map row_fp (lignes (abs_state rows_example))) ∧
  hashes_vus (abs_state rows_example) = list_to_set (map row_fp (lignes (abs_state rows_example))) ∧
  (∀ r, r ∈ rows_example → row_blank r = false →
        row_fp r ∈ map row_fp (lignes (abs_state rows_example))).
Proof. apply lire_rows_digests. vm_compute. reflexivity. Defined.

(** A record that stops after two cells: [Nom] and the others are
    missing. *)
Definition rec_short : list (list N) := [py:"GK"; py:"M3"].

Lemma lire_csv_short_row_witness :
  lire_csv (header_dated :: [rec_m1] ++ rec_short :: [rec_m2]) = Raise TypeError.
Proof.
  apply (lire_csv_short_row header_dated [rec_m1] rec_short [rec_m2] (py:"Nom"));
    vm_compute; try reflexivity; try congruence.
  - lia.
  - repeat constructor.
  - repeat constructor.
Defined.

(** A blank record with a trailing separator: eight empty cells. *)
Definition rec_blank_wide : list (list N) := [[]; []; []; []; []; []; []; []].

Lemma lire_csv_surplus_blank_witness :
  lire_csv (header_dated :: [rec_m1] ++ rec_blank_wide :: [rec_m2]) = Raise AttributeError.
Proof.
  apply lire_csv_surplus_blank; [vm_compute; reflexivity|simpl; lia|repeat constructor].
Defined.

Lemma lire_csv_wellformed_witness :
  ∃ res, lire_csv (header_dated :: [rec_m1; rec_blank; rec_m1_later; rec_m2]) = Ok res.
Proof. apply lire_csv_wellformed; repeat constructor. Defined.

Lemma lire_rows_swap_witness :
  ∃ st', lire_rows lstate0 ([dict_row header_dated rec_m1] ++ dict_row header_dated rec_m2 ::
                            dict_row header_dated rec_blank :: [dict_row header_dated rec_m1_later]) = Ok st' ∧
    lignes st' ≡ₚ lignes (abs_state rows_example) ∧
    hashes_vus st' = hashes_vus (abs_state rows_example) ∧
    doublons st' = doublons (abs_state rows_example).
Proof.
  apply (lire_rows_swap [dict_row header_dated rec_m1] (dict_row header_dated rec_blank)
           (dict_row header_dated rec_m2) [dict_row header_dated rec_m1_later]).
  - vm_compute. reflexivity.
  - vm_compute. intros (? & _). discriminate.
Defined.

Lemma lire_rows_idempotent_witness :
  lire_rows lstate0 (lignes (abs_state rows_example)) =
    Ok {| lignes := lignes (abs_state rows_example);
          hashes_vus := hashes_vus (abs_state rows_example); doublons := 0 |}.
Proof. apply (lire_rows_idempotent rows_example). vm_compute. reflexivity. Defined.

Lemma composants_collision_witness :
  [py:"GK" ++ 124 :: py:"1"; []; py:"A,B"; py:"C"; py:"10-8"; py:"Team1"] ≠
    [py:"GK"; py:"1" ++ 124 :: []; py:"A,B"; py:"C"; py:"10-8"; py:"Team1"] ∧
  composants (dict_row header_example [py:"GK" ++ 124 :: py:"1"; []; py:"A,B"; py:"C"; py:"10-8"; py:"Team1"]) =
    composants (dict_row header_example [py:"GK"; py:"1" ++ 124 :: []; py:"A,B"; py:"C"; py:"10-8"; py:"Team1"]) ∧
  lire_csv [header_example; [py:"GK" ++ 124 :: py:"1"; []; py:"A,B"; py:"C"; py:"10-8"; py:"Team1"];
            [py:"GK"; py:"1" ++ 124 :: []; py:"A,B"; py:"C"; py:"10-8"; py:"Team1"]] =
    Ok ([dict_row header_example [py:"GK" ++ 124 :: py:"1"; []; py:"A,B"; py:"C"; py:"10-8"; py:"Team1"]], 1%nat).
Proof. apply composants_collision. apply (bool_decide_unpack _). vm_compute. exact I. Defined.
