(* ===== verification/Json.v ===== *)
(** * [json.dumps(obj, indent=2, ensure_ascii=False)]

    Both scripts serialize with Python's [json] module:
    [generer_data_js] (src/generer-data-js.py, line 72) dumps the kept
    rows, and the indexer (src/generer-index.py, lines 81 and 92) dumps
    each [index.json] and the global map.  This file models the encoder of
    CPython's [json.encoder] for the values these scripts produce: [None],
    non-negative integers, strings, lists and dicts (in insertion order),
    with [indent=2] (a comma between items, a colon and a space between a
    key and its value) and [ensure_ascii=False] (non-ASCII code points are
    written as they are; only the double quote, the backslash and the
    control characters below 0x20 are escaped).

    It also holds the decoder of JSON string literals and the round trip
    between the two, the chunks that [json.dump] writes one by one, and
    the fact that the text of a value whose strings encode in UTF-8
    encodes too. *)

From S2P Require Import Prelude Utf8.
From Stdlib Require Import DecimalString.

(** The values the scripts serialize.  The [Scheme All] of [Prelude] give
    [json_ind] an induction hypothesis for the items of lists and dicts. *)
Inductive json :=
  | JNull
  | JInt (n : N)
  | JStr (s : list N)
  | JArr (l : list json)
  | JObj (kv : list (list N * json)).

(** ** Strings *)

Definition hex_digit (d : N) : N := if d <? 10 then 48 + d else 87 + d.

(** [format(c, '04x')]: four lower-case hex digits. *)
Definition hex4 (c : N) : list N :=
  [hex_digit (c / 4096 mod 16); hex_digit (c / 256 mod 16);
   hex_digit (c / 16 mod 16); hex_digit (c mod 16)].

(** [ESCAPE_DCT] of [json.encoder]: a backslash and one letter for the
    double quote (34), the backslash (92), backspace, form feed, line
    feed, carriage return and tab; a backslash, [u] and four lower-case
    hex digits for the other control characters; any other code point is
    kept. *)
Definition escape_char (c : N) : list N :=
  if c =? 34 then [92; 34]
  else if c =? 92 then [92; 92]
  else if c =? 8 then [92; 98]
  else if c =? 12 then [92; 102]
  else if c =? 10 then [92; 110]
  else if c =? 13 then [92; 114]
  else if c =? 9 then [92; 116]
  else if c <? 32 then [92; 117] ++ hex4 c
  else [c].

(** [py_encode_basestring(s)]: the literal between double quotes. *)
Definition json_str (s : list N) : list N := [34] ++ (s ≫= escape_char) ++ [34].

(** [int.__repr__] on a non-negative integer. *)
Fixpoint uint_chars (d : Decimal.uint) : list N :=
  match d with
  | Decimal.Nil => []
  | Decimal.D0 d => 48 :: uint_chars d
  | Decimal.D1 d => 49 :: uint_chars d
  | Decimal.D2 d => 50 :: uint_chars d
  | Decimal.D3 d => 51 :: uint_chars d
  | Decimal.D4 d => 52 :: uint_chars d
  | Decimal.D5 d => 53 :: uint_chars d
  | Decimal.D6 d => 54 :: uint_chars d
  | Decimal.D7 d => 55 :: uint_chars d
  | Decimal.D8 d => 56 :: uint_chars d
  | Decimal.D9 d => 57 :: uint_chars d
  end.

Definition int_repr (n : N) : list N := uint_chars (N.to_uint n).

(** ** The encoder with [indent=2] *)

(** [newline_indent] at a nesting level: a line feed and two spaces per level. *)
Definition newline_indent (lvl : nat) : list N := 10 :: repeat 32 (2 * lvl).

(** [_iterencode] at nesting level [lvl]: [_iterencode_list] and
    [_iterencode_dict] open a new level, put each item on its own line,
    separate items with a comma and close on a line of the outer level; an
    empty list or dict is written as its two brackets. *)
Fixpoint dumps_at (lvl : nat) (j : json) : list N :=
  match j with
  | JNull => py:"null"
  | JInt n => int_repr n
  | JStr s => json_str s
  | JArr [] => py:"[]"
  | JArr l =>
      [91] ++ newline_indent (S lvl) ++
      py_join (44 :: newline_indent (S lvl)) (map (dumps_at (S lvl)) l) ++
      newline_indent lvl ++ [93]
  | JObj [] => py:"{}"
  | JObj kv =>
      [123] ++ newline_indent (S lvl) ++
      py_join (44 :: newline_indent (S lvl))
        (map (λ kv, json_str kv.1 ++ py:": " ++ dumps_at (S lvl) kv.2) kv) ++
      newline_indent lvl ++ [125]
  end.

(** [json.dumps(obj, indent=2, ensure_ascii=False)]. *)
Definition dumps (j : json) : list N := dumps_at 0 j.

(** ** Decoding a string literal

    The reader of the generated files ([JSON.parse], or the JavaScript
    parser for [data.js]) decodes each literal; this is the decoder of the
    JSON grammar for the body of a string, after its opening quote. *)

Definition hex_val (h : N) : option N :=
  if (48 <=? h) && (h <=? 57) then Some (h - 48)
  else if (97 <=? h) && (h <=? 102) then Some (h - 87)
  else if (65 <=? h) && (h <=? 70) then Some (h - 55)
  else None.

Definition simple_escape (c : N) : option N :=
  if c =? 34 then Some 34 else if c =? 92 then Some 92 else if c =? 47 then Some 47
  else if c =? 98 then Some 8 else if c =? 102 then Some 12 else if c =? 110 then Some 10
  else if c =? 114 then Some 13 else if c =? 116 then Some 9 else None.

(** The body of a literal up to its closing quote: the decoded string and
    what follows the quote.  Raw control characters are refused. *)
Fixpoint parse_str_body (s : list N) : option (list N * list N) :=
  match s with
  | [] => None
  | c :: rest =>
      if c =? 34 then Some ([], rest)
      else if c =? 92 then
        match rest with
        | [] => None
        | e :: rest1 =>
            if e =? 117 then
              match rest1 with
              | h1 :: h2 :: h3 :: h4 :: rest2 =>
                  match hex_val h1, hex_val h2, hex_val h3, hex_val h4 with
                  | Some d1, Some d2, Some d3, Some d4 =>
                      '(body, rest') ← parse_str_body rest2;
                      Some ((d1 * 4096 + d2 * 256 + d3 * 16 + d4) :: body, rest')
                  | _, _, _, _ => None
                  end
              | _ => None
              end
            else
              match simple_escape e with
              | Some c' => '(body, rest') ← parse_str_body rest1; Some (c' :: body, rest')
              | None => None
              end
        end
      else if c <? 32 then None
      else '(body, rest') ← parse_str_body rest; Some (c :: body, rest')
  end.

Definition parse_str (s : list N) : option (list N * list N) :=
  match s with 34 :: rest => parse_str_body rest | _ => None end.

Lemma hex_val_digit d : d < 16 → hex_val (hex_digit d) = Some d.
Proof.
  intros Hd. unfold hex_val, hex_digit.
  destruct (N.ltb_spec d 10); N_cond_simpl; f_equal; lia.
Qed.

Lemma parse_escape_char c rest :
  parse_str_body (escape_char c ++ rest) =
    '(body, r) ← parse_str_body rest; Some (c :: body, r).
Proof.
  unfold escape_char.
  destruct (N.eqb_spec c 34) as [->|H34]; [done|].
  destruct (N.eqb_spec c 92) as [->|H92]; [done|].
  destruct (N.eqb_spec c 8) as [->|H8]; [done|].
  destruct (N.eqb_spec c 12) as [->|H12]; [done|].
  destruct (N.eqb_spec c 10) as [->|H10]; [done|].
  destruct (N.eqb_spec c 13) as [->|H13]; [done|].
  destruct (N.eqb_spec c 9) as [->|H9]; [done|].
  destruct (N.ltb_spec c 32) as [Hc|Hc].
  - unfold hex4. cbn [app parse_str_body]. N_cond_simpl.
    rewrite !hex_val_digit by div_lia.
    destruct (parse_str_body rest) as [[b r]|]; [|done]. simpl.
    do 3 f_equal. div_lia.
  - cbn [app parse_str_body]. N_cond_simpl. done.
Qed.

(** Decoding a literal written by [json.dumps] gives back the string, and
    stops right after its closing quote. *)
Lemma parse_json_str s rest : parse_str (json_str s ++ rest) = Some (s, rest).
Proof.
  unfold parse_str, json_str. cbn [app].
  induction s as [|c s IH]; [done|].
  rewrite bind_cons, <-app_assoc, <-app_assoc, parse_escape_char, app_assoc, IH. done.
Qed.

(** ** The chunks of [json.dump]

    [json.dump(obj, fp, indent=2, ...)] does not build the text first: it
    writes, one [fp.write] call each, the chunks that the pure-Python
    [_make_iterencode] yields (the C encoder is not used when [indent] is
    set).  A scalar item of a list is yielded with its prefix ([buf]);
    a key, the key separator and a scalar value of a dict are three
    separate chunks; a nested container is yielded after its prefix. *)

Definition scalar_chunk (j : json) : option (list N) :=
  match j with
  | JNull => Some (py:"null")
  | JInt n => Some (int_repr n)
  | JStr s => Some (json_str s)
  | _ => None
  end.

Fixpoint iterencode_at (lvl : nat) (j : json) : list (list N) :=
  match j with
  | JNull => [py:"null"]
  | JInt n => [int_repr n]
  | JStr s => [json_str s]
  | JArr [] => [py:"[]"]
  | JArr (x :: xs) =>
      let item buf x :=
        match scalar_chunk x with
        | Some c => [buf ++ c]
        | None => buf :: iterencode_at (S lvl) x
        end in
      item ([91] ++ newline_indent (S lvl)) x ++
      flat_map (item (44 :: newline_indent (S lvl))) xs ++ [newline_indent lvl; [93]]
  | JObj [] => [py:"{}"]
  | JObj (kv :: kvs) =>
      let value v :=
        match scalar_chunk v with
        | Some c => [c]
        | None => iterencode_at (S lvl) v
        end in
      [[123]; newline_indent (S lvl)] ++
      (json_str kv.1 :: py:": " :: value kv.2) ++
      flat_map (λ kv, (44 :: newline_indent (S lvl)) :: json_str kv.1 :: py:": " :: value kv.2) kvs ++
      [newline_indent lvl; [125]]
  end.

Definition iterencode (j : json) : list (list N) := iterencode_at 0 j.

Lemma scalar_chunk_dumps j c lvl : scalar_chunk j = Some c → dumps_at lvl j = c.
Proof. destruct j; simpl; congruence. Qed.

Lemma list_all_prod_snd (P : json → Prop) (l : list (list N * json)) kv :
  list_all _ (prod_all (list N) (λ _, unit) json P) l → kv ∈ l → P kv.2.
Proof.
  intros Hl. induction Hl as [|x Hx l _ IH]; intros Hin; [set_solver|].
  apply elem_of_cons in Hin as [->|Hin]; [by destruct Hx|auto].
Qed.

(** Induction with a hypothesis for every item of a list and every value
    of a dict. *)
Lemma json_elem_ind (P : json → Prop) :
  P JNull → (∀ n, P (JInt n)) → (∀ s, P (JStr s)) →
  (∀ l, (∀ x, x ∈ l → P x) → P (JArr l)) →
  (∀ kv, (∀ k v, (k, v) ∈ kv → P v) → P (JObj kv)) →
  ∀ j, P j.
Proof.
  intros Hn Hi Hs Ha Ho j. induction j as [| | |l IH|kv IH] using json_ind; auto.
  - apply Ha. intros x Hx. exact (list_all_elem _ _ _ IH Hx).
  - apply Ho. intros k v Hkv. exact (list_all_prod_snd _ _ (k, v) IH Hkv).
Qed.

Section Chunks.
Context (lvl : nat) (P : json → Prop).
Context (IH : ∀ j, P j → concat (iterencode_at (S lvl) j) = dumps_at (S lvl) j).

(** The chunks of one item, with its prefix, make the prefix and the
    item's text. *)
Lemma concat_item buf j :
  P j →
  concat (match scalar_chunk j with
          | Some c => [buf ++ c]
          | None => buf :: iterencode_at (S lvl) j end) = buf ++ dumps_at (S lvl) j.
Proof.
  intros Hj. destruct (scalar_chunk j) eqn:Hs; simpl.
  - rewrite app_nil_r. by erewrite scalar_chunk_dumps.
  - by rewrite IH.
Qed.

Lemma concat_value j :
  P j →
  concat (match scalar_chunk j with
          | Some c => [c]
          | None => iterencode_at (S lvl) j end) = dumps_at (S lvl) j.
Proof. intros Hj. destruct (scalar_chunk j) eqn:Hs; simpl; [|by apply IH].
  rewrite app_nil_r. by erewrite scalar_chunk_dumps. Qed.
End Chunks.

Lemma concat_flat_map {A} (f : A → list (list N)) (g : A → list N) l :
  (∀ x, x ∈ l → concat (f x) = g x) → concat (flat_map f l) = l ≫= g.
Proof.
  induction l as [|x l IH]; intros Hfg; simpl; [done|].
  by rewrite concat_app, Hfg, IH by set_solver.
Qed.

Lemma bind_map {A} (f : A → list N) (sep : list N) l :
  map f l ≫= (λ q, sep ++ q) = l ≫= (λ x, sep ++ f x).
Proof. induction l as [|x l IH]; [done|]. cbn [map]. by rewrite !bind_cons, IH. Qed.

(** What [json.dump] writes, chunk after chunk, is [json.dumps] of the
    same value with the same options. *)
Lemma iterencode_at_dumps lvl j : concat (iterencode_at lvl j) = dumps_at lvl j.
Proof.
  revert lvl; induction j as [| | |l IH|kv IH] using json_ind; intros lvl; try (cbn [iterencode_at dumps_at concat]; by rewrite app_nil_r).
  - destruct l as [|x xs]; [done|]. cbn [iterencode_at dumps_at map].
    assert (Hl : ∀ j, j ∈ x :: xs → (∀ lvl, concat (iterencode_at lvl j) = dumps_at lvl j))
      by (intros j Hj; exact (list_all_elem _ _ _ IH Hj)).
    rewrite !concat_app, (concat_item lvl (λ j, j ∈ x :: xs)) by (auto || set_solver).
    rewrite (concat_flat_map _ (λ y, (44 :: newline_indent (S lvl)) ++ dumps_at (S lvl) y))
      by (intros y Hy; apply (concat_item lvl (λ j, j ∈ x :: xs)); auto; set_solver).
    unfold py_join. rewrite bind_map. simpl. by rewrite <-!app_assoc.
  - destruct kv as [|[k v] kvs]; [done|]. cbn [iterencode_at dumps_at map].
    assert (Hl : ∀ kv', kv' ∈ (k, v) :: kvs → (∀ lvl, concat (iterencode_at lvl kv'.2) = dumps_at lvl kv'.2))
      by (intros kv' Hkv; exact (list_all_prod_snd _ _ _ IH Hkv)).
    rewrite !concat_app.
    rewrite (concat_flat_map _ (λ kv, (44 :: newline_indent (S lvl)) ++
                                     json_str kv.1 ++ py:": " ++ dumps_at (S lvl) kv.2))
      by (intros [k' v'] Hkv; cbn [concat]; rewrite (concat_value lvl (λ j, j ∈ map snd ((k, v) :: kvs)));
          [by rewrite <-?app_assoc|intros j (kv' & -> & ?)%list_elem_of_fmap; auto|];
          apply list_elem_of_fmap; exists (k', v'); split; [done|by right]).
    cbn [concat]. rewrite (concat_value lvl (λ j, j ∈ map snd ((k, v) :: kvs)));
      [|intros j (kv' & -> & ?)%list_elem_of_fmap; auto|by left].
    unfold py_join. rewrite bind_map. simpl. by rewrite <-!app_assoc.
Qed.

(** [json.dump(obj, f, ...)] writes [json.dumps(obj, ...)]. *)
Lemma iterencode_dumps j : concat (iterencode j) = dumps j.
Proof. apply iterencode_at_dumps. Qed.

(** ** The text of a value encodes in UTF-8 *)

(** Every string of the value, keys included, holds valid code points. *)
Fixpoint json_ok (j : json) : bool :=
  match j with
  | JNull | JInt _ => true
  | JStr s => forallb valid_char s
  | JArr l => forallb json_ok l
  | JObj kv => forallb (λ kv, forallb valid_char kv.1 && json_ok kv.2) kv
  end.

Lemma valid_char_ascii c : c < 128 → valid_char c = true.
Proof. intros Hc. unfold valid_char. N_cond_simpl. done. Qed.

Lemma valid_repeat_space k : forallb valid_char (repeat 32 k) = true.
Proof. induction k; simpl; auto. Qed.

Lemma valid_newline_indent lvl : forallb valid_char (newline_indent lvl) = true.
Proof. apply valid_repeat_space. Qed.

Lemma valid_escape_char c : forallb valid_char (escape_char c) = valid_char c.
Proof.
  unfold escape_char.
  repeat match goal with |- context [if ?c =? ?k then _ else _] =>
    destruct (N.eqb_spec c k) as [->|]; [reflexivity|] end.
  destruct (N.ltb_spec c 32) as [Hc|Hc].
  - rewrite (valid_char_ascii c) by lia. unfold hex4, hex_digit. simpl.
    rewrite !valid_char_ascii; [done|..]; case_match; rewrite ?N.ltb_lt, ?N.ltb_ge in *; div_lia.
  - simpl. by rewrite andb_true_r.
Qed.

Lemma valid_json_str s : forallb valid_char (json_str s) = forallb valid_char s.
Proof.
  unfold json_str. rewrite !forallb_app. simpl. rewrite andb_true_r.
  induction s as [|c s IH]; [done|]. by rewrite bind_cons, forallb_app, valid_escape_char, IH.
Qed.

Lemma valid_int_repr n : forallb valid_char (int_repr n) = true.
Proof. unfold int_repr. induction (N.to_uint n); simpl; auto. Qed.

Lemma forallb_py_join (f : N → bool) sep parts :
  forallb f sep = true → forallb f (py_join sep parts) = forallb (forallb f) parts.
Proof.
  intros Hs. destruct parts as [|q qs]; [done|]. unfold py_join. simpl. rewrite forallb_app.
  f_equal. induction qs as [|r qs IH]; [done|]. by rewrite bind_cons, !forallb_app, Hs, IH.
Qed.

Lemma forallb_map_ext {A B} (f : B → bool) (g : A → B) (h : A → bool) l :
  (∀ x, x ∈ l → f (g x) = h x) → forallb f (map g l) = forallb h l.
Proof.
  induction l as [|x l IH]; intros Hx; simpl; [done|].
  rewrite Hx, IH by set_solver. done.
Qed.

(** The text of a value holds a lone surrogate exactly when one of its
    strings does. *)
Lemma valid_dumps_at_iff lvl j : forallb valid_char (dumps_at lvl j) = json_ok j.
Proof.
  revert lvl; induction j as [| |s|l IH|kv IH] using json_ind; intros lvl.
  - done.
  - apply valid_int_repr.
  - apply valid_json_str.
  - destruct l as [|x xs]; [done|]. cbn [dumps_at].
    rewrite !forallb_app, !valid_newline_indent, forallb_py_join
      by (cbn [forallb]; by rewrite valid_newline_indent).
    cbn [forallb]. rewrite (valid_char_ascii 91), (valid_char_ascii 93) by lia.
    cbn [andb json_ok]. rewrite andb_true_r.
    apply forallb_map_ext. intros y Hy. exact (list_all_elem _ _ _ IH Hy (S lvl)).
  - destruct kv as [|[k v] kvs]; [done|]. cbn [dumps_at].
    rewrite !forallb_app, !valid_newline_indent, forallb_py_join
      by (cbn [forallb]; by rewrite valid_newline_indent).
    cbn [forallb]. rewrite (valid_char_ascii 123), (valid_char_ascii 125) by lia.
    cbn [andb json_ok]. rewrite andb_true_r.
    apply forallb_map_ext. intros [k' v'] Hz. cbn [fst snd].
    rewrite !forallb_app, valid_json_str. change (forallb valid_char (py:": ")) with true. cbn [andb].
    by rewrite (list_all_prod_snd _ _ _ IH Hz (S lvl) : forallb valid_char (dumps_at (S lvl) v') = _).
Qed.

Lemma valid_dumps_at lvl j : json_ok j = true → forallb valid_char (dumps_at lvl j) = true.
Proof. by rewrite valid_dumps_at_iff. Qed.

(** ** The text of a value in a file opened in text mode

    [dumps_nl nl] is [dumps_at] with the line feed of each new line of
    the layout written as [nl]: since the literals hold no raw line feed
    ([escape_char] writes it as a backslash and [n]), it is what a
    text-mode write of [json.dumps] puts in a file whose line separator is
    [nl] ([traduire_nl_dumps_at]). *)
Definition newline_indent_nl (nl : list N) (lvl : nat) : list N := nl ++ repeat 32 (2 * lvl).

Fixpoint dumps_nl (nl : list N) (lvl : nat) (j : json) : list N :=
  match j with
  | JNull => py:"null"
  | JInt n => int_repr n
  | JStr s => json_str s
  | JArr [] => py:"[]"
  | JArr l =>
      [91] ++ newline_indent_nl nl (S lvl) ++
      py_join (44 :: newline_indent_nl nl (S lvl)) (map (dumps_nl nl (S lvl)) l) ++
      newline_indent_nl nl lvl ++ [93]
  | JObj [] => py:"{}"
  | JObj kv =>
      [123] ++ newline_indent_nl nl (S lvl) ++
      py_join (44 :: newline_indent_nl nl (S lvl))
        (map (λ kv, json_str kv.1 ++ py:": " ++ dumps_nl nl (S lvl) kv.2) kv) ++
      newline_indent_nl nl lvl ++ [125]
  end.

Lemma escape_char_no_lf c : Forall (λ x, x ≠ 10) (escape_char c).
Proof.
  unfold escape_char.
  repeat match goal with |- context [if ?c =? ?k then _ else _] =>
    destruct (N.eqb_spec c k) as [->|]; [repeat constructor; lia|] end.
  destruct (N.ltb_spec c 32) as [Hc|Hc]; [|repeat constructor; lia].
  unfold hex4, hex_digit. repeat constructor. all: try lia.
  all: match goal with |- context [if ?b then _ else _] => destruct b end; div_lia.
Qed.

Lemma json_str_no_lf s : Forall (λ x, x ≠ 10) (json_str s).
Proof.
  unfold json_str. apply Forall_app; split; [repeat constructor; lia|].
  apply Forall_app; split; [|repeat constructor; lia].
  induction s as [|c s IH]; [constructor|]. rewrite bind_cons. apply Forall_app. split; [apply escape_char_no_lf|done].
Qed.

Lemma int_repr_no_lf n : Forall (λ x, x ≠ 10) (int_repr n).
Proof. unfold int_repr. induction (N.to_uint n); simpl; constructor; done || lia. Qed.

Lemma traduire_nl_newline_indent nl lvl : traduire_nl nl (newline_indent lvl) = newline_indent_nl nl lvl.
Proof.
  change (newline_indent lvl) with ([10] ++ repeat 32 (2 * lvl)).
  rewrite traduire_nl_app, (traduire_nl_no_lf nl (repeat _ _)); [by rewrite traduire_nl_cons, app_nil_r|].
  apply Forall_forall. intros x ->%list_elem_of_In%repeat_spec. done.
Qed.

Lemma traduire_nl_py_join nl sep parts :
  traduire_nl nl (py_join sep parts) = py_join (traduire_nl nl sep) (map (traduire_nl nl) parts).
Proof.
  destruct parts as [|p ps]; [done|]. unfold py_join. cbn [map]. rewrite traduire_nl_app. f_equal.
  induction ps as [|q ps IH]; [done|]. cbn [map]. by rewrite !bind_cons, !traduire_nl_app, IH.
Qed.

(** The text-mode write of [json.dumps] at any nesting level. *)
Lemma traduire_nl_dumps_at nl lvl j : traduire_nl nl (dumps_at lvl j) = dumps_nl nl lvl j.
Proof.
  revert lvl; induction j as [|n|s|l IH|kv IH] using json_ind; intros lvl.
  - done.
  - apply traduire_nl_no_lf, int_repr_no_lf.
  - apply traduire_nl_no_lf, json_str_no_lf.
  - destruct l as [|x xs]; [done|]. cbn [dumps_at dumps_nl].
    change (44 :: newline_indent (S lvl)) with ([44] ++ newline_indent (S lvl)).
    rewrite !traduire_nl_app, traduire_nl_py_join, !traduire_nl_app, !traduire_nl_newline_indent, map_map.
    rewrite (traduire_nl_no_lf nl [91]), (traduire_nl_no_lf nl [93]), (traduire_nl_no_lf nl [44])
      by (repeat constructor; lia).
    do 4 f_equal. apply map_ext_in. intros y Hy%list_elem_of_In.
    exact (list_all_elem _ _ _ IH Hy (S lvl)).
  - destruct kv as [|[k v] kvs]; [done|]. cbn [dumps_at dumps_nl].
    change (44 :: newline_indent (S lvl)) with ([44] ++ newline_indent (S lvl)).
    rewrite !traduire_nl_app, traduire_nl_py_join, !traduire_nl_app, !traduire_nl_newline_indent, map_map.
    rewrite (traduire_nl_no_lf nl [123]), (traduire_nl_no_lf nl [125]), (traduire_nl_no_lf nl [44])
      by (repeat constructor; lia).
    do 4 f_equal. apply map_ext_in. intros [k' v'] Hz%list_elem_of_In.
    cbn [fst snd]. rewrite !traduire_nl_app, (traduire_nl_no_lf nl (json_str k')) by apply json_str_no_lf.
    rewrite (traduire_nl_no_lf nl (py:": ")) by (apply (bool_decide_unpack _); vm_compute; exact I).
    by rewrite (list_all_prod_snd _ _ _ IH Hz (S lvl) : traduire_nl nl (dumps_at (S lvl) v') = _).
Qed.

Lemma dumps_nl_lf lvl j : dumps_nl [10] lvl j = dumps_at lvl j.
Proof. by rewrite <-traduire_nl_dumps_at, traduire_nl_lf. Qed.
