(* ===== verification/JsonParse.v ===== *)
(** * Reading the generated JSON back: the reader of the web page

    The files the scripts write are read by the web page: [index.json]
    with [JSON.parse], [data.js] and [photos-index.js] as scripts whose
    right-hand side is a JSON literal.  This file holds a reader for the
    JSON grammar restricted to the values of [Json.json] ([null],
    non-negative integers, strings, arrays, objects), written as a
    recursive-descent parser indexed by fuel: a result is a value with the
    rest of the input, a syntax error, or [PFuel] when the fuel ran out.

    The theorems: the parser reads back what [json.dumps] writes, at any
    nesting level and followed by any text that does not extend a number
    ([parse_value_dumps]), so [parse_json] inverts [json.dumps] and
    [json.dump] (C28), and still does when every line break of the text
    is replaced by other white space, as the newline translation of a
    text-mode file on Windows does ([parse_json_dumps_nl],
    [parse_json_linesep]); and it never runs out of fuel when it is given more
    than the length of its input ([parse_value_total]): every step consumes
    input ([shrinks]).  The fuel is an upper bound on the nesting depth,
    and a value of [json_size] [n] is written with at least [n]
    characters ([size_le_dumps]). *)

From S2P Require Import Prelude Utf8 Json.
From Stdlib Require Import DecimalFacts DecimalN DecimalPos.

(** ** The parser *)

Inductive presult (A : Type) :=
  | PDone (a : A) (rest : list N)
  | PFail
  | PFuel.
Arguments PDone {A}.
Arguments PFail {A}.
Arguments PFuel {A}.

(** JSON white space: space, tab, line feed, carriage return. *)
Definition is_ws (c : N) : bool := (c =? 32) || (c =? 9) || (c =? 10) || (c =? 13).

Fixpoint skip_ws (s : list N) : list N :=
  match s with
  | c :: s' => if is_ws c then skip_ws s' else s
  | [] => []
  end.

Definition is_digit (c : N) : bool := (48 <=? c) && (c <=? 57).

(** The longest run of digits at the head of the input. *)
Fixpoint parse_digits (s : list N) : list N * list N :=
  match s with
  | c :: s' => if is_digit c then let '(ds, r) := parse_digits s' in (c :: ds, r) else ([], s)
  | [] => ([], [])
  end.

Definition digits_value (acc : N) (ds : list N) : N := foldl (λ a d, a * 10 + (d - 48)) acc ds.

(** A non-negative integer: [0], or a non-zero digit and more digits. *)
Definition parse_number (s : list N) : option (N * list N) :=
  match s with
  | [] => None
  | c :: r =>
      if c =? 48 then Some (0, r)
      else
        let '(ds, r') := parse_digits s in
        match ds with [] => None | _ => Some (digits_value 0 ds, r') end
  end.

(** The items of an array after its opening bracket, with the parser of
    values [pv]: a value, then a comma and more, or the closing bracket. *)
Fixpoint elems_loop (pv : list N → presult json) (g : nat) (acc : list json) (s : list N)
  : presult json :=
  match g with
  | O => PFuel
  | S g' =>
      match pv s with
      | PDone v r =>
          match skip_ws r with
          | c :: r' =>
              if c =? 44 then elems_loop pv g' (acc ++ [v]) r'
              else if c =? 93 then PDone (JArr (acc ++ [v])) r'
              else PFail
          | [] => PFail
          end
      | PFail => PFail
      | PFuel => PFuel
      end
  end.

(** The members of an object after its opening brace: a string, a colon,
    a value, then a comma and more, or the closing brace. *)
Fixpoint members_loop (pv : list N → presult json) (g : nat) (acc : list (list N * json))
    (s : list N) : presult json :=
  match g with
  | O => PFuel
  | S g' =>
      match skip_ws s with
      | q :: r =>
          if negb (q =? 34) then PFail else
          match parse_str_body r with
          | Some (k, r1) =>
              match skip_ws r1 with
              | c :: r2 =>
                  if negb (c =? 58) then PFail else
                  match pv r2 with
                  | PDone v r3 =>
                      match skip_ws r3 with
                      | d :: r4 =>
                          if d =? 44 then members_loop pv g' (acc ++ [(k, v)]) r4
                          else if d =? 125 then PDone (JObj (acc ++ [(k, v)])) r4
                          else PFail
                      | [] => PFail
                      end
                  | PFail => PFail
                  | PFuel => PFuel
                  end
              | [] => PFail
              end
          | None => PFail
          end
      | [] => PFail
      end
  end.

(** A value, after optional white space. *)
Fixpoint parse_value (f : nat) (s : list N) : presult json :=
  match f with
  | O => PFuel
  | S f' =>
      match skip_ws s with
      | [] => PFail
      | c :: r =>
          if c =? 110 then
            if prefixb [117; 108; 108] r then PDone JNull (drop 3 r) else PFail
          else if c =? 34 then
            match parse_str_body r with
            | Some (str, r') => PDone (JStr str) r'
            | None => PFail
            end
          else if c =? 91 then
            match skip_ws r with
            | d :: r' => if d =? 93 then PDone (JArr []) r' else elems_loop (parse_value f') f' [] r
            | [] => PFail
            end
          else if c =? 123 then
            match skip_ws r with
            | d :: r' => if d =? 125 then PDone (JObj []) r' else members_loop (parse_value f') f' [] r
            | [] => PFail
            end
          else
            match parse_number (c :: r) with
            | Some (n, r') => PDone (JInt n) r'
            | None => PFail
            end
      end
  end.

(** [JSON.parse(text)]: one value and white space only. *)
Definition parse_json (s : list N) : option json :=
  match parse_value (S (length s)) s with
  | PDone v r => if decide (skip_ws r = []) then Some v else None
  | _ => None
  end.

(** ** White space *)

Definition all_ws (w : list N) : Prop := Forall (λ c, is_ws c = true) w.

Lemma skip_ws_app w s : all_ws w → skip_ws (w ++ s) = skip_ws s.
Proof. induction 1 as [|c w Hc _ IH]; simpl; [done|]. by rewrite Hc. Qed.

Lemma skip_ws_stop c s : is_ws c = false → skip_ws (c :: s) = c :: s.
Proof. simpl. by intros ->. Qed.

Lemma skip_ws_length s : (length (skip_ws s) ≤ length s)%nat.
Proof. induction s as [|c s IH]; simpl; [lia|]. destruct (is_ws c); simpl; lia. Qed.

Lemma all_ws_newline_indent lvl : all_ws (newline_indent lvl).
Proof. constructor; [done|]. apply Forall_forall. intros x ->%list_elem_of_In%repeat_spec. done. Qed.

Lemma all_ws_app w1 w2 : all_ws w1 → all_ws w2 → all_ws (w1 ++ w2).
Proof. apply Forall_app_2. Qed.

#[local] Hint Resolve all_ws_newline_indent all_ws_app : core.

Lemma parse_value_S f s :
  parse_value (S f) s =
  match skip_ws s with
      | [] => PFail
      | c :: r =>
          if c =? 110 then
            if prefixb [117; 108; 108] r then PDone JNull (drop 3 r) else PFail
          else if c =? 34 then
            match parse_str_body r with
            | Some (str, r') => PDone (JStr str) r'
            | None => PFail
            end
          else if c =? 91 then
            match skip_ws r with
            | d :: r' => if d =? 93 then PDone (JArr []) r' else elems_loop (parse_value f) f [] r
            | [] => PFail
            end
          else if c =? 123 then
            match skip_ws r with
            | d :: r' => if d =? 125 then PDone (JObj []) r' else members_loop (parse_value f) f [] r
            | [] => PFail
            end
          else
            match parse_number (c :: r) with
            | Some (n, r') => PDone (JInt n) r'
            | None => PFail
            end
      end.
Proof. reflexivity. Qed.

(** The parser of a value skips the white space before it. *)
Lemma parse_value_ws f w s : all_ws w → parse_value f (w ++ s) = parse_value f s.
Proof. intros Hw. destruct f as [|f]; [done|]. by rewrite !parse_value_S, skip_ws_app. Qed.

(** ** Numbers *)

(** What may follow a number: anything but a digit. *)
Definition ends_number (rest : list N) : Prop :=
  match rest with c :: _ => is_digit c = false | [] => True end.

Lemma uint_chars_digits u : Forall (λ c, is_digit c = true) (uint_chars u).
Proof. induction u; simpl; constructor; auto. Qed.

Lemma parse_digits_app ds rest :
  Forall (λ c, is_digit c = true) ds → ends_number rest → parse_digits (ds ++ rest) = (ds, rest).
Proof.
  induction 1 as [|c ds Hc _ IH]; intros Hr; simpl.
  - destruct rest as [|c rest]; simpl in *; [done|]. by rewrite Hr.
  - rewrite Hc, IH by done. done.
Qed.

Lemma digits_value_acc l acc :
  digits_value (Npos acc) (uint_chars l) = Npos (Pos.of_uint_acc l acc).
Proof.
  revert acc; induction l as [|l IH|l IH|l IH|l IH|l IH|l IH|l IH|l IH|l IH|l IH];
    intros acc; simpl; [done|..]; unfold digits_value in *; simpl; rewrite <-IH; f_equal; lia.
Qed.

Lemma digits_value_uint u : digits_value 0 (uint_chars u) = Pos.of_uint u.
Proof.
  induction u as [|u IH|u IH|u IH|u IH|u IH|u IH|u IH|u IH|u IH|u IH]; simpl; [done|..];
    rewrite <-?digits_value_acc; [exact IH|..]; unfold digits_value; simpl; f_equal; lia.
Qed.

Lemma nb_digits_nzhead d : (Decimal.nb_digits (Decimal.nzhead d) ≤ Decimal.nb_digits d)%nat.
Proof. induction d; simpl; lia. Qed.

(** The decimal form of a positive number does not start with [0]. *)
Lemma to_uint_head p : ∃ c cs, uint_chars (Pos.to_uint p) = c :: cs ∧ c ≠ 48.
Proof.
  pose proof (DecimalPos.Unsigned.to_of (Pos.to_uint p)) as Hn.
  rewrite DecimalPos.Unsigned.of_to in Hn. simpl in Hn.
  pose proof (DecimalPos.Unsigned.to_uint_nonzero p) as Hz.
  pose proof (DecimalPos.Unsigned.to_uint_nonnil p) as Hnil.
  destruct (Pos.to_uint p) as [|d|d|d|d|d|d|d|d|d|d] eqn:He; try done; try (by do 2 eexists).
  exfalso. unfold Decimal.unorm in Hn. simpl in Hn.
  destruct (Decimal.nzhead d) as [|u|u|u|u|u|u|u|u|u|u] eqn:Hd; try congruence.
  injection Hn as ->. pose proof (nb_digits_nzhead u) as Hl. rewrite Hd in Hl. simpl in Hl. lia.
Qed.

(** Reading back [int.__repr__]. *)
Lemma parse_number_int_repr n rest :
  ends_number rest → parse_number (int_repr n ++ rest) = Some (n, rest).
Proof.
  intros Hr. destruct n as [|p]; [done|]. unfold int_repr. simpl.
  destruct (to_uint_head p) as (c & cs & Hu & Hc).
  pose proof (parse_digits_app _ rest (uint_chars_digits (Pos.to_uint p)) Hr) as Hd.
  rewrite Hu in *. cbn [app] in *. unfold parse_number.
  assert (Hdig : parse_digits (c :: cs ++ rest) = (c :: cs, rest)) by exact Hd.
  destruct (N.eqb_spec c 48) as [->|_]; [done|].
  rewrite Hdig. rewrite <-Hu, digits_value_uint.
  change (Pos.of_uint (Pos.to_uint p)) with (N.of_uint (N.to_uint (Npos p))).
  f_equal. f_equal. apply DecimalN.Unsigned.of_to.
Qed.

(** ** Reading back what [json.dumps] writes *)

Fixpoint json_size (j : json) : nat :=
  match j with
  | JArr l => S (sum_list_with json_size l)
  | JObj kv => S (sum_list_with (λ kv, json_size kv.2) kv)
  | _ => 1
  end.

Lemma json_size_pos j : (1 ≤ json_size j)%nat.
Proof. destruct j; simpl; lia. Qed.

Lemma sum_list_with_elem {A} (g : A → nat) l x : x ∈ l → (g x ≤ sum_list_with g l)%nat.
Proof. induction l as [|y l IH]; simpl; [set_solver|]. rewrite elem_of_cons. intros [->|]; [lia|]. specialize (IH H). lia. Qed.

Lemma sum_list_with_length {A} (g : A → nat) l : (∀ x, 1 ≤ g x)%nat → (length l ≤ sum_list_with g l)%nat.
Proof. intros Hg. induction l as [|y l IH]; simpl; [lia|]. specialize (Hg y). lia. Qed.

Lemma parse_str_body_json s rest : parse_str_body ((s ≫= escape_char) ++ 34 :: rest) = Some (s, rest).
Proof.
  pose proof (parse_json_str s rest) as H. unfold parse_str, json_str in H.
  cbn [app] in H. rewrite <-app_assoc in H. exact H.
Qed.

Lemma int_repr_cons n : ∃ c cs, int_repr n = c :: cs ∧ is_digit c = true.
Proof.
  pose proof (uint_chars_digits (N.to_uint n)) as Hd. unfold int_repr.
  destruct (uint_chars (N.to_uint n)) as [|c cs] eqn:He.
  - destruct n as [|p]; [done|]. simpl in He.
    destruct (to_uint_head p) as (c & cs & Hu & _). congruence.
  - exists c, cs. split; [done|]. by inversion Hd.
Qed.

(** ** Reading back the text of a value in any layout

    The lemmas hold for the text of a value whose new lines are written
    with any non-empty white space [nl]: a line feed ([dumps_at], as
    [json.dumps] returns it) or a carriage return and a line feed (the
    same text written by a text-mode file on Windows). *)
Section Layout.
Context (nl : list N) (Hnl : all_ws nl) (Hnl0 : nl ≠ []).

Lemma all_ws_newline_indent_nl lvl : all_ws (newline_indent_nl nl lvl).
Proof.
  apply Forall_app; split; [done|]. apply Forall_forall. intros x ->%list_elem_of_In%repeat_spec. done.
Qed.

#[local] Hint Resolve all_ws_newline_indent_nl : core.

(** The first character of a value's text: never white space, never a
    closing bracket. *)
Lemma dumps_nl_first lvl j : ∃ c cs, dumps_nl nl lvl j = c :: cs ∧ is_ws c = false ∧ c ≠ 93.
Proof.
  destruct j as [|n|s|[|x l]|[|kv l]]; simpl; try (by do 2 eexists).
  destruct (int_repr_cons n) as (c & cs & -> & Hc). exists c, cs. unfold is_digit, is_ws in *.
  split; [done|]. apply andb_prop in Hc as [H1 H2]. apply N.leb_le in H1, H2.
  split; [repeat (rewrite (proj2 (N.eqb_neq _ _)) by lia); done|lia].
Qed.

Lemma ends_number_ws c s : is_ws c = true → ends_number (c :: s).
Proof.
  unfold is_ws. intros Hc. repeat (apply orb_true_iff in Hc as [Hc|Hc]); by apply N.eqb_eq in Hc as ->.
Qed.

Lemma digit_not_ws c : is_digit c = true → is_ws c = false.
Proof.
  intros Hd. destruct (is_ws c) eqn:Hw; [|done].
  apply (ends_number_ws c []) in Hw. simpl in Hw. congruence.
Qed.

Lemma ends_number_newline_indent_nl lvl tail : ends_number (newline_indent_nl nl lvl ++ tail).
Proof.
  destruct nl as [|c w] eqn:E; [done|]. inversion Hnl as [|? ? Hc]. simpl. by apply ends_number_ws.
Qed.

Section Loops.
Context (f lvl : nat).

(** What follows an item: a comma, or the line before the closing
    bracket or brace. *)
Lemma ends_number_sep {A} (xs : list A) (tail : list N) (h : A → list N) :
  ends_number ((xs ≫= λ y, 44 :: h y) ++ newline_indent_nl nl lvl ++ tail).
Proof. destruct xs; simpl; [apply ends_number_newline_indent_nl|done]. Qed.

Lemma elems_loop_dumps_nl (xs : list json) : ∀ x g acc w rest,
  all_ws w → (length xs < g)%nat →
  (∀ z, z ∈ x :: xs → ∀ rest', ends_number rest' →
        parse_value f (dumps_nl nl (S lvl) z ++ rest') = PDone z rest') →
  elems_loop (parse_value f) g acc
    (w ++ dumps_nl nl (S lvl) x ++
     (xs ≫= λ y, (44 :: newline_indent_nl nl (S lvl)) ++ dumps_nl nl (S lvl) y) ++
     newline_indent_nl nl lvl ++ 93 :: rest) = PDone (JArr (acc ++ x :: xs)) rest.
Proof.
  induction xs as [|y xs IH]; intros x g acc w rest Hw Hg Hp; destruct g as [|g]; try lia;
    cbn [elems_loop]; rewrite parse_value_ws, Hp by (auto; set_solver || apply ends_number_sep).
  - cbn [mbind list_bind app]. rewrite skip_ws_app by auto. done.
  - rewrite bind_cons. cbn [app skip_ws]. change (is_ws 44) with false. cbn iota.
    change (44 =? 44) with true. cbn iota. rewrite <-!app_assoc.
    rewrite (IH y g (acc ++ [x]) (newline_indent_nl nl (S lvl))) by (auto; simpl in Hg; lia || (intros; apply Hp; set_solver)).
    by rewrite <-app_assoc.
Qed.
Lemma members_loop_dumps_nl (kvs : list (list N * json)) : ∀ k v g acc w rest,
  all_ws w → (length kvs < g)%nat →
  (∀ k' v', (k', v') ∈ (k, v) :: kvs → ∀ rest', ends_number rest' →
        parse_value f (dumps_nl nl (S lvl) v' ++ rest') = PDone v' rest') →
  members_loop (parse_value f) g acc
    (w ++ (json_str k ++ py:": " ++ dumps_nl nl (S lvl) v) ++
     (kvs ≫= λ kv, (44 :: newline_indent_nl nl (S lvl)) ++ (json_str kv.1 ++ py:": " ++ dumps_nl nl (S lvl) kv.2)) ++
     newline_indent_nl nl lvl ++ 125 :: rest) = PDone (JObj (acc ++ (k, v) :: kvs)) rest.
Proof.
  induction kvs as [|[k2 v2] kvs IH]; intros k v g acc w rest Hw Hg Hp; destruct g as [|g];
    try (simpl in Hg; lia).
  all: cbn [members_loop]; rewrite skip_ws_app by done; unfold json_str; rewrite <-!app_assoc.
  all: cbn [app]; rewrite skip_ws_stop by done; change (34 =? 34) with true; cbn [negb].
  all: rewrite parse_str_body_json; change (py:": ") with [58; 32]; cbn [app].
  all: rewrite skip_ws_stop by done; change (58 =? 58) with true; cbn [negb].
  all: change (parse_value f (32 :: ?s)) with (parse_value f ([32] ++ s)).
  all: rewrite (parse_value_ws f [32]) by (repeat constructor).
  all: rewrite (Hp k) by (auto; set_solver || apply ends_number_sep).
  - cbn [mbind list_bind app]. rewrite skip_ws_app by auto. done.
  - rewrite bind_cons. cbn [app skip_ws]. change (is_ws 44) with false. cbn iota.
    change (44 =? 44) with true. cbn iota. rewrite <-!app_assoc.
    transitivity (PDone (JObj ((acc ++ [(k, v)]) ++ (k2, v2) :: kvs)) rest);
      [|by rewrite <-app_assoc].
    rewrite <-(IH k2 v2 g (acc ++ [(k, v)]) (newline_indent_nl nl (S lvl)) rest);
      [|auto|simpl in Hg; lia|intros k' v' Hkv; apply (Hp k'); set_solver].
    f_equal. unfold json_str. change (py:": ") with [58; 32].
    repeat (first [rewrite <-!app_assoc | progress cbn [app fst snd]]). reflexivity.
Qed.
End Loops.

Lemma length_le_size (l : list json) : (length l ≤ sum_list_with json_size l)%nat.
Proof. apply sum_list_with_length, json_size_pos. Qed.

Lemma length_le_size_kv (kv : list (list N * json)) :
  (length kv ≤ sum_list_with (λ kv, json_size kv.2) kv)%nat.
Proof. apply sum_list_with_length. intros. apply json_size_pos. Qed.

(** The branch [parse_value] takes on the first character of a value. *)
Lemma parse_value_arr f r :
  parse_value (S f) (91 :: r) =
    match skip_ws r with
    | d :: r' => if d =? 93 then PDone (JArr []) r' else elems_loop (parse_value f) f [] r
    | [] => PFail
    end.
Proof. reflexivity. Qed.

Lemma parse_value_obj f r :
  parse_value (S f) (123 :: r) =
    match skip_ws r with
    | d :: r' => if d =? 125 then PDone (JObj []) r' else members_loop (parse_value f) f [] r
    | [] => PFail
    end.
Proof. reflexivity. Qed.

Lemma parse_value_str f r :
  parse_value (S f) (34 :: r) =
    match parse_str_body r with Some (str, r') => PDone (JStr str) r' | None => PFail end.
Proof. reflexivity. Qed.

Lemma parse_value_digit f c r :
  is_digit c = true →
  parse_value (S f) (c :: r) =
    match parse_number (c :: r) with Some (n, r') => PDone (JInt n) r' | None => PFail end.
Proof.
  intros Hd. rewrite parse_value_S, skip_ws_stop by (by apply digit_not_ws).
  unfold is_digit in Hd. apply andb_prop in Hd as [H1 H2]. apply N.leb_le in H1, H2.
  by rewrite !(proj2 (N.eqb_neq c _)) by lia.
Qed.

(** Reading the text of a value, at any nesting level, gives the value
    back and stops right after it, with fuel above its size. *)
Lemma parse_value_dumps_nl j : ∀ lvl f rest,
  (json_size j < f)%nat → ends_number rest → parse_value f (dumps_nl nl lvl j ++ rest) = PDone j rest.
Proof.
  induction j as [|n|s|l IH|kv IH] using json_elem_ind; intros lvl f rest Hf Hr;
    destruct f as [|f]; try (simpl in Hf; lia).
  - reflexivity.
  - destruct (int_repr_cons n) as (c & cs & Hc & Hd). cbn [dumps_nl]. rewrite Hc. cbn [app].
    rewrite parse_value_digit by done.
    change (c :: cs ++ rest) with ((c :: cs) ++ rest). by rewrite <-Hc, parse_number_int_repr.
  - cbn [dumps_nl]. unfold json_str. rewrite <-!app_assoc. cbn [app].
    by rewrite parse_value_str, parse_str_body_json.
  - destruct l as [|x xs]; [reflexivity|]. cbn [dumps_nl map]. cbn [app]. rewrite parse_value_arr.
    destruct (dumps_nl_first (S lvl) x) as (c & cs & Hc & Hw & H93).
    unfold py_join. rewrite bind_map, <-!app_assoc, skip_ws_app, Hc by auto. cbn [app].
    rewrite skip_ws_stop by done. rewrite (proj2 (N.eqb_neq c 93)) by done.
    change (c :: cs ++ ?t) with ((c :: cs) ++ t). rewrite <-Hc.
    cbn [json_size] in Hf.
    pose proof (elems_loop_dumps_nl f lvl xs x f [] (newline_indent_nl nl (S lvl)) rest) as H.
    apply H; [auto| |].
    + pose proof (length_le_size (x :: xs)). simpl in *. lia.
    + intros z Hz rest' Hr'. apply IH; [done| |done].
      pose proof (sum_list_with_elem json_size _ _ Hz). simpl in *. lia.
  - destruct kv as [|[k v] kvs]; [reflexivity|]. cbn [dumps_nl map]. cbn [app]. rewrite parse_value_obj.
    unfold py_join. rewrite bind_map, <-!app_assoc, skip_ws_app by auto. cbn [fst snd].
    change (json_str k ++ ?t) with (34 :: ((k ≫= escape_char) ++ [34]) ++ t).
    rewrite skip_ws_stop by done. change (34 =? 125) with false. cbn iota.
    change (34 :: ((k ≫= escape_char) ++ [34]) ++ ?t) with (json_str k ++ t).
    cbn [json_size] in Hf.
    pose proof (members_loop_dumps_nl f lvl kvs k v f [] (newline_indent_nl nl (S lvl)) rest) as H.
    rewrite <-!app_assoc in H. apply H; [auto| |].
    + pose proof (length_le_size_kv ((k, v) :: kvs)). simpl in *. lia.
    + intros k' v' Hz rest' Hr'. apply (IH k'); [done| |done].
      pose proof (sum_list_with_elem (λ kv, json_size kv.2) _ _ Hz). simpl in *. lia.
Qed.

Lemma sum_list_with_map_le {A} (g : A → nat) (h : A → list N) l :
  (∀ x, x ∈ l → g x ≤ length (h x))%nat →
  (sum_list_with g l ≤ sum_list_with length (map h l))%nat.
Proof.
  induction l as [|x l IH]; intros Hl; simpl; [lia|].
  assert (g x ≤ length (h x))%nat by (apply Hl; set_solver).
  assert (sum_list_with g l ≤ sum_list_with length (map h l))%nat by (apply IH; set_solver). lia.
Qed.

Lemma py_join_length_ge sep l : (sum_list_with length l ≤ length (py_join sep l))%nat.
Proof.
  destruct l as [|p ps]; simpl; [lia|]. rewrite length_app.
  enough (sum_list_with length ps ≤ length (ps ≫= λ q, sep ++ q))%nat by lia.
  induction ps as [|q ps IH]; [simpl; lia|]. rewrite bind_cons, !length_app. simpl. lia.
Qed.

(** The text of a value is at least as long as the value's size, so the
    fuel [parse_json] gives is enough. *)
Lemma size_le_dumps_nl j : ∀ lvl, (json_size j ≤ length (dumps_nl nl lvl j))%nat.
Proof.
  induction j as [| n | s | l IH | kv IH] using json_elem_ind; intros lvl.
  - simpl. lia.
  - destruct (int_repr_cons n) as (c & cs & Hc & _). simpl. rewrite Hc. simpl. lia.
  - simpl. unfold json_str. rewrite !length_app. simpl. lia.
  - destruct l as [|x xs]; [simpl; lia|]. cbn [dumps_nl json_size]. rewrite !length_app.
    pose proof (py_join_length_ge (44 :: newline_indent_nl nl (S lvl)) (map (dumps_nl nl (S lvl)) (x :: xs))).
    pose proof (sum_list_with_map_le json_size (dumps_nl nl (S lvl)) (x :: xs) (λ y Hy, IH y Hy (S lvl))).
    simpl in *. lia.
  - destruct kv as [|[k v] kvs]; [simpl; lia|]. cbn [dumps_nl json_size]. rewrite !length_app.
    set (h := λ kv : list N * json, json_str kv.1 ++ py:": " ++ dumps_nl nl (S lvl) kv.2).
    pose proof (py_join_length_ge (44 :: newline_indent_nl nl (S lvl)) (map h ((k, v) :: kvs))).
    assert (Hle : ∀ kv', kv' ∈ (k, v) :: kvs → (json_size kv'.2 ≤ length (h kv'))%nat).
    { intros [k' v'] Hkv. pose proof (IH k' v' Hkv (S lvl)). unfold h. cbn [fst snd].
      rewrite !length_app. lia. }
    pose proof (sum_list_with_map_le _ h _ Hle). simpl in *. lia.
Qed.

End Layout.

(** Reading the whole text of a value gives the value back. *)
Lemma parse_json_dumps_nl nl j : all_ws nl → nl ≠ [] → parse_json (dumps_nl nl 0 j) = Some j.
Proof.
  intros Hnl Hnl0. unfold parse_json.
  pose proof (parse_value_dumps_nl nl Hnl Hnl0 j 0 (S (length (dumps_nl nl 0 j))) []
    ltac:(pose proof (size_le_dumps_nl nl Hnl Hnl0 j 0); lia) I) as H.
  rewrite List.app_nil_r in H. rewrite H. reflexivity.
Qed.

Lemma parse_json_dumps j : parse_json (dumps j) = Some j.
Proof. unfold dumps. rewrite <-dumps_nl_lf. apply parse_json_dumps_nl; [repeat constructor|done]. Qed.

(** A text-mode write of [json.dumps] reads back as JSON on both
    platforms: the carriage returns of Windows are JSON white space. *)
Lemma all_ws_os_linesep p : all_ws (os_linesep p).
Proof. destruct p; repeat constructor. Qed.

Lemma parse_json_linesep p j : parse_json (traduire_nl (os_linesep p) (dumps j)) = Some j.
Proof.
  unfold dumps. rewrite traduire_nl_dumps_at.
  apply parse_json_dumps_nl; [apply all_ws_os_linesep|by destruct p].
Qed.

(** C28.  Round trip: [JSON.parse] of what [json.dumps(obj, indent=2)]
    returns, and of the chunks [json.dump] writes one after the other,
    gives the value back, for every value the scripts write (strings with
    any code points, non-negative integers, [None], lists and dicts nested
    to any depth). *)
Theorem json_roundtrip j : parse_json (dumps j) = Some j ∧ parse_json (concat (iterencode j)) = Some j.
Proof. rewrite iterencode_dumps. split; apply parse_json_dumps. Qed.

(** ** Termination: the fuel of [parse_json] is enough for every input *)

Lemma parse_str_body_shorter s : ∀ k r, parse_str_body s = Some (k, r) → (length r < length s)%nat.
Proof.
  induction s as [s IH] using (induction_ltof1 _ (@length N)); unfold ltof in IH.
  intros k r H. destruct s as [|c rest]; [done|]. simpl in H.
  repeat (case_match; simplify_eq/=; try done);
    try (destruct (parse_str_body _) as [[b r']|] eqn:Hs in H; simplify_eq/=;
         apply IH in Hs; simpl in *; lia); simpl; lia.
Qed.

Lemma parse_digits_length s : (length (parse_digits s).1 + length (parse_digits s).2 = length s)%nat.
Proof.
  induction s as [|c s IH]; [done|]. simpl. destruct (is_digit c); [|done].
  destruct (parse_digits s) as [ds r]. simpl in *. lia.
Qed.

Lemma parse_number_shorter s n r : parse_number s = Some (n, r) → (length r < length s)%nat.
Proof.
  destruct s as [|c s]; [done|]. unfold parse_number. destruct (c =? 48); [intros [= _ <-]; simpl; lia|].
  pose proof (parse_digits_length (c :: s)). destruct (parse_digits (c :: s)) as [[|d ds] r'];
    [done|]. intros [= _ <-]. simpl in *. lia.
Qed.

(** A result that is not [PFuel], and when it is a value, leaves less
    than [n] characters. *)
Definition shrinks (p : presult json) (n : nat) : Prop :=
  match p with PDone _ r => (length r < n)%nat | PFail => True | PFuel => False end.

Lemma shrinks_mono p n m : shrinks p n → (n ≤ m)%nat → shrinks p m.
Proof. destruct p; simpl; lia. Qed.

Section Termination.
Context (pv : list N → presult json) (n : nat).
Hypothesis Hpv : ∀ s, (length s ≤ n)%nat → shrinks (pv s) (length s).

Lemma elems_loop_shrinks g : ∀ acc s, (length s ≤ n)%nat → (length s < g)%nat →
  shrinks (elems_loop pv g acc s) (length s).
Proof.
  induction g as [|g IH]; intros acc s Hn Hg; [lia|]. simpl.
  pose proof (Hpv s Hn) as H. destruct (pv s) as [v r| |]; [|done|done]. simpl in H.
  pose proof (skip_ws_length r). destruct (skip_ws r) as [|c r'] eqn:E; [done|]. simpl in *.
  destruct (c =? 44); [|destruct (c =? 93); simpl; [lia|done]].
  apply shrinks_mono with (length r'); [apply IH|]; lia.
Qed.

Lemma members_loop_shrinks g : ∀ acc s, (length s ≤ n)%nat → (length s < g)%nat →
  shrinks (members_loop pv g acc s) (length s).
Proof.
  induction g as [|g IH]; intros acc s Hn Hg; [lia|]. simpl.
  pose proof (skip_ws_length s). destruct (skip_ws s) as [|q r]; [done|]. simpl in *.
  destruct (negb (q =? 34)); [done|].
  destruct (parse_str_body r) as [[k r1]|] eqn:Hk; [|done]. apply parse_str_body_shorter in Hk.
  pose proof (skip_ws_length r1). destruct (skip_ws r1) as [|c r2]; [done|]. simpl in *.
  destruct (negb (c =? 58)); [done|].
  pose proof (Hpv r2 ltac:(lia)) as Hv. destruct (pv r2) as [v r3| |]; [|done|done]. simpl in Hv.
  pose proof (skip_ws_length r3). destruct (skip_ws r3) as [|d r4]; [done|]. simpl in *.
  destruct (d =? 44); [|destruct (d =? 125); simpl; [lia|done]].
  apply shrinks_mono with (length r4); [apply IH|]; lia.
Qed.

End Termination.

Lemma parse_value_shrinks f : ∀ s, (length s < f)%nat → shrinks (parse_value f s) (length s).
Proof.
  induction f as [|f IH]; intros s Hs; [lia|]. cbn [parse_value].
  pose proof (skip_ws_length s). destruct (skip_ws s) as [|c r]; [done|]. cbn [length] in *. cbv iota beta.
  destruct (c =? 110); [destruct (prefixb [117; 108; 108] r); cbn [shrinks]; [rewrite length_drop; lia|done]|].
  destruct (c =? 34).
  { destruct (parse_str_body r) as [[k r']|] eqn:E; simpl; [|done].
    apply parse_str_body_shorter in E. lia. }
  destruct (c =? 91).
  { pose proof (skip_ws_length r). destruct (skip_ws r) as [|d r']; [done|].
    destruct (d =? 93); [simpl in *; lia|].
    apply shrinks_mono with (length r); [|lia].
    apply (elems_loop_shrinks _ (length r)); [intros t Ht; apply IH|..]; lia. }
  destruct (c =? 123).
  { pose proof (skip_ws_length r). destruct (skip_ws r) as [|d r']; [done|].
    destruct (d =? 125); [simpl in *; lia|].
    apply shrinks_mono with (length r); [|lia].
    apply (members_loop_shrinks _ (length r)); [intros t Ht; apply IH|..]; lia. }
  destruct (parse_number (c :: r)) as [[m r']|] eqn:E; simpl; [|done].
  apply parse_number_shorter in E. simpl in E. lia.
Qed.

(** [parse_json] never stops for lack of fuel: with one unit of fuel per
    character, and one more, the parser returns a value or a syntax
    error on every input. *)
Lemma parse_value_total s : parse_value (S (length s)) s ≠ PFuel.
Proof. pose proof (parse_value_shrinks (S (length s)) s ltac:(lia)) as H. by intros E; rewrite E in H. Qed.
