(* ===== verification/PhotoWalk.v ===== *)
(** * [lister_photos] of src/generer-index.py (lines 21-37)

    A directory is a list of entries, each a file (name and content) or a
    sub-directory (name and entries), in the order [os.scandir] lists
    them.  [os_walk] is the top-down walk of CPython's [os.walk]: the
    triple [(root, dirs, files)] of a directory comes before those of its
    sub-directories, visited in listing order; [root] is kept as the list
    of directory names below the team folder.  [lister_photos] keeps the
    files whose lower-cased [Path.suffix] is an image extension, renders
    their path relative to the team folder with the platform's separator,
    replaces every backslash with a slash, and sorts.

    [py_lower] (Prelude) is [str.lower] of Python 3.11 on every code
    point (Unicode 14.0); a later Python may lower a few more recent
    letters, none of which lowers to ASCII, so the test against the ASCII
    extensions below does not depend on the version. *)

From S2P Require Import Prelude.

Inductive fsnode :=
  | File (name : list N) (content : list N)
  | Dir (name : list N) (children : list fsnode).

Definition node_name (n : fsnode) : list N :=
  match n with File nm _ => nm | Dir nm _ => nm end.

Definition is_dir (n : fsnode) : bool :=
  match n with Dir _ _ => true | File _ _ => false end.

(** [os.sep], which [str(path)] uses: ['/'] on POSIX and ['\'] on
    Windows. *)
Definition os_sep (p : platform) : N := match p with Posix => 47 | Windows => 92 end.

(** The exception [open(path, 'w')] raises when [path] is a directory:
    [IsADirectoryError] on POSIX; on Windows [CreateFileW] fails with
    [ERROR_ACCESS_DENIED], which Python raises as [PermissionError]. *)
Definition erreur_dossier (p : platform) : pyexc :=
  match p with Posix => IsADirectoryError | Windows => PermissionError end.

(** ** [os.walk] *)

(** [(root, dirs, files)] for one directory: the names of its
    sub-directories and of its other entries, in listing order. *)
Definition walk_entry (root : list (list N)) (children : list fsnode)
  : list (list N) * list (list N) * list (list N) :=
  (root, map node_name (filter (λ n, is_dir n = true) children),
         map node_name (filter (λ n, is_dir n = false) children)).

(** The walk below an entry [n] of the directory [root]: nothing for a
    file; for a sub-directory, its triple and then the walks below its own
    entries, in listing order. *)
Fixpoint os_walk_entry (root : list (list N)) (n : fsnode)
  : list (list (list N) * list (list N) * list (list N)) :=
  match n with
  | File _ _ => []
  | Dir nm ch => walk_entry (root ++ [nm]) ch :: flat_map (os_walk_entry (root ++ [nm])) ch
  end.

(** [os.walk(top)] with [topdown=True], [top] holding [children]. *)
Definition os_walk (root : list (list N)) (children : list fsnode)
  : list (list (list N) * list (list N) * list (list N)) :=
  walk_entry root children :: flat_map (os_walk_entry root) children.

(** ** [Path.suffix] and the extension test *)

(** [name.rfind('.')]. *)
Fixpoint rfind_dot_go (i : nat) (s : list N) (best : option nat) : option nat :=
  match s with
  | [] => best
  | c :: s' => rfind_dot_go (S i) s' (if c =? 46 then Some i else best)
  end.

Definition rfind_dot (s : list N) : option nat := rfind_dot_go 0 s None.

(** [PurePath.suffix]: from the last dot, unless the dot is the first or
    the last character of the name. *)
Definition py_suffix (name : list N) : list N :=
  match rfind_dot name with
  | Some i => if (0 <? i)%nat && (i <? length name - 1)%nat then drop i name else []
  | None => []
  end.

(** [EXTENSIONS_VALIDES], line 21. *)
Definition extensions_valides : list (list N) :=
  [py:".png"; py:".jpg"; py:".jpeg"; py:".webp"; py:".gif"].

(** [Path(nom_fichier).suffix.lower() in EXTENSIONS_VALIDES], lines 31-32. *)
Definition est_photo (nom : list N) : bool :=
  bool_decide (py_lower (py_suffix nom) ∈ extensions_valides).

(** [str((racine_path / nom).relative_to(dossier)).replace('\\', '/')],
    lines 33-34, for a file [nom] in the directory [root] below the team
    folder. *)
Definition chemin_relatif (p : platform) (root : list (list N)) (nom : list N) : list N :=
  py_replace [92] [47] (py_join [os_sep p] (root ++ [nom])).

(** [lister_photos(dossier_equipe)], lines 24-37. *)
Definition lister_photos (p : platform) (children : list fsnode) : list (list N) :=
  py_sorted
    (os_walk [] children ≫= λ '(root, _, fichiers),
       map (chemin_relatif p root) (filter (λ nom, est_photo nom = true) fichiers)).

(** ** The photos of a tree, without the walk *)

Definition photo_of (p : platform) (root : list (list N)) (nom : list N) : list (list N) :=
  if est_photo nom then [chemin_relatif p root nom] else [].

(** The photos below one entry of the directory [root], in listing
    order: the reference enumeration of the files of a tree. *)
Fixpoint photos_entry (p : platform) (root : list (list N)) (n : fsnode) : list (list N) :=
  match n with
  | File nm _ => photo_of p root nm
  | Dir nm ch => flat_map (photos_entry p (root ++ [nm])) ch
  end.

(** What the loop of [lister_photos] collects from the walk, before the
    sort. *)
Definition collect (p : platform) (ws : list (list (list N) * list (list N) * list (list N)))
  : list (list N) :=
  ws ≫= λ '(root, _, fichiers),
    map (chemin_relatif p root) (filter (λ nom, est_photo nom = true) fichiers).

Lemma collect_app p ws1 ws2 : collect p (ws1 ++ ws2) = collect p ws1 ++ collect p ws2.
Proof. unfold collect. by rewrite bind_app. Qed.

Lemma collect_flat_map {A} p (f : A → _) l :
  collect p (flat_map f l) = flat_map (λ x, collect p (f x)) l.
Proof. induction l as [|x l IH]; simpl; [done|]. by rewrite collect_app, IH. Qed.

Definition file_part (p : platform) (root : list (list N)) (n : fsnode) : list (list N) :=
  match n with File nm _ => photo_of p root nm | Dir _ _ => [] end.

Definition dir_part (p : platform) (root : list (list N)) (n : fsnode) : list (list N) :=
  match n with File _ _ => [] | Dir nm ch => flat_map (photos_entry p (root ++ [nm])) ch end.

Lemma collect_walk_entry p root ch :
  collect p [walk_entry root ch] = flat_map (file_part p root) ch.
Proof.
  unfold collect, walk_entry. simpl. rewrite app_nil_r.
  induction ch as [|[nm c|nm ch'] ch IH]; simpl; [done| |done].
  rewrite filter_cons. unfold photo_of.
  destruct (est_photo nm); rewrite ?decide_True, ?decide_False by done; simpl; by rewrite IH.
Qed.

Lemma photos_entry_split p root n : photos_entry p root n = file_part p root n ++ dir_part p root n.
Proof. destruct n; simpl; by rewrite ?app_nil_r. Qed.

(** The walk visits every file once: what [lister_photos] collects is a
    permutation of the reference enumeration. *)
Lemma collect_os_walk p ch :
  ∀ root, collect p (os_walk root ch) ≡ₚ flat_map (photos_entry p root) ch.
Proof.
  assert (Hentry : ∀ n root, collect p (os_walk_entry root n) ≡ₚ dir_part p root n).
  { induction n as [nm c|nm ch' IH] using fsnode_ind; intros root;
      cbn [os_walk_entry dir_part]; [done|].
    change (walk_entry (root ++ [nm]) ch' :: flat_map (os_walk_entry (root ++ [nm])) ch')
      with ([walk_entry (root ++ [nm]) ch'] ++ flat_map (os_walk_entry (root ++ [nm])) ch').
    rewrite collect_app, collect_walk_entry, collect_flat_map.
    rewrite (flat_map_perm (λ x, collect p (os_walk_entry (root ++ [nm]) x))
               (dir_part p (root ++ [nm])))
      by (intros x Hx; exact (list_all_elem _ _ _ IH Hx (root ++ [nm]))).
    rewrite <-flat_map_app_split. apply Permutation_refl'.
    apply flat_map_ext. intros x. by rewrite photos_entry_split. }
  intros root. unfold os_walk.
  change (walk_entry root ch :: flat_map (os_walk_entry root) ch)
    with ([walk_entry root ch] ++ flat_map (os_walk_entry root) ch).
  rewrite collect_app, collect_walk_entry, collect_flat_map.
  rewrite (flat_map_perm (λ x, collect p (os_walk_entry root x)) (dir_part p root))
    by (intros x _; apply Hentry).
  rewrite <-flat_map_app_split. apply Permutation_refl'.
  apply flat_map_ext. intros x. by rewrite photos_entry_split.
Qed.

(** Two trees that differ only by the order in which directories list
    their entries, and by the contents of the files. *)
Inductive tree_equiv : fsnode → fsnode → Prop :=
  | te_file nm c1 c2 : tree_equiv (File nm c1) (File nm c2)
  | te_dir nm ch1 ch2 ch2' :
      Forall2 tree_equiv ch1 ch2' → ch2' ≡ₚ ch2 → tree_equiv (Dir nm ch1) (Dir nm ch2).

Definition dir_equiv (ch1 ch2 : list fsnode) : Prop :=
  ∃ ch2', Forall2 tree_equiv ch1 ch2' ∧ ch2' ≡ₚ ch2.

Lemma photos_entry_equiv p n1 :
  ∀ n2 root, tree_equiv n1 n2 → photos_entry p root n1 ≡ₚ photos_entry p root n2.
Proof.
  induction n1 as [nm c|nm ch1 IH] using fsnode_ind; intros n2 root Heq;
    inversion Heq as [? ? ?|? ? ch2 ch2' HF Hp]; subst; simpl; [done|].
  rewrite <-(flat_map_perm_arg _ _ _ Hp).
  apply (flat_map_Forall2 tree_equiv); [done|].
  intros x y Hx Hxy. exact (list_all_elem _ _ _ IH Hx y _ Hxy).
Qed.

Lemma chemin_relatif_no_backslash p root nom : 92 ∉ chemin_relatif p root nom.
Proof.
  unfold chemin_relatif. rewrite py_replace_char, list_elem_of_fmap.
  intros (x & Hx & _). destruct (N.eqb_spec x 92); lia.
Qed.

Lemma map_no_char (c d : N) s : c ∉ s → map (λ x, if x =? c then d else x) s = s.
Proof.
  induction s as [|x s IH]; intros Hs; simpl; [done|].
  rewrite not_elem_of_cons in Hs. destruct Hs as [Hx Hs].
  rewrite (proj2 (N.eqb_neq x c)) by congruence. by rewrite IH.
Qed.

(** The files of a tree with the directory that holds them. *)
Fixpoint files_entry (root : list (list N)) (n : fsnode) : list (list (list N) * list N) :=
  match n with
  | File nm _ => [(root, nm)]
  | Dir nm ch => flat_map (files_entry (root ++ [nm])) ch
  end.

Lemma photos_entry_files p n :
  ∀ root x, x ∈ photos_entry p root n ↔
    ∃ r nom, (r, nom) ∈ files_entry root n ∧ est_photo nom = true ∧ x = chemin_relatif p r nom.
Proof.
  induction n as [nm c|nm ch IH] using fsnode_ind; intros root x; simpl.
  - unfold photo_of. setoid_rewrite list_elem_of_singleton. split.
    + destruct (est_photo nm) eqn:He; [|by intros ?%not_elem_of_nil].
      intros ->%list_elem_of_singleton. by exists root, nm.
    + intros (r & nom & [= -> ->] & He & ->). rewrite He. by left.
  - setoid_rewrite elem_of_flat_map. split.
    + intros (n & Hn & Hx). apply (list_all_elem _ _ _ IH Hn) in Hx as (r & nom & ?).
      exists r, nom. naive_solver.
    + intros (r & nom & (n & Hn & Hf) & He & ->).
      exists n. split; [done|]. apply (list_all_elem _ _ _ IH Hn). eauto.
Qed.

(** [lister_photos] sorts the reference enumeration. *)
Lemma lister_photos_flat_map p ch : lister_photos p ch = py_sorted (flat_map (photos_entry p []) ch).
Proof. apply py_sorted_unique, (collect_os_walk p ch []). Qed.

(** ** The suffix of a name with a prefix *)

Lemma rfind_dot_go_app i p b best :
  rfind_dot_go i (p ++ b) best = rfind_dot_go (i + length p) b (rfind_dot_go i p best).
Proof.
  revert i best; induction p as [|c p IH]; intros i best; simpl; [by rewrite Nat.add_0_r|].
  rewrite IH. f_equal. lia.
Qed.

Lemma rfind_dot_go_shift i b best :
  rfind_dot_go i b best = match rfind_dot_go 0 b None with Some j => Some (i + j)%nat | None => best end.
Proof.
  revert i best; induction b as [|c b IH]; intros i best; simpl; [done|].
  rewrite (IH (S i)), (IH 1%nat).
  destruct (rfind_dot_go 0 b None), (c =? 46); simpl; f_equal; lia.
Qed.

(** A name that has a suffix keeps it behind any prefix. *)
Lemma py_suffix_app p b : py_suffix b ≠ [] → py_suffix (p ++ b) = py_suffix b.
Proof.
  unfold py_suffix, rfind_dot. rewrite rfind_dot_go_app, (rfind_dot_go_shift (0 + length p) b).
  destruct (rfind_dot_go 0 b None) as [j|]; [|done].
  destruct ((0 <? j) && (j <? length b - 1))%nat eqn:E; [|done]. intros _.
  apply andb_true_iff in E as [E1 E2]. apply Nat.ltb_lt in E1, E2.
  rewrite length_app.
  replace ((0 <? 0 + length p + j) && (0 + length p + j <? length p + length b - 1))%nat with true
    by (symmetry; apply andb_true_iff; split; apply Nat.ltb_lt; lia).
  rewrite drop_app_ge by lia. f_equal. lia.
Qed.

Lemma est_photo_app p b : est_photo b = true → est_photo (p ++ b) = true.
Proof.
  unfold est_photo. intros Hb. rewrite py_suffix_app; [done|].
  intros E. rewrite E in Hb. vm_compute in Hb. discriminate.
Qed.

Lemma chemin_relatif_posix_backslash a b :
  chemin_relatif Posix [] (a ++ 92 :: b) = chemin_relatif Posix [a] b.
Proof.
  unfold chemin_relatif. rewrite !py_replace_char. cbn [app os_sep].
  rewrite py_join_cons2, !py_join_single, !map_app. done.
Qed.

(** ** Theorems *)

(** C17.  [lister_photos] returns, sorted, exactly the rendered paths of
    the files of the tree whose suffix is an image extension: the walk
    visits every file once, and the result is sorted. *)
Theorem lister_photos_ref p ch :
  lister_photos p ch = py_sorted (flat_map (photos_entry p []) ch) ∧
  StronglySorted str_le (lister_photos p ch).
Proof.
  split; [apply lister_photos_flat_map|apply py_sorted_StronglySorted].
Qed.

(** C18.  The result does not depend on the order in which [os.scandir]
    lists the entries of any directory, nor on the contents of the
    files. *)
Theorem lister_photos_listing_order p ch1 ch2 :
  dir_equiv ch1 ch2 → lister_photos p ch1 = lister_photos p ch2.
Proof.
  intros (ch2' & HF & Hp). rewrite !lister_photos_flat_map. apply py_sorted_unique.
  rewrite <-(flat_map_perm_arg _ _ _ Hp).
  apply (flat_map_Forall2 tree_equiv); [done|].
  intros x y _ Hxy. by apply photos_entry_equiv.
Qed.

(** C19.  A path is listed exactly when it renders a file of the team
    folder, at any depth, whose suffix is an image extension. *)
Theorem lister_photos_members p ch x :
  x ∈ lister_photos p ch ↔
  ∃ root nom, (root, nom) ∈ flat_map (files_entry []) ch ∧ est_photo nom = true ∧
    x = chemin_relatif p root nom.
Proof.
  unfold lister_photos. rewrite elem_of_py_sorted.
  change (os_walk [] ch ≫= _) with (collect p (os_walk [] ch)).
  rewrite (collect_os_walk p ch []). setoid_rewrite elem_of_flat_map.
  setoid_rewrite photos_entry_files. naive_solver.
Qed.

(** C20.  Path normalization: a recorded path never holds a backslash,
    and when no directory or file name holds one it is the path relative
    to the team folder with [/] between components, on POSIX and on
    Windows alike. *)
Theorem chemin_relatif_normalized p root nom :
  (92 ∉ chemin_relatif p root nom) ∧
  (Forall (λ s, 92 ∉ s) (root ++ [nom]) → chemin_relatif p root nom = py_join [47] (root ++ [nom])).
Proof.
  split; [apply chemin_relatif_no_backslash|]. intros Hs.
  unfold chemin_relatif. rewrite py_replace_char, map_py_join.
  f_equal; [by destruct p|].
  induction Hs as [|s l Hs1 _ IH]; simpl; [done|]. by rewrite map_no_char, IH.
Qed.

(** The extension test: the suffix after the last dot, lower-cased,
    is one of the five image extensions; a name that starts with its only
    dot, or ends with a dot, has no suffix. *)
Example est_photo_examples :
  est_photo (py:"photo.PNG") = true ∧ est_photo (py:"archive.tar.Jpeg") = true ∧
  est_photo (py:"notes.txt") = false ∧ est_photo (py:".png") = false ∧
  est_photo (py:"x.jpg.") = false ∧ est_photo (py:"gif") = false.
Proof. vm_compute. repeat split. Qed.

(** C22.  On POSIX a backslash is an ordinary character of a file name,
    and the replacement of line 34 turns it into a separator: for any
    directory name [a] and photo name [b], a file named [a\b] at the top
    of the team folder and the file [b] of its sub-folder [a] are recorded
    under the same path [a/b], twice. *)
Theorem lister_photos_posix_backslash a b c1 c2 :
  est_photo b = true →
  lister_photos Posix [File (a ++ 92 :: b) c1; Dir a [File b c2]] =
    [chemin_relatif Posix [a] b; chemin_relatif Posix [a] b].
Proof.
  intros Hb. rewrite lister_photos_flat_map. cbn [flat_map photos_entry app]. unfold photo_of.
  replace (a ++ 92 :: b) with ((a ++ [92]) ++ b) by by rewrite <-app_assoc.
  rewrite Hb, est_photo_app by done. rewrite <-app_assoc. cbn [app].
  rewrite chemin_relatif_posix_backslash. apply py_sorted_sorted.
  assert (Hr : str_le (chemin_relatif Posix [a] b) (chemin_relatif Posix [a] b))
    by (by destruct (total str_le (chemin_relatif Posix [a] b) (chemin_relatif Posix [a] b))).
  repeat constructor; done.
Qed.

(** ** Witnesses *)

Definition team_example : list fsnode :=
  [File (py:"b.PNG") []; Dir (py:"sub") [File (py:"a.jpeg") []; File (py:"notes.txt") []];
   File (py:".gif") []].

Definition team_example_reordered : list fsnode :=
  [File (py:".gif") []; Dir (py:"sub") [File (py:"notes.txt") [1]; File (py:"a.jpeg") [2]];
   File (py:"b.PNG") [3]].

Lemma lister_photos_listing_order_witness :
  dir_equiv team_example team_example_reordered ∧
  lister_photos Windows team_example = lister_photos Windows team_example_reordered.
Proof.
  assert (Hd : dir_equiv team_example team_example_reordered).
  { exists [File (py:"b.PNG") [3]; Dir (py:"sub") [File (py:"notes.txt") [1]; File (py:"a.jpeg") [2]];
            File (py:".gif") []].
    split.
    - repeat constructor. eapply te_dir; [repeat constructor|]. apply Permutation_swap.
    - unfold team_example_reordered. etrans; [apply Permutation_swap|].
      etrans; [apply perm_skip, Permutation_swap|]. apply Permutation_swap. }
  split; [exact Hd|]. exact (lister_photos_listing_order Windows _ _ Hd).
Defined.

Lemma chemin_relatif_normalized_witness :
  Forall (λ s, 92 ∉ s) ([py:"sub"] ++ [py:"a.jpeg"]) ∧
  chemin_relatif Windows [py:"sub"] (py:"a.jpeg") = py:"sub/a.jpeg".
Proof.
  assert (Hf : Forall (λ s, 92 ∉ s) ([py:"sub"] ++ [py:"a.jpeg"])) by (apply (bool_decide_unpack _); vm_compute; exact I).
  split; [exact Hf|].
  exact (proj2 (chemin_relatif_normalized Windows [py:"sub"] (py:"a.jpeg")) Hf).
Defined.

Lemma lister_photos_posix_backslash_witness :
  est_photo (py:"b.jpg") = true ∧
  lister_photos Posix [File (py:"a" ++ 92 :: py:"b.jpg") []; Dir (py:"a") [File (py:"b.jpg") [1]]] =
    [chemin_relatif Posix [py:"a"] (py:"b.jpg"); chemin_relatif Posix [py:"a"] (py:"b.jpg")].
Proof.
  assert (Hb : est_photo (py:"b.jpg") = true) by (vm_compute; reflexivity).
  split; [exact Hb|exact (lister_photos_posix_backslash _ _ _ _ Hb)].
Defined.
