(* ===== verification/Console.v ===== *)
(** * Console output: what the two scripts print

    Both [main] functions report on the console with [print]: a banner
    between rules of [=], the paths they work on, one line per step or
    per team folder, and a summary.  The console is a trace of lines, in
    the order of the [print] calls ([print(x)] writes [x] and a line feed;
    [print()] an empty line); the mains of [DataJs] and [IndexMain] return
    it beside their outcome.  This file holds the formatting the lines
    use:

    - [str(script_dir / nom)] for an absolute directory ([joinpath]);
    - [str(n)] of a count ([str_nat]);
    - the format spec [:20s] ([pad20]): a string padded with spaces to at
      least 20 code points, never cut;
    - the format spec [:.1f] of [taille / 1024] ([format_ko]): the
      quotient is exact in binary floating point (a division by a power
      of two of an integer below 2^53, and a [str] has fewer code points
      than that), and Python prints it correctly rounded to one decimal,
      a tie going to the even digit. *)

From S2P Require Import Prelude Json PhotoWalk.

(** ["=" * 70]. *)
Definition regle : list N := repeat 61 70.

(** [str(Path(dir) / nom)] for the absolute directory [dir]: one
    separator between them, none added after a root such as ["/"]. *)
Definition joinpath (p : platform) (dir nom : list N) : list N :=
  if bool_decide (last dir = Some (os_sep p)) then dir ++ nom else dir ++ os_sep p :: nom.

(** [str(n)] for a count. *)
Definition str_nat (n : nat) : list N := int_repr (N.of_nat n).

(** [f"{s:20s}"]. *)
Definition pad20 (s : list N) : list N := s ++ repeat 32 (20 - length s).

(** The tenths of [n / 1024] rounded to the nearest, a tie to the even
    one. *)
Definition dixiemes (n : nat) : N :=
  let x := N.of_nat n * 10 in
  let q := x / 1024 in
  let r := x mod 1024 in
  if r * 2 <? 1024 then q
  else if 1024 <? r * 2 then q + 1
  else if N.even q then q else q + 1.

(** [f"{n / 1024:.1f}"]. *)
Definition format_ko (n : nat) : list N :=
  let t := dixiemes n in int_repr (t / 10) ++ [46; 48 + t mod 10].

(** The absolute directory of the scripts in the examples. *)
Definition dir_example : list N := py:"/srv/handball".

(** ** Lemmas *)

Lemma length_pad20 s : (length (pad20 s) = Nat.max 20 (length s))%nat.
Proof. unfold pad20. rewrite length_app, repeat_length. lia. Qed.

Lemma pad20_long s : (20 ≤ length s)%nat → pad20 s = s.
Proof. intros H. unfold pad20. by rewrite (proj2 (Nat.sub_0_le _ _) H), app_nil_r. Qed.

(** The rounding: [dixiemes n] is within half a tenth of [n / 1024]
    (counted in 1/10240), and even on a tie. *)
Lemma dixiemes_spec n :
  let t := Z.of_N (dixiemes n) in
  (2 * Z.abs (1024 * t - 10 * Z.of_nat n) ≤ 1024)%Z ∧
  ((2 * Z.abs (1024 * t - 10 * Z.of_nat n) = 1024)%Z → N.even (dixiemes n) = true).
Proof.
  unfold dixiemes. set (x := N.of_nat n * 10).
  pose proof (N.div_mod x 1024 ltac:(lia)) as Hx. pose proof (N.mod_lt x 1024 ltac:(lia)) as Hr.
  set (q := x / 1024) in *. set (r := x mod 1024) in *.
  assert (Z.of_nat n * 10 = Z.of_N x)%Z as Ex by (unfold x; lia).
  destruct (r * 2 <? 1024) eqn:H1; [apply N.ltb_lt in H1; split; [lia|intros; lia]|].
  apply N.ltb_ge in H1. destruct (1024 <? r * 2) eqn:H2; [apply N.ltb_lt in H2; split; [lia|intros; lia]|].
  apply N.ltb_ge in H2. assert (r = 512) as -> by lia.
  destruct (N.even q) eqn:He; split; try lia; intros _; [done|].
  rewrite N.even_add, He. done.
Qed.
