(* ===== verification/DataJs.v ===== *)
(** * The converter: [generer_data_js] and [main] of src/generer-data-js.py

    [main] (lines 85-141) checks that [Events.csv] exists, runs
    [lire_csv] (file [Dedup]), stops with exit code 1 when no row is kept,
    writes [data.js] with [generer_data_js] (lines 69-82) and finally
    detects the team columns of the first kept row (lines 126-135), which
    only prints.  The file system is the record [world]: the bytes of
    [Events.csv] when the file exists, read through the decoder and
    [csv.reader] of [CsvRead] ([lire_csv_fichier]), and the content of
    [data.js] when it exists, as the text the script writes in text
    mode: [generer_data_js] opens it with [open(..., 'w')], so each line
    feed of the module is written as [os.linesep] of the [platform]
    ([traduire_nl], [os_linesep] of [Utf8]).  A run returns its [outcome] (an exit code,
    or an exception that ends the script), the world after it and the
    lines it printed ([Console]), block by block as the code prints them. *)

From S2P Require Import Prelude Utf8 CsvRead Md5 CsvRow Dedup Json JsonParse PhotoWalk Console.

(** ** [generer_data_js] *)

(** [json.dumps] of a row: the key [None] is written as the string
    ["null"], a [None] value as [null], the surplus cells as a list. *)
Definition key_json (k : key) : list N :=
  match k with KStr s => s | KNone => py:"null" end.

Definition cell_json (c : cell) : json :=
  match c with CStr s => JStr s | CNone => JNull | CList l => JArr (map JStr l) end.

Definition row_json (r : row) : json :=
  JObj (map (λ kc, (key_json kc.1, cell_json kc.2)) r).

(** [contenu], lines 72-77: a banner, the number of rows, and the
    assignment of the JSON array. *)
Definition contenu_data_js (lignes : list row) : list N :=
  py:"// Auto-genere par generer-data-js.py - ne pas modifier manuellement" ++ [10] ++
  py:"// " ++ int_repr (N.of_nat (length lignes)) ++ py:" lignes de donnees" ++ [10] ++
  py:"var HANDBALL_DATA = " ++ dumps (JArr (map row_json lignes)) ++ py:";" ++ [10].

(** The files the converter reads and writes: the bytes of [Events.csv]
    and the text of [data.js] as it is written in text mode (its bytes are
    the UTF-8 encoding of that text). *)
Record world := {
  events_csv : option (list N);
  data_js : option (list N)
}.

(** [lire_csv(chemin_csv)], lines 42-66, on the bytes of the file: the
    loop runs over the rows of the records the reader yields; a row that
    raises ends it first, and otherwise the error that stopped the reader,
    if any, ends it after the rows before it. *)
Definition lire_csv_fichier (bs : list N) : pyresult (list row * nat) :=
  let '(records, err) := lire_records bs in
  match lire_csv records with
  | Raise e => Raise e
  | Ok res => match err with Some e => Raise e | None => Ok res end
  end.

(** [generer_data_js(lignes, chemin_sortie)], lines 69-82: overwrite
    [data.js] in text mode (each line feed written as [os.linesep]) and
    return [len(contenu)], a number of code points of the text before the
    translation. *)
Definition generer_data_js (p : platform) (lignes : list row) (w : world) : world * nat :=
  let c := contenu_data_js lignes in
  ({| events_csv := events_csv w; data_js := Some (traduire_nl (os_linesep p) c) |}, length c).

(** ** Team detection, lines 126-132 *)

Definition phase_marker : list N := py:"#03 Phase ".

(** The loop over [lignes[0].keys()]: [marker in cle] raises [TypeError]
    on the key [None]. *)
Fixpoint detect_go (keys : list key) (acc : gset (list N)) : pyresult (gset (list N)) :=
  match keys with
  | [] => Ok acc
  | KNone :: _ => Raise TypeError
  | KStr cle :: ks =>
      if py_in phase_marker cle then
        let equipe := py_strip (py_replace phase_marker [] cle) in
        detect_go ks (if decide (equipe = []) then acc else {[equipe]} ∪ acc)
      else detect_go ks acc
  end.

(** [sorted(equipes)] after the loop. *)
Definition detecter_equipes (lignes : list row) : pyresult (list (list N)) :=
  match lignes with
  | [] => Ok []
  | r :: _ => s ← detect_go (map fst r) ∅; Ok (py_sorted (elements s))
  end.

(** ** [main] *)

(** The banner, lines 86-89. *)
Definition entete_data_js : list (list N) :=
  [regle; py:"  GENERATION DE data.js DEPUIS Events.csv"; regle; []].

(** [chemin_csv] and [chemin_js], lines 91-93, under the absolute
    directory [dir] of the script. *)
Definition chemin_csv (p : platform) (dir : list N) : list N := joinpath p dir (py:"Events.csv").
Definition chemin_js (p : platform) (dir : list N) : list N := joinpath p dir (py:"data.js").

(** Lines 97-99, before [sys.exit(1)]. *)
Definition introuvable (p : platform) (dir : list N) : list (list N) :=
  [py:"ERREUR : " ++ chemin_csv p dir ++ py:" introuvable !";
   py:"  Placez Events.csv dans le meme dossier que ce script."; []].

(** Lines 102-107, before [lire_csv]. *)
Definition chemins (p : platform) (dir : list N) : list (list N) :=
  [py:"  CSV source  : " ++ chemin_csv p dir; py:"  JS sortie   : " ++ chemin_js p dir; [];
   py:"  Lecture du CSV..."].

(** Line 111. *)
Definition aucune_ligne : list (list N) := [py:"  ERREUR : aucune ligne valide trouvee dans le CSV !"].

(** Lines 114-119: the counts of [lire_csv], the duplicates only when
    there are some. *)
Definition rapport_lecture (n doublons : nat) : list (list N) :=
  [py:"  -> " ++ str_nat n ++ py:" lignes uniques"] ++
  (if bool_decide (0 < doublons)%nat then [py:"  -> " ++ str_nat doublons ++ py:" doublon(s) ignore(s)"]
   else []) ++
  [py:"  Generation de data.js..."].

(** Line 123. *)
Definition ligne_taille (taille : nat) : list N := py:"  -> data.js genere (" ++ format_ko taille ++ py:" Ko)".

(** Lines 134-135: [if equipes:], the set being empty exactly when its
    sorted list is. *)
Definition ligne_equipes (equipes : list (list N)) : list (list N) :=
  match equipes with
  | [] => []
  | _ => [py:"  -> Equipes detectees : " ++ py_join (py:", ") equipes]
  end.

(** Lines 137-141. *)
Definition fin_data_js (n taille : nat) : list (list N) :=
  [[]; regle; py:"  TERMINE : " ++ str_nat n ++ py:" lignes -> data.js (" ++ format_ko taille ++ py:" Ko)";
   regle; []].

(** [main()], lines 85-141, for the script in the absolute directory
    [dir]: the outcome, the world after the run and the lines printed, up
    to the exception when one ends the run. *)
Definition main_data_js (p : platform) (dir : list N) (w : world) : outcome * world * list (list N) :=
  match events_csv w with
  | None => (Exit 1, w, entete_data_js ++ introuvable p dir)
  | Some bs =>
      let out := entete_data_js ++ chemins p dir in
      match lire_csv_fichier bs with
      | Raise e => (Crash e, w, out)
      | Ok (lignes, doublons) =>
          if decide (lignes = []) then (Exit 1, w, out ++ aucune_ligne)
          else
            let '(w', taille) := generer_data_js p lignes w in
            let out' := out ++ rapport_lecture (length lignes) doublons ++ [ligne_taille taille] in
            match detecter_equipes lignes with
            | Raise e => (Crash e, w', out')
            | Ok equipes => (Exit 0, w', out' ++ ligne_equipes equipes ++ fin_data_js (length lignes) taille)
            end
      end
  end.

(** ** Lemmas *)

Lemma generer_data_js_eq p lignes w :
  generer_data_js p lignes w =
    ({| events_csv := events_csv w; data_js := Some (traduire_nl (os_linesep p) (contenu_data_js lignes)) |},
     length (contenu_data_js lignes)).
Proof. reflexivity. Qed.

(** The module has a line feed (the one after its banner). *)
Lemma lf_contenu_data_js lignes : (1 ≤ length (filter (λ c : N, c = 10%N) (contenu_data_js lignes)))%nat.
Proof.
  assert (Hin : 10 ∈ filter (λ c : N, c = 10%N) (contenu_data_js lignes)).
  { apply list_elem_of_filter. split; [done|]. unfold contenu_data_js. set_solver. }
  destruct (filter _ _); [set_solver|simpl; lia].
Qed.

Lemma traduire_contenu_data_js p lignes :
  traduire_nl (os_linesep p) (contenu_data_js lignes) =
    py:"// Auto-genere par generer-data-js.py - ne pas modifier manuellement" ++ os_linesep p ++
    py:"// " ++ int_repr (N.of_nat (length lignes)) ++ py:" lignes de donnees" ++ os_linesep p ++
    py:"var HANDBALL_DATA = " ++ traduire_nl (os_linesep p) (dumps (JArr (map row_json lignes))) ++
    py:";" ++ os_linesep p.
Proof.
  unfold contenu_data_js. rewrite !traduire_nl_app.
  rewrite (traduire_nl_no_lf _ (int_repr _)) by apply int_repr_no_lf.
  rewrite !(traduire_nl_no_lf _ (py:"// Auto-genere par generer-data-js.py - ne pas modifier manuellement")),
    !(traduire_nl_no_lf _ (py:"// ")), !(traduire_nl_no_lf _ (py:" lignes de donnees")),
    !(traduire_nl_no_lf _ (py:"var HANDBALL_DATA = ")), !(traduire_nl_no_lf _ (py:";"))
    by (apply (bool_decide_unpack _); vm_compute; exact I).
  by rewrite !traduire_nl_cons, !app_nil_r.
Qed.

Lemma lire_csv_fichier_Ok bs res :
  lire_csv_fichier bs = Ok res → ∃ records, lire_records bs = (records, None) ∧ lire_csv records = Ok res.
Proof.
  unfold lire_csv_fichier. destruct (lire_records bs) as [records [e|]].
  - by destruct (lire_csv records).
  - intros H. exists records. by destruct (lire_csv records).
Qed.

Lemma detect_go_keys keys acc s :
  detect_go keys acc = Ok s →
  (KNone ∉ keys) ∧
  (∀ t, t ∈ s → t ∈ acc ∨
    ∃ cle, KStr cle ∈ keys ∧ py_in phase_marker cle = true ∧
           t = py_strip (py_replace phase_marker [] cle) ∧ t ≠ []).
Proof.
  revert acc; induction keys as [|[cle|] keys IH]; intros acc; simpl.
  - intros [= <-]. split; [set_solver|]. auto.
  - destruct (py_in phase_marker cle) eqn:Hin.
    + intros (Hn & Hs)%IH. split; [set_solver|]. intros t Ht.
      destruct (Hs t Ht) as [Ht'|(c & Hc & Hc')]; [|right; exists c; set_solver].
      case_decide; [by left|]. apply elem_of_union in Ht' as [->%elem_of_singleton|]; [|by left].
      right. exists cle. set_solver.
    + intros (Hn & Hs)%IH. split; [set_solver|]. intros t Ht.
      destruct (Hs t Ht) as [|(c & Hc & Hc')]; [by left|right; exists c; set_solver].
  - done.
Qed.

Lemma detect_go_None keys acc : KNone ∈ keys → detect_go keys acc = Raise TypeError.
Proof.
  revert acc; induction keys as [|[cle|] keys IH]; intros acc Hin; simpl.
  - set_solver.
  - apply elem_of_cons in Hin as [[=]|Hin]. case_match; by apply IH.
  - done.
Qed.

(** ** Theorems *)

(** C12.  A run that exits with 0 read [Events.csv], no row of it raised,
    at least one row was kept, [data.js] now holds the module built from
    exactly the rows of the deduplication specification, and the console
    shows, after the banner and the paths, the number of those rows, the
    number of duplicates of the specification when there are some, the
    size of the module, the detected teams when there are some, and the
    summary. *)
Theorem main_data_js_success p dir w w' out :
  main_data_js p dir w = (Exit 0, w', out) →
  ∃ bs records, events_csv w = Some bs ∧ lire_records bs = (records, None) ∧
    let rows := dict_reader records in
    let lignes := dedup_spec row_blank row_fp rows in
    let taille := length (contenu_data_js lignes) in
    forallb row_safe rows = true ∧ lignes ≠ [] ∧
    w' = {| events_csv := events_csv w; data_js := Some (traduire_nl (os_linesep p) (contenu_data_js lignes)) |} ∧
    ∃ equipes, detecter_equipes lignes = Ok equipes ∧
      out = entete_data_js ++ chemins p dir ++
            rapport_lecture (length lignes) (dups_spec row_blank row_fp rows) ++
            [ligne_taille taille] ++ ligne_equipes equipes ++ fin_data_js (length lignes) taille.
Proof.
  unfold main_data_js. destruct (events_csv w) as [bs|] eqn:He; [|done].
  destruct (lire_csv_fichier bs) as [[lignes d]|e] eqn:Hl; [|done].
  apply lire_csv_fichier_Ok in Hl as (records & Hr & Hl). apply lire_csv_Ok in Hl as (Hs & -> & ->).
  case_decide as Hne; [done|]. rewrite generer_data_js_eq. cbv beta iota zeta.
  destruct (detecter_equipes _) as [equipes|] eqn:Hd; [|done].
  intros Heq. pose proof (f_equal snd Heq) as Ho. pose proof (f_equal (λ r, r.1.2) Heq) as Hw.
  cbv beta iota delta [fst snd] in Ho, Hw. subst w' out. exists bs, records.
  refine (conj eq_refl (conj Hr (conj Hs (conj Hne (conj _ (ex_intro _ equipes (conj Hd _))))))).
  - by rewrite He.
  - by rewrite <-!app_assoc.
Qed.

(** C13.  The fatal paths write nothing: without [Events.csv] the run
    prints the banner and the missing path and exits with 1; when every
    row is blank or a duplicate it prints the banner, the paths and the
    error line and exits with 1; when reading raises, the exception ends
    the run after the banner and the paths; in the three cases the world is
    unchanged. *)
Theorem main_data_js_fatal p dir w :
  (events_csv w = None →
     main_data_js p dir w = (Exit 1, w, entete_data_js ++ introuvable p dir)) ∧
  (∀ bs d, events_csv w = Some bs → lire_csv_fichier bs = Ok ([], d) →
     main_data_js p dir w = (Exit 1, w, entete_data_js ++ chemins p dir ++ aucune_ligne)) ∧
  (∀ bs e, events_csv w = Some bs → lire_csv_fichier bs = Raise e →
     main_data_js p dir w = (Crash e, w, entete_data_js ++ chemins p dir)).
Proof.
  unfold main_data_js. split_and!.
  - by intros ->.
  - intros bs d -> ->. rewrite decide_True by done. by rewrite <-app_assoc.
  - by intros bs e -> ->.
Qed.

(** C14.  When the first kept row has more cells than the header (its
    surplus cells sit under the key [None]), [main] writes [data.js],
    prints its size, and then raises [TypeError] in the team detection
    ([marker in None]), so the script ends with an error after having
    written its output and without its summary. *)
Theorem main_data_js_team_crash p dir w bs r lignes d :
  events_csv w = Some bs → lire_csv_fichier bs = Ok (r :: lignes, d) →
  KNone ∈ map fst r →
  main_data_js p dir w =
    (Crash TypeError,
     {| events_csv := events_csv w; data_js := Some (traduire_nl (os_linesep p) (contenu_data_js (r :: lignes))) |},
     entete_data_js ++ chemins p dir ++ rapport_lecture (S (length lignes)) d ++
     [ligne_taille (length (contenu_data_js (r :: lignes)))]).
Proof.
  intros He Hl Hk. unfold main_data_js. rewrite He, Hl. rewrite decide_False by done.
  rewrite generer_data_js_eq. cbv beta iota zeta. cbn [detecter_equipes]. rewrite detect_go_None by done. py_simpl.
  by rewrite He, <-!app_assoc.
Qed.

(** C15.  The detected teams are sorted, distinct, non-empty and without
    white space at either end, and each comes from a column of the first
    kept row whose name contains ["#03 Phase "], with the marker removed
    and the rest stripped. *)
Theorem detecter_equipes_spec lignes equipes :
  detecter_equipes lignes = Ok equipes →
  StronglySorted str_le equipes ∧ NoDup equipes ∧
  Forall (λ t, t ≠ [] ∧ py_strip t = t) equipes ∧
  ∀ t, t ∈ equipes → ∃ r cle, head lignes = Some r ∧ KStr cle ∈ map fst r ∧
    py_in phase_marker cle = true ∧ t = py_strip (py_replace phase_marker [] cle).
Proof.
  destruct lignes as [|r lignes]; simpl.
  { intros [= <-]. split_and!; [constructor|constructor|constructor|set_solver]. }
  destruct (detect_go (map fst r) ∅) as [s|e] eqn:Hd; py_simpl; [|done].
  intros [= <-]. apply detect_go_keys in Hd as [_ Hs].
  assert (Hs' : ∀ t, t ∈ py_sorted (elements s) → ∃ cle, KStr cle ∈ map fst r ∧
    py_in phase_marker cle = true ∧ t = py_strip (py_replace phase_marker [] cle) ∧ t ≠ []).
  { intros t Ht. rewrite elem_of_py_sorted, elem_of_elements in Ht.
    destruct (Hs t Ht) as [Hf|]; [set_solver|done]. }
  split_and!.
  - apply py_sorted_StronglySorted.
  - rewrite py_sorted_Permutation. apply NoDup_elements.
  - apply Forall_forall. intros t (cle & _ & _ & -> & Hne)%Hs'.
    split; [done|apply py_strip_idem].
  - intros t (cle & Hc & Hin & -> & _)%Hs'. exists r, cle. by split_and!.
Qed.

(** C16.  [generer_data_js] returns the number of code points of the
    module before the newline translation, which [main] prints as its size
    in kilobytes; the file holds the UTF-8 encoding of the translated
    text, so its byte length is larger as soon as the module has a
    non-ASCII character (as the column ['#08 résultat'] does), and always
    on Windows, where each line feed is written as two characters: the
    two agree exactly for an ASCII module on POSIX.  The specification
    says the byte size is returned.  The size line shows [n / 1024] with
    one decimal: the tenths [t] it prints are within half a tenth of the
    quotient, a tie giving an even [t]. *)
Theorem generer_data_js_size p lignes w w' n t bs :
  generer_data_js p lignes w = (w', n) → data_js w' = Some t → utf8_encode t = Ok bs →
  (n ≤ length bs)%nat ∧
  (n = length bs ↔ p = Posix ∧ Forall (λ c, c < 128) (contenu_data_js lignes)) ∧
  ∃ k, ligne_taille n = py:"  -> data.js genere (" ++ int_repr (k / 10) ++ [46; 48 + k mod 10] ++ py:" Ko)" ∧
    (2 * Z.abs (1024 * Z.of_N k - 10 * Z.of_nat n) ≤ 1024)%Z ∧
    ((2 * Z.abs (1024 * Z.of_N k - 10 * Z.of_nat n) = 1024)%Z → N.even k = true).
Proof.
  rewrite generer_data_js_eq. intros Hg Ht Hu.
  assert (n = length (contenu_data_js lignes)) as -> by congruence.
  assert (t = traduire_nl (os_linesep p) (contenu_data_js lignes)) as -> by (destruct w'; simplify_eq/=; done).
  assert (Hr : ∃ k, ligne_taille (length (contenu_data_js lignes)) =
      py:"  -> data.js genere (" ++ int_repr (k / 10) ++ [46; 48 + k mod 10] ++ py:" Ko)" ∧
      (2 * Z.abs (1024 * Z.of_N k - 10 * Z.of_nat (length (contenu_data_js lignes))) ≤ 1024)%Z ∧
      ((2 * Z.abs (1024 * Z.of_N k - 10 * Z.of_nat (length (contenu_data_js lignes))) = 1024)%Z →
       N.even k = true)).
  { exists (dixiemes (length (contenu_data_js lignes))). split; [|apply dixiemes_spec].
    unfold ligne_taille, format_ko. by rewrite <-!app_assoc. }
  destruct (length_utf8_encode_ge _ _ Hu) as [Hle Hiff].
  pose proof (length_traduire_nl (os_linesep p) (contenu_data_js lignes)) as Hl. cbn zeta in Hl.
  pose proof (lf_contenu_data_js lignes) as Hk.
  set (c := contenu_data_js lignes) in *.
  destruct p; cbn [os_linesep length] in Hl, Hle, Hiff.
  - rewrite traduire_nl_lf in Hle, Hiff. split_and!; [done|rewrite Hiff; naive_solver|done].
  - split_and!; [lia|split; [lia|by intros [[=] _]]|done].
Qed.

(** C29.  After a successful run [data.js] is the banner, the comment
    with the number of kept rows, and [var HANDBALL_DATA = L;], each line
    ended by [os.linesep], where the literal [L] reads back, as JSON, as
    the array of the kept rows in their order, each an object with the
    row's keys and cells. *)
Theorem main_data_js_module p dir w w' out :
  main_data_js p dir w = (Exit 0, w', out) →
  ∃ bs records L, events_csv w = Some bs ∧ lire_records bs = (records, None) ∧
    let lignes := dedup_spec row_blank row_fp (dict_reader records) in
    data_js w' = Some (py:"// Auto-genere par generer-data-js.py - ne pas modifier manuellement" ++ os_linesep p ++
      py:"// " ++ int_repr (N.of_nat (length lignes)) ++ py:" lignes de donnees" ++ os_linesep p ++
      py:"var HANDBALL_DATA = " ++ L ++ py:";" ++ os_linesep p) ∧
    parse_json L = Some (JArr (map row_json lignes)).
Proof.
  unfold main_data_js. destruct (events_csv w) as [bs|] eqn:He; [|done].
  destruct (lire_csv_fichier bs) as [[lignes d]|e] eqn:Hl; [|done].
  apply lire_csv_fichier_Ok in Hl as (records & Hr & Hl). apply lire_csv_Ok in Hl as (_ & -> & ->).
  case_decide; [done|]. rewrite generer_data_js_eq. cbv beta iota zeta. destruct (detecter_equipes _); [|done].
  intros Heq. pose proof (f_equal (λ r, r.1.2) Heq) as Hw. cbv beta iota delta [fst snd] in Hw. subst w'.
  eexists bs, records, _. split_and!; [done|done|cbn [data_js]; by rewrite traduire_contenu_data_js|].
  apply parse_json_linesep.
Qed.

(** C33.  The surplus cells of a record longer than the header sit
    under the key [None], which [json.dumps] writes as the string
    ["null"]: when the header has a column named [null], the object
    written for the row has the key ["null"] twice, first for the column
    and last for the list of surplus cells, and a JavaScript reader of
    [data.js] keeps only the last one. *)
Theorem row_json_duplicate_null_key fieldnames r :
  py:"null" ∈ fieldnames → (length fieldnames < length r)%nat →
  ∃ kv, row_json (dict_row fieldnames r) =
          JObj (kv ++ [(py:"null", JArr (map JStr (drop (length fieldnames) r)))]) ∧
        py:"null" ∈ map fst kv.
Proof.
  intros Hn Hl. unfold dict_row. cbv zeta. rewrite (proj2 (Nat.ltb_lt _ _) Hl).
  rewrite dict_set_new by apply zip_dict_no_restkey.
  exists (map (λ kc, (key_json kc.1, cell_json kc.2)) (zip_dict fieldnames r)).
  split; [unfold row_json; by rewrite map_app|].
  apply (zip_dict_keys fieldnames r) in Hn; [|lia].
  apply list_elem_of_fmap in Hn as ([k c] & Hk & Hin). simpl in Hk. subst k.
  rewrite map_map. apply list_elem_of_fmap. by exists (KStr (py:"null"), c).
Qed.

(** ** Witnesses *)

(** A header with the six fingerprint columns and two team columns. *)
Definition header_phase : list (list N) :=
  fingerprint_keys ++ [py:"#03 Phase Team1"; py:"#03 Phase  Team2 "].

Definition rec_phase1 : list (list N) :=
  [py:"GK"; py:"M1"; py:"A,B"; py:"C"; py:"10-8"; py:"Team1"; py:"x"; []].
Definition rec_phase2 : list (list N) :=
  [py:"LW"; py:"M2"; py:"D"; py:"E"; py:"9-9"; py:"Team2"; []; py:"x"].

Definition world_example : world :=
  {| events_csv := Some (csv_export [header_phase; rec_phase1; rec_phase1; rec_phase2] ≫= utf8_encode_char);
     data_js := None |}.

Lemma main_data_js_success_witness :
  let run := main_data_js Posix dir_example world_example in
  ∃ bs records, events_csv world_example = Some bs ∧ lire_records bs = (records, None) ∧
    let rows := dict_reader records in
    let lignes := dedup_spec row_blank row_fp rows in
    let taille := length (contenu_data_js lignes) in
    forallb row_safe rows = true ∧ lignes ≠ [] ∧
    run.1.2 = {| events_csv := events_csv world_example;
                 data_js := Some (traduire_nl (os_linesep Posix) (contenu_data_js lignes)) |} ∧
    ∃ equipes, detecter_equipes lignes = Ok equipes ∧
      run.2 = entete_data_js ++ chemins Posix dir_example ++
            rapport_lecture (length lignes) (dups_spec row_blank row_fp rows) ++
            [ligne_taille taille] ++ ligne_equipes equipes ++ fin_data_js (length lignes) taille.
Proof.
  apply (main_data_js_success Posix dir_example world_example (main_data_js Posix dir_example world_example).1.2
           (main_data_js Posix dir_example world_example).2).
  vm_compute. reflexivity.
Defined.

(** A first row with a ninth cell: the header has eight columns. *)
Definition rec_wide : list (list N) :=
  [py:"GK"; py:"M1"; py:"A,B"; py:"C"; py:"10-8"; py:"Team1"; []; []; py:"extra"].

Definition world_wide : world :=
  {| events_csv := Some (csv_export [header_phase; rec_wide] ≫= utf8_encode_char); data_js := None |}.

Lemma main_data_js_team_crash_witness :
  main_data_js Posix dir_example world_wide =
    (Crash TypeError,
     {| events_csv := events_csv world_wide;
        data_js := Some (traduire_nl (os_linesep Posix) (contenu_data_js [dict_row header_phase rec_wide])) |},
     entete_data_js ++ chemins Posix dir_example ++ rapport_lecture 1 0 ++
     [ligne_taille (length (contenu_data_js [dict_row header_phase rec_wide]))]).
Proof.
  apply (main_data_js_team_crash Posix dir_example world_wide (csv_export [header_phase; rec_wide] ≫= utf8_encode_char)
           (dict_row header_phase rec_wide) [] 0);
    [reflexivity|vm_compute; reflexivity|].
  apply list_elem_of_In. vm_compute. tauto.
Defined.

Lemma detecter_equipes_spec_witness :
  let equipes := [py:"Team1"; py:"Team2"] in
  StronglySorted str_le equipes ∧ NoDup equipes ∧
  Forall (λ t, t ≠ [] ∧ py_strip t = t) equipes ∧
  ∀ t, t ∈ equipes → ∃ r cle, head [dict_row header_phase rec_phase1] = Some r ∧
    KStr cle ∈ map fst r ∧ py_in phase_marker cle = true ∧
    t = py_strip (py_replace phase_marker [] cle).
Proof. apply detecter_equipes_spec. vm_compute. reflexivity. Defined.

(** A kept row of ASCII text, written on Windows. *)
Definition lignes_ascii : list row := [dict_row [py:"Nom"] [py:"Team1"]].

Lemma generer_data_js_size_witness :
  let c := contenu_data_js lignes_ascii in
  let n := length c in
  let t := traduire_nl (os_linesep Windows) c in
  ((n ≤ length (t ≫= utf8_encode_char))%nat ∧
   (n = length (t ≫= utf8_encode_char) ↔ Windows = Posix ∧ Forall (λ x, x < 128) c) ∧
   ∃ k, ligne_taille n = py:"  -> data.js genere (" ++ int_repr (k / 10) ++ [46; 48 + k mod 10] ++ py:" Ko)" ∧
     (2 * Z.abs (1024 * Z.of_N k - 10 * Z.of_nat n) ≤ 1024)%Z ∧
     ((2 * Z.abs (1024 * Z.of_N k - 10 * Z.of_nat n) = 1024)%Z → N.even k = true)) ∧
  Forall (λ x, x < 128) c ∧ (n < length (t ≫= utf8_encode_char))%nat.
Proof.
  refine (conj _ (conj _ _)).
  - apply (generer_data_js_size Windows lignes_ascii world_example
             {| events_csv := events_csv world_example;
                data_js := Some (traduire_nl (os_linesep Windows) (contenu_data_js lignes_ascii)) |}
             (length (contenu_data_js lignes_ascii)) (traduire_nl (os_linesep Windows) (contenu_data_js lignes_ascii)));
      [reflexivity|reflexivity|].
    vm_compute. reflexivity.
  - apply (bool_decide_unpack _). vm_compute. exact I.
  - vm_compute. lia.
Defined.

Lemma main_data_js_module_witness :
  ∃ bs records L, events_csv world_example = Some bs ∧ lire_records bs = (records, None) ∧
    let lignes := dedup_spec row_blank row_fp (dict_reader records) in
    data_js (main_data_js Posix dir_example world_example).1.2 =
      Some (py:"// Auto-genere par generer-data-js.py - ne pas modifier manuellement" ++ os_linesep Posix ++
        py:"// " ++ int_repr (N.of_nat (length lignes)) ++ py:" lignes de donnees" ++ os_linesep Posix ++
        py:"var HANDBALL_DATA = " ++ L ++ py:";" ++ os_linesep Posix) ∧
    parse_json L = Some (JArr (map row_json lignes)).
Proof.
  apply (main_data_js_module Posix dir_example world_example (main_data_js Posix dir_example world_example).1.2
           (main_data_js Posix dir_example world_example).2).
  vm_compute. reflexivity.
Defined.

(** A header whose last column is named [null], and a record with one
    cell more than the header. *)
Definition header_null : list (list N) := fingerprint_keys ++ [py:"null"].
Definition rec_null : list (list N) := [py:"GK"; py:"M1"; py:"A"; py:"C"; py:"10-8"; py:"T"; py:"a"; py:"b"].

Lemma row_json_duplicate_null_key_witness :
  ∃ kv, row_json (dict_row header_null rec_null) =
          JObj (kv ++ [(py:"null", JArr (map JStr (drop (length header_null) rec_null)))]) ∧
        py:"null" ∈ map fst kv.
Proof.
  apply row_json_duplicate_null_key; [|vm_compute; lia].
  apply elem_of_app. right. by left.
Defined.
