(* ===== verification/IndexMain.v ===== *)
(** * [main()] of src/generer-index.py (lines 40-106)

    The script directory is a list of entries ([fsnode] of [PhotoWalk]);
    [Effectifs] is one of them.  [main_index] looks it up, lists it
    ([sorted(effectifs_dir.iterdir())]), and for each team folder in that
    order lists its photos, writes [index.json] into it with [json.dump]
    and records the list in [all_indexes]; it then writes
    [photos-index.js] into the script directory.  Files are written with
    [encoding='utf-8']: a file holds bytes, and a chunk whose text holds a
    lone surrogate (a name that was not valid UTF-8 on disk) raises
    [UnicodeEncodeError] when it is written, after the earlier chunks.
    Both files are opened in text mode, so each line feed is written as
    [os.linesep] of the [platform] (a carriage return and a line feed on
    Windows), and opening an [index.json] that is a directory raises
    [erreur_dossier] ([IsADirectoryError] on POSIX, [PermissionError] on
    Windows).
    The loop state keeps the counters the script prints and the lines
    the loop printed; a run returns them after the banner and before the
    summary ([Console]). *)

From S2P Require Import Prelude Utf8 CsvRow Json JsonParse PhotoWalk Console.

(** ** Directory entries *)

(** The entry of a directory that a name resolves to. *)
Definition find_entry (nm : list N) (ch : list fsnode) : option fsnode :=
  find (λ n, bool_decide (node_name n = nm)) ch.

(** The children of the sub-directory [nm], as [os.scandir] reads them. *)
Definition dir_children (nm : list N) (ch : list fsnode) : list fsnode :=
  match find_entry nm ch with Some (Dir _ c) => c | _ => [] end.

(** Replace the entry named [nm] by [n'], or create it at the end of the
    listing. *)
Fixpoint set_entry (nm : list N) (n' : fsnode) (ch : list fsnode) : list fsnode :=
  match ch with
  | [] => [n']
  | n :: ch' => if decide (node_name n = nm) then n' :: ch' else n :: set_entry nm n' ch'
  end.

(** ** Writing a text file *)

(** The bytes of successive [f.write(chunk)] calls on a file opened with
    [encoding='utf-8']: each chunk is encoded when it is written; the
    first one that cannot be encoded raises, and the bytes written before
    it stay in the file when the [with] block closes it. *)
Fixpoint encode_chunks (chunks : list (list N)) : list N * option pyexc :=
  match chunks with
  | [] => ([], None)
  | c :: cs =>
      match utf8_encode c with
      | Ok b => let '(rest, e) := encode_chunks cs in (b ++ rest, e)
      | Raise e => ([], Some e)
      end
  end.

(** [with open(path, 'w', encoding='utf-8') as f:] followed by the
    writes: opening a directory raises ([erreur_dossier]); otherwise the
    file is created or truncated, then each chunk is written in text mode,
    its line feeds translated to [os.linesep] ([traduire_nl]) and then
    encoded. *)
Definition ecrire (p : platform) (nm : list N) (chunks : list (list N)) (ch : list fsnode)
  : list fsnode * option pyexc :=
  match find_entry nm ch with
  | Some (Dir _ _) => (ch, Some (erreur_dossier p))
  | _ =>
      let '(bs, e) := encode_chunks (map (traduire_nl (os_linesep p)) chunks) in
      (set_entry nm (File nm bs) ch, e)
  end.

(** ** One team folder, lines 65-87 *)

Definition effectifs_nom : list N := py:"Effectifs".
Definition index_nom : list N := py:"index.json".
Definition photos_index_nom : list N := py:"photos-index.js".

(** [index_data], lines 74-78. *)
Definition index_data (nom : list N) (photos : list (list N)) : json :=
  JObj [(py:"photos", JArr (map JStr photos));
        (py:"count", JInt (N.of_nat (length photos)));
        (py:"team", JStr nom)].

(** [status], line 86. *)
Definition statut (nb_photos : nat) : list N :=
  if bool_decide (0 < nb_photos)%nat then str_nat nb_photos ++ py:" photo(s)" else py:"aucune photo".

(** The line of a team folder, line 87. *)
Definition ligne_equipe (nom : list N) (nb_photos : nat) : list N :=
  py:"  " ++ pad20 nom ++ py:" -> " ++ statut nb_photos.

(** The loop state: the counters, [all_indexes], the current content of
    [Effectifs], and the lines the loop printed. *)
Record istate := {
  equipes_trouvees : nat;
  total_photos : nat;
  all_indexes : list (list N * json);
  effectifs : list fsnode;
  console : list (list N)
}.

(** The body of the loop for one entry [dossier] of [Effectifs]. *)
Definition traiter_entree (p : platform) (st : istate) (dossier : fsnode) : istate * option pyexc :=
  match dossier with
  | File _ _ => (st, None)
  | Dir nom_equipe _ =>
      let photos := lister_photos p (dir_children nom_equipe (effectifs st)) in
      let '(ch', e) := ecrire p index_nom (iterencode (index_data nom_equipe photos))
                              (dir_children nom_equipe (effectifs st)) in
      let st1 := {| equipes_trouvees := S (equipes_trouvees st);
                    total_photos := total_photos st + length photos;
                    all_indexes := all_indexes st;
                    effectifs := set_entry nom_equipe (Dir nom_equipe ch') (effectifs st);
                    console := console st |} in
      match e with
      | Some e => (st1, Some e)
      | None =>
          ({| equipes_trouvees := equipes_trouvees st1; total_photos := total_photos st1;
              all_indexes := dict_set (all_indexes st) nom_equipe (JArr (map JStr photos));
              effectifs := effectifs st1;
              console := console st ++ [ligne_equipe nom_equipe (length photos)] |}, None)
      end
  end.

(** [for dossier in ...:], stopping at the first exception. *)
Fixpoint boucle (p : platform) (st : istate) (dossiers : list fsnode) : istate * option pyexc :=
  match dossiers with
  | [] => (st, None)
  | d :: ds =>
      let '(st', e) := traiter_entree p st d in
      match e with Some _ => (st', e) | None => boucle p st' ds end
  end.

(** [sorted(effectifs_dir.iterdir())]: paths of one directory compare by
    their names, case-sensitively on POSIX and after [str.lower] on
    Windows ([PureWindowsPath]).  [merge_sort] and Python's sort are both
    stable, so they return the same list. *)
Definition cle_tri (p : platform) (nm : list N) : list N :=
  match p with Posix => nm | Windows => py_lower nm end.

Definition entree_le (p : platform) (a b : fsnode) : Prop :=
  str_le (cle_tri p (node_name a)) (cle_tri p (node_name b)).

#[export] Instance entree_le_dec p : RelDecision (entree_le p).
Proof. intros a b. unfold entree_le. apply _. Defined.

Definition trier (p : platform) (ch : list fsnode) : list fsnode := merge_sort (entree_le p) ch.

(** ** [main()] *)

(** [js_content], lines 91-92. *)
Definition contenu_js (all : list (list N * json)) : list N :=
  py:"// Auto-genere par generer-index.py - ne pas modifier" ++ [10] ++
  py:"var PHOTOS_INDEX = " ++ dumps (JObj all) ++ [59; 10].

(** The banner and the paths, lines 41-51, for the script in the
    absolute directory [dir]. *)
Definition entete_index (p : platform) (dir : list N) : list (list N) :=
  [regle; py:"  GENERATION DES INDEX DE PHOTOS - WEBAPP HANDBALL"; regle; [];
   py:"Repertoire de travail : " ++ dir; py:"Dossier Effectifs     : " ++ joinpath p dir effectifs_nom; []].

(** Lines 54-56, before [sys.exit(1)]. *)
Definition absent_index (p : platform) (dir : list N) : list (list N) :=
  [py:"ERREUR : Le dossier 'Effectifs' n'existe pas !";
   py:"   Creez le dossier : " ++ joinpath p dir effectifs_nom; []].

(** Lines 96-106, after [photos-index.js] is written. *)
Definition fin_index (equipes total : nat) : list (list N) :=
  [[]; py:"  " ++ pad20 photos_index_nom ++ py:" -> genere (" ++ str_nat equipes ++ py:" equipe(s))"; [];
   regle;
   if bool_decide (equipes = 0%nat) then py:"Aucune equipe trouvee dans Effectifs/"
   else py:"TERMINE : " ++ str_nat equipes ++ py:" equipe(s), " ++ str_nat total ++ py:" photo(s) indexee(s)";
   regle; []].

(** [main()], lines 40-106, for the script in the absolute directory
    [dir] whose entries are [racine]: the outcome, the script directory
    afterwards, and the lines printed up to the end or to the exception. *)
Definition main_index (p : platform) (dir : list N) (racine : list fsnode)
  : outcome * list fsnode * list (list N) :=
  let out := entete_index p dir in
  match find_entry effectifs_nom racine with
  | None => (Exit 1, racine, out ++ absent_index p dir)
  | Some (File _ _) => (Crash NotADirectoryError, racine, out)
  | Some (Dir _ eff) =>
      let st0 := {| equipes_trouvees := 0; total_photos := 0; all_indexes := []; effectifs := eff;
                    console := [] |} in
      let '(st, e) := boucle p st0 (trier p eff) in
      let racine' := set_entry effectifs_nom (Dir effectifs_nom (effectifs st)) racine in
      let out' := out ++ console st in
      match e with
      | Some e => (Crash e, racine', out')
      | None =>
          let '(racine'', e') := ecrire p photos_index_nom [contenu_js (all_indexes st)] racine' in
          match e' with
          | Some e => (Crash e, racine'', out')
          | None => (Exit 0, racine'', out' ++ fin_index (equipes_trouvees st) (total_photos st))
          end
      end
  end.

(** ** Lemmas on directory entries *)

Lemma find_entry_Some nm ch n : find_entry nm ch = Some n → n ∈ ch ∧ node_name n = nm.
Proof.
  unfold find_entry. induction ch as [|m ch IH]; simpl; [done|].
  case_bool_decide; [intros [= <-]; split; [by left|done]|].
  intros [? ?]%IH. split; [by right|done].
Qed.

Lemma find_entry_NoDup ch n : NoDup (map node_name ch) → n ∈ ch → find_entry (node_name n) ch = Some n.
Proof.
  unfold find_entry. induction ch as [|m ch IH]; simpl; [set_solver|].
  rewrite NoDup_cons. intros [Hm Hnd] Hn. apply elem_of_cons in Hn as [->|Hn].
  - by rewrite bool_decide_true.
  - rewrite bool_decide_false; [by apply IH|]. intros Heq. apply Hm. rewrite Heq.
    apply list_elem_of_fmap. by exists n.
Qed.

Lemma find_entry_map (f : fsnode → fsnode) nm ch :
  (∀ n, node_name (f n) = node_name n) → find_entry nm (map f ch) = f <$> find_entry nm ch.
Proof.
  intros Hf. unfold find_entry. induction ch as [|m ch IH]; simpl; [done|].
  rewrite Hf. by case_bool_decide.
Qed.

Lemma find_entry_set_entry_eq nm n' ch :
  node_name n' = nm → find_entry nm (set_entry nm n' ch) = Some n'.
Proof.
  intros Hn. unfold find_entry. induction ch as [|m ch IH]; simpl.
  - by rewrite bool_decide_true.
  - case_decide; simpl; [by rewrite bool_decide_true|]. by rewrite bool_decide_false.
Qed.

Lemma find_entry_set_entry_ne nm nm' n' ch :
  node_name n' = nm → nm ≠ nm' → find_entry nm' (set_entry nm n' ch) = find_entry nm' ch.
Proof.
  intros Hn Hne. unfold find_entry. induction ch as [|m ch IH]; simpl.
  - by rewrite bool_decide_false by congruence.
  - case_decide; simpl.
    + rewrite !bool_decide_false by congruence. done.
    + by case_bool_decide.
Qed.

(** Writing back the entry a name resolves to changes nothing. *)
Lemma set_entry_same nm n ch : find_entry nm ch = Some n → set_entry nm n ch = ch.
Proof.
  unfold find_entry. induction ch as [|m ch IH]; simpl; [done|].
  case_bool_decide; [intros [= ->]; by rewrite decide_True|].
  intros Hf. rewrite decide_False by done. by rewrite IH.
Qed.

(** A second write to the same name replaces the first. *)
Lemma set_entry_twice nm n1 n2 ch :
  node_name n1 = nm → set_entry nm n2 (set_entry nm n1 ch) = set_entry nm n2 ch.
Proof.
  intros Hn. induction ch as [|m ch IH]; simpl.
  - by rewrite decide_True.
  - case_decide; simpl; [by rewrite decide_True|]. by rewrite decide_False, IH.
Qed.

(** ** Writing a file *)

Lemma encode_chunks_valid cs :
  forallb valid_char (concat cs) = true → encode_chunks cs = (concat cs ≫= utf8_encode_char, None).
Proof.
  induction cs as [|c cs IH]; simpl; [done|]. rewrite forallb_app.
  intros [Hc Hcs]%andb_prop. rewrite utf8_encode_valid, IH by done. by rewrite bind_app.
Qed.

(** Whether an optional entry is a directory. *)
Definition est_dossier (o : option fsnode) : bool :=
  match o with Some (Dir _ _) => true | _ => false end.

Lemma ecrire_ok p nm cs ch :
  est_dossier (find_entry nm ch) = false → forallb valid_char (concat cs) = true →
  ecrire p nm cs ch =
    (set_entry nm (File nm (traduire_nl (os_linesep p) (concat cs) ≫= utf8_encode_char)) ch, None).
Proof.
  intros Hd Hv. unfold ecrire.
  rewrite encode_chunks_valid by (by rewrite traduire_nl_concat, valid_traduire_linesep).
  rewrite traduire_nl_concat. destruct (find_entry nm ch) as [[]|]; done.
Qed.

(** ** What a run that does not raise writes *)

(** The text of [index.json] for the team folder [nom] holding [ch]. *)
Definition texte_index (p : platform) (nom : list N) (ch : list fsnode) : list N :=
  traduire_nl (os_linesep p) (dumps (index_data nom (lister_photos p ch))).

(** A team folder once [index.json] is written into it. *)
Definition avec_index (p : platform) (n : fsnode) : fsnode :=
  match n with
  | Dir nom ch => Dir nom (set_entry index_nom (File index_nom (texte_index p nom ch ≫= utf8_encode_char)) ch)
  | File _ _ => n
  end.

(** The entry of [all_indexes] for an entry of [Effectifs]. *)
Definition equipe_json (p : platform) (n : fsnode) : list (list N * json) :=
  match n with
  | Dir nom ch => [(nom, JArr (map JStr (lister_photos p ch)))]
  | File _ _ => []
  end.

Definition nb_photos (p : platform) (n : fsnode) : nat :=
  match n with Dir _ ch => length (lister_photos p ch) | File _ _ => 0 end.

(** The line printed for an entry of [Effectifs]. *)
Definition lignes_equipe (p : platform) (n : fsnode) : list (list N) :=
  match n with Dir nom ch => [ligne_equipe nom (length (lister_photos p ch))] | File _ _ => [] end.

(** The conditions under which a team folder is processed without an
    exception: [index.json] is not a directory, and the team name and the
    photo paths hold no lone surrogate. *)
Definition index_ok (p : platform) (n : fsnode) : bool :=
  match n with
  | Dir nom ch =>
      negb (est_dossier (find_entry index_nom ch)) && forallb valid_char nom &&
      forallb (forallb valid_char) (lister_photos p ch)
  | File _ _ => true
  end.

Definition noms_equipes (ds : list fsnode) : list (list N) :=
  map node_name (filter (λ n, is_dir n = true) ds).

(** [Effectifs] once the team folders named in [fait] are processed. *)
Definition maj (p : platform) (fait : list (list N)) (m : fsnode) : fsnode :=
  if decide (node_name m ∈ fait) then avec_index p m else m.

Lemma node_name_avec_index p n : node_name (avec_index p n) = node_name n.
Proof. by destruct n. Qed.

Lemma node_name_maj p fait n : node_name (maj p fait n) = node_name n.
Proof. unfold maj. case_decide; [apply node_name_avec_index|done]. Qed.

Lemma map_maj_ext p f1 f2 eff :
  (∀ x, x ∈ f1 ↔ x ∈ f2) → map (maj p f1) eff = map (maj p f2) eff.
Proof.
  intros Hf. apply map_ext. intros m. unfold maj.
  destruct (decide (node_name m ∈ f1)) as [H|H]; [rewrite decide_True|rewrite decide_False];
    naive_solver.
Qed.

Lemma index_data_ok_iff nom photos :
  json_ok (index_data nom photos) = forallb valid_char nom && forallb (forallb valid_char) photos.
Proof.
  cbn [index_data json_ok forallb fst snd]. change (forallb valid_char (py:"photos")) with true.
  change (forallb valid_char (py:"count")) with true. change (forallb valid_char (py:"team")) with true.
  cbn [andb]. rewrite !andb_true_r, andb_comm. f_equal.
  induction photos as [|x photos IH]; simpl; [done|]. by rewrite IH.
Qed.

Lemma index_data_ok nom photos :
  forallb valid_char nom = true → forallb (forallb valid_char) photos = true →
  json_ok (index_data nom photos) = true.
Proof. rewrite index_data_ok_iff. by intros -> ->. Qed.

(** The bytes written before an exception are the encoding of a prefix
    of the text, made of whole chunks. *)
Lemma encode_chunks_prefix cs :
  ∃ t, t `prefix_of` concat cs ∧ forallb valid_char t = true ∧ (encode_chunks cs).1 = t ≫= utf8_encode_char.
Proof.
  induction cs as [|c cs (t & Ht & Hv & He)]; simpl; [by exists []|]. unfold utf8_encode.
  destruct (forallb valid_char c) eqn:Hc; simpl; [|by exists []; split_and!; [apply prefix_nil| |]].
  destruct (encode_chunks cs) as [bs e]. simpl in He. subst bs. exists (c ++ t).
  split_and!; [by apply prefix_app|by rewrite forallb_app, Hc, Hv|by rewrite bind_app].
Qed.

Lemma encode_chunks_error cs :
  (encode_chunks cs).2 = if forallb valid_char (concat cs) then None else Some UnicodeEncodeError.
Proof.
  induction cs as [|c cs IH]; simpl; [done|]. rewrite forallb_app. unfold utf8_encode.
  destruct (forallb valid_char c); simpl; [|done].
  destruct (encode_chunks cs) as [bs e]. simpl in *. done.
Qed.

(** Chunks whose text does not encode: the write raises after the
    encoding of a proper prefix of the text. *)
Lemma encode_chunks_fail cs :
  forallb valid_char (concat cs) = false →
  ∃ t, t `prefix_of` concat cs ∧ t ≠ concat cs ∧
    encode_chunks cs = (t ≫= utf8_encode_char, Some UnicodeEncodeError).
Proof.
  intros Hc. pose proof (encode_chunks_error cs) as Herr. rewrite Hc in Herr.
  destruct (encode_chunks_prefix cs) as (t & Ht & Hv & Hb). exists t. split_and!; [done|congruence|].
  destruct (encode_chunks cs). simpl in *. by subst.
Qed.

Lemma flat_map_photos_set_entry p root nm c ch :
  est_photo nm = false → est_dossier (find_entry nm ch) = false →
  flat_map (photos_entry p root) (set_entry nm (File nm c) ch) = flat_map (photos_entry p root) ch.
Proof.
  intros Hp. unfold find_entry. induction ch as [|m ch IH]; simpl.
  - intros _. unfold photo_of. by rewrite Hp.
  - case_bool_decide as Hm.
    + destruct m as [nm' c'|]; [|done]. intros _. simpl in *. subst. rewrite decide_True by done.
      simpl. unfold photo_of. by rewrite Hp.
    + rewrite decide_False by done. intros Hd. simpl. by rewrite IH.
Qed.

(** Writing [index.json] into a folder does not change its photos. *)
Lemma lister_photos_set_index p c ch :
  est_dossier (find_entry index_nom ch) = false →
  lister_photos p (set_entry index_nom (File index_nom c) ch) = lister_photos p ch.
Proof.
  intros Hd. rewrite !lister_photos_flat_map, flat_map_photos_set_entry by (done || by vm_compute).
  done.
Qed.

(** Writing back a team folder updates its entry in [Effectifs]. *)
Lemma set_entry_maj p fait eff nom ch :
  NoDup (map node_name eff) → Dir nom ch ∈ eff → nom ∉ fait →
  set_entry nom (avec_index p (Dir nom ch)) (map (maj p fait) eff) = map (maj p (nom :: fait)) eff.
Proof.
  intros Hnd Hin Hf. induction eff as [|m eff IH]; [set_solver|].
  cbn [map] in *. apply NoDup_cons in Hnd as [Hm Hnd]. cbn [set_entry].
  rewrite node_name_maj. destruct (decide (node_name m = nom)) as [Heq|Hne].
  - assert (m = Dir nom ch) as ->.
    { apply elem_of_cons in Hin as [->|Hin]; [done|]. exfalso. apply Hm. rewrite Heq.
      apply list_elem_of_fmap. by exists (Dir nom ch). }
    unfold maj at 2. rewrite decide_True by (simpl; by left). f_equal.
    apply map_ext_in. intros m' Hm'%list_elem_of_In. unfold maj.
    assert (node_name m' ≠ nom).
    { intros <-. apply Hm. apply list_elem_of_fmap. by exists m'. }
    destruct (decide (node_name m' ∈ fait)); [rewrite decide_True by set_solver|
      rewrite decide_False by set_solver]; done.
  - apply elem_of_cons in Hin as [<-|Hin]; [by simpl in Hne|]. rewrite IH by done. f_equal.
    unfold maj. destruct (decide (node_name m ∈ fait)); [rewrite decide_True by set_solver|
      rewrite decide_False by set_solver]; done.
Qed.

(** One team folder, processed without an exception. *)
Lemma traiter_entree_ok p eff fait st d :
  NoDup (map node_name eff) → d ∈ eff → node_name d ∉ fait →
  (∀ k, k ∈ map fst (all_indexes st) → k ∈ fait) →
  effectifs st = map (maj p fait) eff → index_ok p d = true →
  traiter_entree p st d =
    ({| equipes_trouvees := equipes_trouvees st + length (filter (λ n, is_dir n = true) [d]);
        total_photos := total_photos st + nb_photos p d;
        all_indexes := all_indexes st ++ equipe_json p d;
        effectifs := map (maj p (noms_equipes [d] ++ fait)) eff;
        console := console st ++ lignes_equipe p d |}, None).
Proof.
  intros Hnd Hd Hf Hk He Hok. destruct st as [n t a e o]; simpl in *.
  destruct d as [nm c|nom ch]; simpl.
  - by rewrite !Nat.add_0_r, !app_nil_r, He.
  - assert (Hch : dir_children nom e = ch).
    { unfold dir_children. rewrite He, find_entry_map by apply node_name_maj.
      pose proof (find_entry_NoDup eff _ Hnd Hd) as Hfe. simpl in Hfe. rewrite Hfe. simpl. unfold maj.
      by rewrite decide_False. }
    rewrite Hch. apply andb_prop in Hok as [[Hi Hn]%andb_prop Hp].
    rewrite ecrire_ok; [|by destruct (est_dossier _)|].
    2: { rewrite iterencode_dumps. apply valid_dumps_at, index_data_ok; done. }
    rewrite iterencode_dumps. fold (texte_index p nom ch).
    change (Dir nom (set_entry _ _ ch)) with (avec_index p (Dir nom ch)).
    rewrite He, set_entry_maj by done. rewrite dict_set_new by naive_solver.
    do 3 f_equal. lia.
Qed.

Lemma noms_equipes_cons d ds : noms_equipes (d :: ds) = noms_equipes [d] ++ noms_equipes ds.
Proof. unfold noms_equipes. rewrite !filter_cons, filter_nil. by case_decide. Qed.

Lemma noms_equipes_single d : noms_equipes [d] = if is_dir d then [node_name d] else [].
Proof. unfold noms_equipes. rewrite filter_cons, filter_nil. case_decide; destruct (is_dir d); done. Qed.

(** The loop over team folders that all satisfy [index_ok]. *)
Lemma boucle_ok p eff :
  NoDup (map node_name eff) → ∀ ds fait st,
  (∀ d, d ∈ ds → d ∈ eff) → NoDup (map node_name ds) → (∀ d, d ∈ ds → node_name d ∉ fait) →
  (∀ k, k ∈ map fst (all_indexes st) → k ∈ fait) →
  effectifs st = map (maj p fait) eff → forallb (index_ok p) ds = true →
  boucle p st ds =
    ({| equipes_trouvees := equipes_trouvees st + length (filter (λ n, is_dir n = true) ds);
        total_photos := total_photos st + sum_list (map (nb_photos p) ds);
        all_indexes := all_indexes st ++ flat_map (equipe_json p) ds;
        effectifs := map (maj p (noms_equipes ds ++ fait)) eff;
        console := console st ++ flat_map (lignes_equipe p) ds |}, None).
Proof.
  intros Hnd ds. induction ds as [|d ds IH]; intros fait st Hin Hds Hf Hk He Hok.
  - destruct st; simpl in *. by rewrite !Nat.add_0_r, !app_nil_r, He.
  - cbn [map] in Hds. apply NoDup_cons in Hds as [Hdn Hds]. simpl in Hok.
    apply andb_prop in Hok as [Hok1 Hok]. cbn [boucle].
    rewrite (traiter_entree_ok p eff fait st d) by set_solver. rewrite (IH (noms_equipes [d] ++ fait)).
    + cbn -[filter]. rewrite (map_maj_ext p _ (noms_equipes (d :: ds) ++ fait)).
      { rewrite !filter_cons, !filter_nil. repeat case_decide; cbn [length]; try congruence; do 2 f_equal; try lia; by rewrite <-app_assoc. }
      intros x. rewrite (noms_equipes_cons d ds), !elem_of_app. tauto.
    + intros d' Hd'. apply Hin. by right.
    + done.
    + intros d' Hd'. rewrite noms_equipes_single, elem_of_app.
      assert (node_name d' ≠ node_name d) by (intros Heq; apply Hdn; rewrite <-Heq;
        apply list_elem_of_fmap; by exists d').
      assert (node_name d' ∉ fait) by (apply Hf; by right).
      destruct (is_dir d); rewrite ?list_elem_of_singleton; [|rewrite elem_of_nil]; tauto.
    + intros k. simpl. rewrite map_app, !elem_of_app, noms_equipes_single.
      intros [Hk'|Hk']; [right; by apply Hk|left]. destruct d as [nm c|nom ch]; simpl in *.
      * by apply not_elem_of_nil in Hk'.
      * by apply list_elem_of_singleton in Hk' as ->; left.
    + done.
    + done.
Qed.

(** The loop over two lists: the second runs when the first raised
    nothing. *)
Lemma boucle_app p st l1 l2 :
  boucle p st (l1 ++ l2) =
    let '(st', e) := boucle p st l1 in match e with Some _ => (st', e) | None => boucle p st' l2 end.
Proof.
  revert st; induction l1 as [|d l1 IH]; intros st; [done|]. cbn [app boucle].
  destruct (traiter_entree p st d) as [st1 [e|]]; [done|apply IH].
Qed.

(** A team folder not processed yet is read as it is. *)
Lemma dir_children_maj p fait eff nom ch :
  NoDup (map node_name eff) → Dir nom ch ∈ eff → nom ∉ fait → dir_children nom (map (maj p fait) eff) = ch.
Proof.
  intros Hnd Hd Hf. unfold dir_children. rewrite find_entry_map by apply node_name_maj.
  pose proof (find_entry_NoDup eff _ Hnd Hd) as Hfe. simpl in Hfe. rewrite Hfe. simpl. unfold maj.
  by rewrite decide_False.
Qed.

Lemma all_indexes_ok p ds :
  forallb (index_ok p) ds = true → json_ok (JObj (flat_map (equipe_json p) ds)) = true.
Proof.
  induction ds as [|d ds IH]; simpl; [done|]. intros [Hd Hds]%andb_prop.
  rewrite forallb_app. apply andb_true_intro. split; [|by apply IH].
  destruct d as [nm c|nom ch]; [done|]. simpl in *.
  apply andb_prop in Hd as [[_ ->]%andb_prop Hp]. simpl. rewrite andb_true_r.
  induction (lister_photos p ch) as [|x l IHl]; [done|]. simpl in *.
  apply andb_prop in Hp as [-> Hp]. by apply IHl.
Qed.

Lemma valid_contenu_js all : json_ok (JObj all) = true → forallb valid_char (contenu_js all) = true.
Proof.
  intros Hj. unfold contenu_js. rewrite !forallb_app. unfold dumps.
  rewrite valid_dumps_at by done. done.
Qed.

Lemma map_maj_nil p eff : map (maj p []) eff = eff.
Proof. induction eff as [|m eff IH]; simpl; [done|]. unfold maj at 1. rewrite decide_False by set_solver. by rewrite IH. Qed.

Lemma forallb_perm {A} (f : A → bool) l1 l2 : l1 ≡ₚ l2 → forallb f l1 = forallb f l2.
Proof. induction 1; simpl; try congruence; by rewrite !andb_assoc, (andb_comm (f y)). Qed.

(** After the loop, every team folder of [Effectifs] holds its index. *)
Lemma maj_trier p eff :
  map (maj p (noms_equipes (trier p eff) ++ [])) eff = map (avec_index p) eff.
Proof.
  apply map_ext_in. intros m Hm%list_elem_of_In. unfold maj.
  destruct m as [nm c|nom ch]; [by case_decide|]. rewrite decide_True; [done|].
  apply elem_of_app. left. unfold noms_equipes. apply list_elem_of_fmap.
  exists (Dir nom ch). split; [done|]. apply list_elem_of_filter. split; [done|].
  unfold trier. by rewrite merge_sort_Permutation.
Qed.

(** A run that does not raise, in closed form. *)
Lemma main_index_ok p dir racine nm eff :
  find_entry effectifs_nom racine = Some (Dir nm eff) →
  NoDup (map node_name eff) → forallb (index_ok p) eff = true →
  est_dossier (find_entry photos_index_nom racine) = false →
  main_index p dir racine =
    (Exit 0,
     set_entry photos_index_nom
       (File photos_index_nom
          (traduire_nl (os_linesep p) (contenu_js (flat_map (equipe_json p) (trier p eff))) ≫= utf8_encode_char))
       (set_entry effectifs_nom (Dir effectifs_nom (map (avec_index p) eff)) racine),
     entete_index p dir ++ flat_map (lignes_equipe p) (trier p eff) ++
     fin_index (length (filter (λ n, is_dir n = true) (trier p eff))) (sum_list (map (nb_photos p) (trier p eff)))).
Proof.
  intros He Hnd Hok Hjs. unfold main_index. rewrite He.
  pose proof (merge_sort_Permutation (entree_le p) eff) as Hperm. fold (trier p eff) in Hperm.
  rewrite (boucle_ok p eff Hnd (trier p eff) []).
  - cbn [equipes_trouvees total_photos all_indexes effectifs console app]. rewrite maj_trier.
    rewrite ecrire_ok.
    + cbn [concat]. by rewrite app_nil_r, app_assoc.
    + by rewrite find_entry_set_entry_ne.
    + cbn [concat]. rewrite app_nil_r. apply valid_contenu_js, all_indexes_ok. by rewrite (forallb_perm _ _ _ Hperm).
  - intros d Hd. by rewrite <-Hperm.
  - by rewrite Hperm.
  - set_solver.
  - set_solver.
  - simpl. by rewrite map_maj_nil.
  - by rewrite (forallb_perm _ _ _ Hperm).
Qed.

Lemma index_ok_avec_index p d : index_ok p d = true → index_ok p (avec_index p d) = index_ok p d.
Proof.
  destruct d as [nm c|nom ch]; [done|]. simpl. intros [[Hi Hn]%andb_prop Hp]%andb_prop.
  rewrite find_entry_set_entry_eq by done. rewrite lister_photos_set_index by by destruct (est_dossier _).
  by rewrite Hi, Hn, Hp.
Qed.

Lemma avec_index_idem p d : index_ok p d = true → avec_index p (avec_index p d) = avec_index p d.
Proof.
  destruct d as [nm c|nom ch]; [done|]. cbn [avec_index index_ok]. intros [[Hi _]%andb_prop _]%andb_prop.
  unfold texte_index at 1. rewrite lister_photos_set_index by by destruct (est_dossier _).
  fold (texte_index p nom ch). by rewrite set_entry_twice.
Qed.

Lemma equipe_json_avec_index p d : index_ok p d = true → equipe_json p (avec_index p d) = equipe_json p d.
Proof.
  destruct d as [nm c|nom ch]; [done|]. simpl. intros [[Hi _]%andb_prop _]%andb_prop.
  rewrite lister_photos_set_index by by destruct (est_dossier _). done.
Qed.

(** Team folders keep their names, so they keep their order. *)
Lemma trier_avec_index p eff : trier p (map (avec_index p) eff) = map (avec_index p) (trier p eff).
Proof.
  unfold trier. apply merge_sort_map. intros x y. unfold entree_le.
  by rewrite !node_name_avec_index.
Qed.

Lemma find_effectifs_set_js racine x :
  find_entry effectifs_nom (set_entry photos_index_nom (File photos_index_nom x) racine) =
    find_entry effectifs_nom racine.
Proof. by apply find_entry_set_entry_ne. Qed.

Lemma dir_children_avec_index p eff nom ch :
  NoDup (map node_name eff) → Dir nom ch ∈ eff →
  dir_children nom (map (avec_index p) eff) =
    set_entry index_nom (File index_nom (texte_index p nom ch ≫= utf8_encode_char)) ch.
Proof.
  intros Hnd Hin. unfold dir_children. rewrite find_entry_map by apply node_name_avec_index.
  pose proof (find_entry_NoDup eff _ Hnd Hin) as Hf. simpl in Hf. by rewrite Hf.
Qed.

Lemma flat_map_avec_index p ds :
  (∀ d, d ∈ ds → index_ok p d = true) →
  flat_map (equipe_json p) (map (avec_index p) ds) = flat_map (equipe_json p) ds.
Proof.
  induction ds as [|d ds IH]; intros Hok; simpl; [done|].
  rewrite equipe_json_avec_index, IH by (intros; apply Hok; set_solver). done.
Qed.

(** The lines and the counters the loop prints do not see the
    [index.json] files. *)
Lemma rapport_avec_index p ds :
  (∀ d, d ∈ ds → index_ok p d = true) →
  flat_map (lignes_equipe p) (map (avec_index p) ds) = flat_map (lignes_equipe p) ds ∧
  filter (λ n, is_dir n = true) (map (avec_index p) ds) = map (avec_index p) (filter (λ n, is_dir n = true) ds) ∧
  map (nb_photos p) (map (avec_index p) ds) = map (nb_photos p) ds.
Proof.
  induction ds as [|d ds IH]; intros Hok; [done|]. destruct IH as (H1 & H2 & H3); [set_solver|].
  assert (Hd : index_ok p d = true) by set_solver. cbn [map flat_map]. rewrite !filter_cons, H1, H2, H3.
  destruct d as [nm c|nom ch]; [done|]. simpl in Hd |- *.
  apply andb_prop in Hd as [[Hi _]%andb_prop _]. rewrite lister_photos_set_index by by destruct (est_dossier _).
  done.
Qed.

(** The lines of the loop, one per team folder. *)
Lemma flat_map_lignes_equipe p ds :
  flat_map (lignes_equipe p) ds =
    map (λ d, ligne_equipe (node_name d) (nb_photos p d)) (filter (λ n, is_dir n = true) ds).
Proof. induction ds as [|[] ds IH]; rewrite ?filter_cons; simpl; rewrite ?IH; done. Qed.

(** Reading back a file of the script directory by its path, as text. *)
Fixpoint lire_chemin (chemin : list (list N)) (ch : list fsnode) : option fsnode :=
  match chemin with
  | [] => None
  | [nm] => find_entry nm ch
  | nm :: reste => match find_entry nm ch with Some (Dir _ c) => lire_chemin reste c | _ => None end
  end.

Definition lire_texte (chemin : list (list N)) (ch : list fsnode) : option (list N) :=
  match lire_chemin chemin ch with Some (File _ bs) => utf8_decode bs | _ => None end.

(** The shape of an [index.json] the specification gives: the fields
    [photos] (an array of strings), [count] (an integer, the number of
    photos) and [team] (a string), in this order. *)
Definition est_jstr (j : json) : bool := match j with JStr _ => true | _ => false end.

Definition index_schema (j : json) : bool :=
  match j with
  | JObj [(k1, JArr ps); (k2, JInt n); (k3, JStr _)] =>
      bool_decide (k1 = py:"photos") && bool_decide (k2 = py:"count") &&
      bool_decide (k3 = py:"team") && forallb est_jstr ps && (n =? N.of_nat (length ps))
  | _ => false
  end.

Lemma index_schema_index_data nom photos : index_schema (index_data nom photos) = true.
Proof.
  unfold index_schema, index_data. rewrite !bool_decide_true, length_map, N.eqb_refl by done.
  rewrite andb_true_r. by induction photos.
Qed.

(** [all_indexes] as a map from the team folders, in the order given. *)
Lemma flat_map_equipe_json p eff ds :
  NoDup (map node_name eff) → (∀ d, d ∈ ds → d ∈ eff) →
  flat_map (equipe_json p) ds =
    map (λ d, (node_name d, JArr (map JStr (lister_photos p (dir_children (node_name d) eff)))))
        (filter (λ d, is_dir d = true) ds).
Proof.
  intros Hnd. induction ds as [|d ds IH]; intros Hds; [done|]. rewrite filter_cons.
  assert (d ∈ eff) as Hd by set_solver. specialize (IH ltac:(set_solver)).
  destruct d as [nom c|nom ch]; simpl; rewrite IH; [done|]. unfold dir_children.
  pose proof (find_entry_NoDup eff (Dir nom ch) Hnd Hd) as Hf. simpl in Hf. by rewrite Hf.
Qed.

Lemma traduire_contenu_js p all :
  traduire_nl (os_linesep p) (contenu_js all) =
    py:"// Auto-genere par generer-index.py - ne pas modifier" ++ os_linesep p ++
    py:"var PHOTOS_INDEX = " ++ traduire_nl (os_linesep p) (dumps (JObj all)) ++ [59] ++ os_linesep p.
Proof.
  unfold contenu_js. rewrite !traduire_nl_app.
  rewrite (traduire_nl_no_lf _ (py:"// Auto-genere par generer-index.py - ne pas modifier")),
    (traduire_nl_no_lf _ (py:"var PHOTOS_INDEX = ")) by (apply (bool_decide_unpack _); vm_compute; exact I).
  change [59; 10] with ([59] ++ [10]). rewrite traduire_nl_app.
  by rewrite (traduire_nl_no_lf _ [59]), !traduire_nl_cons, !app_nil_r by (repeat constructor; lia).
Qed.

(** What the successful run of [main_index_ok] leaves in the script
    directory, file by file. *)
Section Written.
Context (p : platform) (racine : list fsnode) (nm : list N) (eff : list fsnode).
Hypothesis Hnd : NoDup (map node_name eff).
Hypothesis Hok : forallb (index_ok p) eff = true.

Definition racine_apres : list fsnode :=
  set_entry photos_index_nom
    (File photos_index_nom
       (traduire_nl (os_linesep p) (contenu_js (flat_map (equipe_json p) (trier p eff))) ≫= utf8_encode_char))
    (set_entry effectifs_nom (Dir effectifs_nom (map (avec_index p) eff)) racine).

Lemma index_json_written nom ch :
  Dir nom ch ∈ eff →
  ∃ bs, find_entry index_nom (dir_children nom (dir_children effectifs_nom racine_apres)) =
          Some (File index_nom bs) ∧
        utf8_decode bs = Some (traduire_nl (os_linesep p) (dumps (index_data nom (lister_photos p ch)))).
Proof.
  intros Hin. unfold racine_apres, dir_children at 2.
  rewrite find_effectifs_set_js, find_entry_set_entry_eq by done.
  rewrite (dir_children_avec_index p eff nom ch) by done. eexists. split; [by rewrite find_entry_set_entry_eq|].
  pose proof (forallb_elem _ _ _ Hok Hin) as Hd. simpl in Hd.
  apply andb_prop in Hd as [[_ Hn]%andb_prop Hp].
  apply decode_valid. rewrite valid_traduire_linesep. apply valid_dumps_at, index_data_ok; done.
Qed.

Lemma photos_index_written :
  ∃ bs, find_entry photos_index_nom racine_apres = Some (File photos_index_nom bs) ∧
        utf8_decode bs = Some (traduire_nl (os_linesep p) (contenu_js (flat_map (equipe_json p) (trier p eff)))).
Proof.
  pose proof (merge_sort_Permutation (entree_le p) eff) as Hperm. fold (trier p eff) in Hperm.
  eexists. split; [by unfold racine_apres; rewrite find_entry_set_entry_eq|].
  apply decode_valid. rewrite valid_traduire_linesep.
  apply valid_contenu_js, all_indexes_ok. by rewrite (forallb_perm _ _ _ Hperm).
Qed.

End Written.

(** ** Theorems *)

(** C23.  What the readers of the outputs get: when [Effectifs] is a
    directory of distinct entries whose team folders satisfy [index_ok]
    and [photos-index.js] is not a directory, the run exits with 0, the
    bytes of [photos-index.js] decode to the banner and the assignment of
    [json.dumps] of the map from each team, in sorted order, to its photo
    list, and those of each team's [index.json] decode to [json.dumps] of
    its photos, their count and its name; both texts as a text-mode write
    puts them in the file, each line feed written as [os.linesep] (a
    carriage return and a line feed on Windows). *)
Theorem main_index_outputs p dir racine nm eff :
  find_entry effectifs_nom racine = Some (Dir nm eff) →
  NoDup (map node_name eff) → forallb (index_ok p) eff = true →
  est_dossier (find_entry photos_index_nom racine) = false →
  ∃ racine', (main_index p dir racine).1 = (Exit 0, racine') ∧
    (∃ bs, find_entry photos_index_nom racine' = Some (File photos_index_nom bs) ∧
           utf8_decode bs =
             Some (traduire_nl (os_linesep p) (contenu_js (flat_map (equipe_json p) (trier p eff))))) ∧
    ∀ nom ch, Dir nom ch ∈ eff →
      ∃ bs, find_entry index_nom (dir_children nom (dir_children effectifs_nom racine')) =
              Some (File index_nom bs) ∧
            utf8_decode bs = Some (traduire_nl (os_linesep p) (dumps (index_data nom (lister_photos p ch)))).
Proof.
  intros He Hnd Hok Hjs. exists (racine_apres p racine eff).
  split_and!; [by rewrite (main_index_ok p dir racine nm eff)|by apply photos_index_written|].
  intros nom ch. by apply index_json_written.
Qed.

(** C24.  The fatal paths: without [Effectifs] the run prints the
    banner, the paths and the error and exits with 1, and when
    [Effectifs] is a file [iterdir] raises [NotADirectoryError] after the
    banner and the paths; in both cases no file is written. *)
Theorem main_index_fatal p dir racine :
  (find_entry effectifs_nom racine = None →
     main_index p dir racine = (Exit 1, racine, entete_index p dir ++ absent_index p dir)) ∧
  (∀ c, find_entry effectifs_nom racine = Some (File effectifs_nom c) →
        main_index p dir racine = (Crash NotADirectoryError, racine, entete_index p dir)).
Proof. unfold main_index. split; [intros ->|intros c ->]; done. Qed.

(** C25.  Idempotence: a second run on the directory a successful run
    leaves behind exits with 0, leaves it as it is and prints the same
    report; the [index.json] files written by the first run are not
    photos and do not change the lists. *)
Theorem main_index_idempotent p dir racine nm eff :
  find_entry effectifs_nom racine = Some (Dir nm eff) →
  NoDup (map node_name eff) → forallb (index_ok p) eff = true →
  est_dossier (find_entry photos_index_nom racine) = false →
  ∃ racine' out, main_index p dir racine = (Exit 0, racine', out) ∧
                 main_index p dir racine' = (Exit 0, racine', out).
Proof.
  intros He Hnd Hok Hjs. eexists _, _. split; [by apply (main_index_ok p dir racine nm eff)|].
  pose proof (merge_sort_Permutation (entree_le p) eff) as Hperm. fold (trier p eff) in Hperm.
  assert (Hok' : ∀ d, d ∈ trier p eff → index_ok p d = true)
    by (intros d Hd; apply (forallb_elem _ _ _ Hok); by rewrite <-Hperm).
  rewrite (main_index_ok p dir _ effectifs_nom (map (avec_index p) eff)).
  - rewrite map_map, (map_ext_in (λ x, avec_index p (avec_index p x)) (avec_index p) eff)
      by (intros d Hd%list_elem_of_In; apply avec_index_idem, Hok'; by rewrite Hperm).
    destruct (rapport_avec_index p (trier p eff) Hok') as (R1 & R2 & R3).
    rewrite trier_avec_index, flat_map_avec_index, R1, R2, R3, length_map by done.
    rewrite (set_entry_same effectifs_nom)
      by (rewrite find_effectifs_set_js; by apply find_entry_set_entry_eq).
    by rewrite set_entry_same by (by apply find_entry_set_entry_eq).
  - rewrite find_effectifs_set_js. by apply find_entry_set_entry_eq.
  - rewrite map_map. by rewrite (map_ext _ node_name (node_name_avec_index p)).
  - apply forallb_forall. intros d' (d & -> & Hd)%list_elem_of_In%list_elem_of_fmap.
    rewrite index_ok_avec_index; apply Hok'; by rewrite Hperm.
  - by rewrite find_entry_set_entry_eq.
Qed.

(** C21.  The report of a run without exception: after the banner and
    the paths, one line per team folder in the order of the loop, with the
    folder's name padded to twenty columns and the number of its photos
    ([aucune photo] for none), then the line of [photos-index.js] and the
    summary, whose counts are the number of team folders of [Effectifs]
    and the number of photos they hold. *)
Theorem main_index_report p dir racine nm eff :
  find_entry effectifs_nom racine = Some (Dir nm eff) →
  NoDup (map node_name eff) → forallb (index_ok p) eff = true →
  est_dossier (find_entry photos_index_nom racine) = false →
  (main_index p dir racine).2 =
    entete_index p dir ++
    map (λ d, ligne_equipe (node_name d) (nb_photos p d)) (filter (λ n, is_dir n = true) (trier p eff)) ++
    fin_index (length (filter (λ n, is_dir n = true) eff)) (sum_list (map (nb_photos p) eff)).
Proof.
  intros He Hnd Hok Hjs. rewrite (main_index_ok p dir racine nm eff) by done. cbn [snd].
  pose proof (merge_sort_Permutation (entree_le p) eff) as Hperm. fold (trier p eff) in Hperm.
  rewrite flat_map_lignes_equipe.
  assert (length (filter (λ n, is_dir n = true) (trier p eff)) = length (filter (λ n, is_dir n = true) eff))
    as -> by (apply Permutation_length; by rewrite Hperm).
  assert (sum_list (map (nb_photos p) (trier p eff)) = sum_list (map (nb_photos p) eff))
    as -> by (apply sum_list_with_Permutation_proper, Permutation_map, Hperm).
  done.
Qed.

(** C27.  The exceptions of one team folder: opening [index.json]
    raises when it is a directory ([IsADirectoryError] on POSIX,
    [PermissionError] on Windows); otherwise writing it raises
    [UnicodeEncodeError] exactly when the team name or one of the photo
    paths holds a lone surrogate, and nothing is raised else. *)
Theorem traiter_entree_raise p st nom ch0 :
  (traiter_entree p st (Dir nom ch0)).2 =
    if est_dossier (find_entry index_nom (dir_children nom (effectifs st))) then Some (erreur_dossier p)
    else if forallb valid_char nom &&
            forallb (forallb valid_char) (lister_photos p (dir_children nom (effectifs st)))
    then None else Some UnicodeEncodeError.
Proof.
  unfold traiter_entree, ecrire. set (ch := dir_children nom (effectifs st)).
  pose proof (encode_chunks_error (map (traduire_nl (os_linesep p)) (iterencode (index_data nom (lister_photos p ch)))))
    as He.
  rewrite traduire_nl_concat, valid_traduire_linesep, iterencode_dumps in He. unfold dumps in He.
  rewrite valid_dumps_at_iff, index_data_ok_iff in He.
  destruct (encode_chunks _) as [bs e]. cbn [snd] in He. subst e.
  destruct (forallb valid_char nom && _); by destruct (find_entry index_nom ch) as [[a b|a b]|].
Qed.

(** C30.  The type of each [index.json]: after a run that exits with 0,
    the text of the [index.json] of every team folder reads, as JSON,
    as an object of the schema of the specification ([photos], [count],
    [team]), which holds the folder's photos, their number and the
    folder's name. *)
Theorem main_index_json_schema p dir racine nm eff :
  find_entry effectifs_nom racine = Some (Dir nm eff) →
  NoDup (map node_name eff) → forallb (index_ok p) eff = true →
  est_dossier (find_entry photos_index_nom racine) = false →
  ∃ racine', (main_index p dir racine).1 = (Exit 0, racine') ∧
    ∀ nom ch, Dir nom ch ∈ eff →
      ∃ bs t j, find_entry index_nom (dir_children nom (dir_children effectifs_nom racine')) =
                  Some (File index_nom bs) ∧
        utf8_decode bs = Some t ∧ parse_json t = Some j ∧ index_schema j = true ∧
        j = index_data nom (lister_photos p ch).
Proof.
  intros He Hnd Hok Hjs. exists (racine_apres p racine eff).
  split; [by rewrite (main_index_ok p dir racine nm eff)|]. intros nom ch Hin.
  destruct (index_json_written p racine eff Hnd Hok nom ch Hin) as (bs & Hf & Hd).
  exists bs, (traduire_nl (os_linesep p) (dumps (index_data nom (lister_photos p ch)))),
    (index_data nom (lister_photos p ch)).
  split_and!; [exact Hf|exact Hd|apply parse_json_linesep|apply index_schema_index_data|done].
Qed.

(** C31.  Round trip of [photos-index.js]: after a run that exits with 0
    the module is the banner and [var PHOTOS_INDEX = L;], each line ended
    by [os.linesep] (a carriage return and a line feed on Windows), and
    the literal [L] reads back, as JSON, as the map from each team folder,
    in the order of [sorted(iterdir())], to its list of photos. *)
Theorem main_index_js_roundtrip p dir racine nm eff :
  find_entry effectifs_nom racine = Some (Dir nm eff) →
  NoDup (map node_name eff) → forallb (index_ok p) eff = true →
  est_dossier (find_entry photos_index_nom racine) = false →
  ∃ racine' bs L, (main_index p dir racine).1 = (Exit 0, racine') ∧
    find_entry photos_index_nom racine' = Some (File photos_index_nom bs) ∧
    utf8_decode bs = Some (py:"// Auto-genere par generer-index.py - ne pas modifier" ++ os_linesep p ++
                           py:"var PHOTOS_INDEX = " ++ L ++ [59] ++ os_linesep p) ∧
    parse_json L = Some (JObj (map (λ d, (node_name d, JArr (map JStr (lister_photos p (dir_children (node_name d) eff)))))
                                  (filter (λ d, is_dir d = true) (trier p eff)))).
Proof.
  intros He Hnd Hok Hjs. destruct (photos_index_written p racine eff Hok) as (bs & Hf & Hd).
  rewrite traduire_contenu_js in Hd.
  exists (racine_apres p racine eff), bs, (traduire_nl (os_linesep p) (dumps (JObj (flat_map (equipe_json p) (trier p eff))))).
  split_and!; [by rewrite (main_index_ok p dir racine nm eff)|exact Hf|exact Hd|].
  rewrite parse_json_linesep. do 2 f_equal. apply flat_map_equipe_json; [done|].
  intros d. unfold trier. by rewrite merge_sort_Permutation.
Qed.

(** C26.  A team folder whose [index.json] cannot be encoded (its name or
    one of its photo paths holds a lone surrogate, as a file name that is
    not valid UTF-8 gives on POSIX), reached after team folders that are
    processed without exception, ends the run with [UnicodeEncodeError]:
    the report stops after the lines of the earlier folders,
    [photos-index.js] is not written, and the [index.json] of the folder
    keeps the encoding of a proper prefix of its text, the chunks written
    before the one that failed. *)
Theorem main_index_surrogate_crash p dir racine nm eff pre nom ch post :
  find_entry effectifs_nom racine = Some (Dir nm eff) →
  NoDup (map node_name eff) →
  trier p eff = pre ++ Dir nom ch :: post →
  forallb (index_ok p) pre = true →
  est_dossier (find_entry index_nom ch) = false →
  forallb valid_char nom && forallb (forallb valid_char) (lister_photos p ch) = false →
  ∃ racine' t,
    main_index p dir racine =
      (Crash UnicodeEncodeError, racine', entete_index p dir ++ flat_map (lignes_equipe p) pre) ∧
    find_entry photos_index_nom racine' = find_entry photos_index_nom racine ∧
    t `prefix_of` texte_index p nom ch ∧ t ≠ texte_index p nom ch ∧
    find_entry index_nom (dir_children nom (dir_children effectifs_nom racine')) =
      Some (File index_nom (t ≫= utf8_encode_char)).
Proof.
  intros He Hnd Ht Hpre Hi Hv.
  pose proof (merge_sort_Permutation (entree_le p) eff) as Hperm. fold (trier p eff) in Hperm.
  rewrite Ht in Hperm.
  assert (Hnd' : NoDup (map node_name (pre ++ Dir nom ch :: post))) by (by rewrite Hperm).
  rewrite map_app in Hnd'. apply NoDup_app in Hnd' as (Hnd1 & Hdis & _).
  assert (Hnom : nom ∉ noms_equipes pre ++ []).
  { rewrite app_nil_r. intros Hn. apply (Hdis nom); [|by left].
    unfold noms_equipes in Hn. apply list_elem_of_fmap in Hn as (d & -> & Hd%list_elem_of_filter).
    apply list_elem_of_fmap. exists d. by destruct Hd. }
  unfold main_index. rewrite He, Ht, boucle_app.
  rewrite (boucle_ok p eff Hnd pre []);
    [|intros d Hd; rewrite <-Hperm; set_solver|done|set_solver|set_solver|by rewrite map_maj_nil|done].
  cbn [boucle traiter_entree effectifs equipes_trouvees total_photos all_indexes console].
  rewrite (dir_children_maj p _ eff nom ch) by (done || rewrite <-Hperm; set_solver).
  set (j := index_data nom (lister_photos p ch)).
  destruct (encode_chunks_fail (map (traduire_nl (os_linesep p)) (iterencode j))) as (t & Hpt & Hne & Henc).
  { rewrite traduire_nl_concat, valid_traduire_linesep, iterencode_dumps. unfold dumps, j.
    by rewrite valid_dumps_at_iff, index_data_ok_iff. }
  rewrite traduire_nl_concat, iterencode_dumps in Hpt, Hne.
  unfold ecrire. destruct (find_entry index_nom ch) as [[a b|a b]|] eqn:Hf; [| done |]; rewrite Henc; cbn.
  all: eexists _, t; split_and!; [reflexivity|by rewrite find_entry_set_entry_ne|done|done|].
  all: unfold dir_children at 2; rewrite find_entry_set_entry_eq by done.
  all: unfold dir_children; rewrite find_entry_set_entry_eq by done; by rewrite find_entry_set_entry_eq.
Qed.

(** C32.  [json.dump], which writes the chunks of [iterencode] one by
    one, writes the bytes of [json.dumps] of the same value when its text
    encodes; when it does not, it raises [UnicodeEncodeError] after
    writing the encoding of a proper prefix of that text. *)
Theorem json_dump_dumps j :
  (json_ok j = true → encode_chunks (iterencode j) = (dumps j ≫= utf8_encode_char, None)) ∧
  (json_ok j = false → ∃ t, t `prefix_of` dumps j ∧ t ≠ dumps j ∧
     encode_chunks (iterencode j) = (t ≫= utf8_encode_char, Some UnicodeEncodeError)).
Proof.
  pose proof (encode_chunks_error (iterencode j)) as Herr.
  rewrite iterencode_dumps in Herr. unfold dumps in Herr. rewrite valid_dumps_at_iff in Herr.
  split; intros Hj.
  - rewrite encode_chunks_valid, iterencode_dumps; [done|]. rewrite iterencode_dumps. by apply valid_dumps_at.
  - rewrite <-iterencode_dumps. apply encode_chunks_fail.
    rewrite iterencode_dumps. unfold dumps. by rewrite valid_dumps_at_iff.
Qed.

(** ** Witnesses *)

Definition racine_exemple : list fsnode :=
  [File (py:"generer-index.py") [];
   Dir effectifs_nom [Dir (py:"Beta") [File (py:"index.json") [1]];
                      File (py:"notes.txt") [];
                      Dir (py:"Alpha") [File (py:"a.jpg") []; Dir (py:"sub") [File (py:"b.png") []]]]].

Definition effectifs_exemple : list fsnode := dir_children effectifs_nom racine_exemple.

Lemma racine_exemple_ok p :
  find_entry effectifs_nom racine_exemple = Some (Dir effectifs_nom effectifs_exemple) ∧
  NoDup (map node_name effectifs_exemple) ∧ forallb (index_ok p) effectifs_exemple = true ∧
  est_dossier (find_entry photos_index_nom racine_exemple) = false.
Proof.
  split_and!; [reflexivity| |destruct p; vm_compute; reflexivity|reflexivity].
  apply (bool_decide_unpack _). vm_compute. exact I.
Qed.

Lemma main_index_outputs_witness :
  ∃ racine', (main_index Windows dir_example racine_exemple).1 = (Exit 0, racine') ∧
    (∃ bs, find_entry photos_index_nom racine' = Some (File photos_index_nom bs) ∧
           utf8_decode bs =
             Some (traduire_nl (os_linesep Windows)
                     (contenu_js (flat_map (equipe_json Windows) (trier Windows effectifs_exemple))))) ∧
    ∀ nom ch, Dir nom ch ∈ effectifs_exemple →
      ∃ bs, find_entry index_nom (dir_children nom (dir_children effectifs_nom racine')) =
              Some (File index_nom bs) ∧
            utf8_decode bs = Some (traduire_nl (os_linesep Windows) (dumps (index_data nom (lister_photos Windows ch)))).
Proof.
  destruct (racine_exemple_ok Windows) as (H1 & H2 & H3 & H4).
  exact (main_index_outputs Windows dir_example racine_exemple effectifs_nom effectifs_exemple H1 H2 H3 H4).
Defined.

Lemma main_index_fatal_witness :
  main_index Windows dir_example [File (py:"generer-index.py") []] =
    (Exit 1, [File (py:"generer-index.py") []], entete_index Windows dir_example ++ absent_index Windows dir_example) ∧
  main_index Posix dir_example [File effectifs_nom [1]] =
    (Crash NotADirectoryError, [File effectifs_nom [1]], entete_index Posix dir_example).
Proof.
  split.
  - apply (proj1 (main_index_fatal Windows dir_example [File (py:"generer-index.py") []])). reflexivity.
  - apply (proj2 (main_index_fatal Posix dir_example [File effectifs_nom [1]]) [1]). reflexivity.
Defined.

Lemma main_index_report_witness :
  (main_index Posix dir_example racine_exemple).2 =
    entete_index Posix dir_example ++
    map (λ d, ligne_equipe (node_name d) (nb_photos Posix d))
        (filter (λ n, is_dir n = true) (trier Posix effectifs_exemple)) ++
    fin_index (length (filter (λ n, is_dir n = true) effectifs_exemple))
              (sum_list (map (nb_photos Posix) effectifs_exemple)).
Proof.
  destruct (racine_exemple_ok Posix) as (H1 & H2 & H3 & H4).
  exact (main_index_report Posix dir_example racine_exemple effectifs_nom effectifs_exemple H1 H2 H3 H4).
Defined.

Lemma main_index_idempotent_witness :
  ∃ racine' out, main_index Posix dir_example racine_exemple = (Exit 0, racine', out) ∧
                 main_index Posix dir_example racine' = (Exit 0, racine', out).
Proof.
  destruct (racine_exemple_ok Posix) as (H1 & H2 & H3 & H4).
  exact (main_index_idempotent Posix dir_example racine_exemple effectifs_nom effectifs_exemple H1 H2 H3 H4).
Defined.

Lemma main_index_json_schema_witness :
  ∃ racine', (main_index Posix dir_example racine_exemple).1 = (Exit 0, racine') ∧
    ∀ nom ch, Dir nom ch ∈ effectifs_exemple →
      ∃ bs t j, find_entry index_nom (dir_children nom (dir_children effectifs_nom racine')) =
                  Some (File index_nom bs) ∧
        utf8_decode bs = Some t ∧ parse_json t = Some j ∧ index_schema j = true ∧
        j = index_data nom (lister_photos Posix ch).
Proof.
  destruct (racine_exemple_ok Posix) as (H1 & H2 & H3 & H4).
  exact (main_index_json_schema Posix dir_example racine_exemple effectifs_nom effectifs_exemple H1 H2 H3 H4).
Defined.

Lemma main_index_js_roundtrip_witness :
  ∃ racine' bs L, (main_index Windows dir_example racine_exemple).1 = (Exit 0, racine') ∧
    find_entry photos_index_nom racine' = Some (File photos_index_nom bs) ∧
    utf8_decode bs = Some (py:"// Auto-genere par generer-index.py - ne pas modifier" ++ os_linesep Windows ++
                           py:"var PHOTOS_INDEX = " ++ L ++ [59] ++ os_linesep Windows) ∧
    parse_json L = Some (JObj (map (λ d, (node_name d, JArr (map JStr (lister_photos Windows
                                    (dir_children (node_name d) effectifs_exemple)))))
                                  (filter (λ d, is_dir d = true) (trier Windows effectifs_exemple)))).
Proof.
  destruct (racine_exemple_ok Windows) as (H1 & H2 & H3 & H4).
  exact (main_index_js_roundtrip Windows dir_example racine_exemple effectifs_nom effectifs_exemple H1 H2 H3 H4).
Defined.

(** The index of a team whose name holds a lone surrogate. *)
Definition index_surrogate : json := index_data [0xDC80] [py:"a.jpg"].

Lemma json_dump_dumps_witness :
  encode_chunks (iterencode (index_data (py:"Alpha") [py:"a.jpg"])) =
    (dumps (index_data (py:"Alpha") [py:"a.jpg"]) ≫= utf8_encode_char, None) ∧
  ∃ t, t `prefix_of` dumps index_surrogate ∧ t ≠ dumps index_surrogate ∧
    encode_chunks (iterencode index_surrogate) = (t ≫= utf8_encode_char, Some UnicodeEncodeError).
Proof.
  split.
  - apply (proj1 (json_dump_dumps (index_data (py:"Alpha") [py:"a.jpg"]))). vm_compute. reflexivity.
  - apply (proj2 (json_dump_dumps index_surrogate)). vm_compute. reflexivity.
Defined.

(** A team folder [B] whose only photo has a name that was not valid
    UTF-8, after a team folder [A] that is processed normally. *)
Definition effectifs_surrogate : list fsnode :=
  [Dir (py:"B") [File (0xDC80 :: py:".jpg") []]; Dir (py:"A") [File (py:"a.png") []]].

Lemma main_index_surrogate_crash_witness :
  ∃ racine' t,
    main_index Posix dir_example [Dir effectifs_nom effectifs_surrogate] =
      (Crash UnicodeEncodeError, racine',
       entete_index Posix dir_example ++ flat_map (lignes_equipe Posix) [Dir (py:"A") [File (py:"a.png") []]]) ∧
    find_entry photos_index_nom racine' = find_entry photos_index_nom [Dir effectifs_nom effectifs_surrogate] ∧
    t `prefix_of` texte_index Posix (py:"B") [File (0xDC80 :: py:".jpg") []] ∧
    t ≠ texte_index Posix (py:"B") [File (0xDC80 :: py:".jpg") []] ∧
    find_entry index_nom (dir_children (py:"B") (dir_children effectifs_nom racine')) =
      Some (File index_nom (t ≫= utf8_encode_char)).
Proof.
  apply (main_index_surrogate_crash Posix dir_example [Dir effectifs_nom effectifs_surrogate] effectifs_nom
           effectifs_surrogate [Dir (py:"A") [File (py:"a.png") []]] (py:"B") [File (0xDC80 :: py:".jpg") []] []);
    [reflexivity| |vm_compute; reflexivity..].
  apply (bool_decide_unpack _). vm_compute. exact I.
Defined.
